(** * recsys: item-based collaborative filtering and its evaluation harness

    A shallow embedding of [recsys/utils.py], [recsys/recommend_user.py] and
    [recsys/evaluation.py], and the properties of the specification proved
    (or refuted) on it.

    Numbers.  Python floats are modelled by exact rationals [Q]; a value
    that pandas can turn into NaN is a [float := option Q] with [None] for
    NaN.  The only NaN the code produces on a table of finite ratings is
    the sample standard deviation of a single rating (pandas [std] has
    one delta degree of freedom).  Square roots come from numpy and
    scikit-learn: they are a parameter [sqrt] of the model, so every
    theorem holds for any square-root function; the fixtures instantiate
    it with [Qsqrt], which is exact on squares of rationals.  One
    product is rounded as the machine rounds it: the [test_size * n] of
    scikit-learn's [train_test_split], whose ceiling is the number of
    test rows.

    Exceptions.  Fallible code returns a [result].  The exceptions that a
    callback of the harness raises are either an [Exception], which
    [except Exception] catches, or not ([SystemExit],
    [KeyboardInterrupt]), which only a bare [except] catches.

    Tables.  A DataFrame is the list of its rows in row order.  A pandas
    [groupby] or [pivot_table] yields its keys sorted ascending
    ([sorted_unique]).  A Python [dict] is an association list in
    insertion order, because [recommend_for_user] turns the items of its
    dictionary into rows in that order.  [sort_values] is modelled as a
    stable descending sort. *)

From stdpp Require Import base gmap sets fin_sets.
From Stdlib Require Import String ZArith QArith Qabs Qround List Lia Lqa Bool.
From Stdlib Require Import Qpower.
From Stdlib Require Import Permutation Sorted.
Import ListNotations.

#[local] Set Warnings "-clear-no-such-hyp".

Local Open Scope Z_scope.

(** ** Errors *)

Inductive exn : Type :=
| UnknownUser (user : Z)            (* ValueError "User ... not found in dataset." *)
| UnknownMethod (method : string)   (* ValueError "Unknown normalization method: ..." *)
| KeyError (key : Z)                (* a failed [.loc] row lookup *)
| EmptyArray                        (* scikit-learn rejects an array without samples *)
| EmptyTrainSet                     (* train_test_split: the train set would be empty *)
| InvalidTestSize                   (* train_test_split: test_size outside (0, 1) *)
| NoObjectsToConcatenate            (* pd.concat of an empty list *)
| EmptyMax                          (* max() of an empty sequence *)
| IndexError                        (* [.iloc[0]] of an empty frame *)
| Raised (code : Z)                 (* any other [Exception] of a callback *)
| Exit (code : Z).                  (* [SystemExit], [KeyboardInterrupt]: no [Exception] *)

Inductive result (A : Type) : Type :=
| Ok (a : A)
| Error (e : exn).
Arguments Ok {A} a.
Arguments Error {A} e.

(** [isinstance(e, Exception)]: what [except Exception] catches.  A bare
    [except:] catches the others too. *)
Definition is_Exception (e : exn) : bool :=
  match e with
  | Exit _ => false
  | _ => true
  end.

#[global] Instance result_bind : MBind result :=
  fun A B k r =>
    match r with
    | Ok a => k a
    | Error e => Error e
    end.

(** ** Floats with NaN *)

Definition float : Type := option Q.

Definition fdiv (x : Q) (d : float) : float :=
  match d with
  | Some s => Some (x / s)%Q
  | None => None
  end.

(** [Series.replace(0, 1)]: NaN is left alone. *)
Definition replace_0_1 (x : float) : float :=
  match x with
  | Some v => if Qeq_bool v 0 then Some 1%Q else Some v
  | None => None
  end.

Definition fadd (x y : float) : float :=
  match x, y with
  | Some a, Some b => Some (a + b)%Q
  | _, _ => None
  end.

Definition fmul (x y : float) : float :=
  match x, y with
  | Some a, Some b => Some (a * b)%Q
  | _, _ => None
  end.

Definition Qlt_bool (x y : Q) : bool := negb (Qle_bool y x).

(** [Series.clip(lower, upper)]: NaN is left alone. *)
Definition clipQ (lower upper x : Q) : Q :=
  if Qle_bool x lower then lower
  else if Qle_bool upper x then upper else x.

Definition clip (lower upper : Q) (x : float) : float :=
  match x with
  | Some v => Some (clipQ lower upper v)
  | None => None
  end.

(** Equality of optional rationals, up to [==]. *)
Definition oQeq (a b : option Q) : Prop :=
  match a, b with
  | Some x, Some y => (x == y)%Q
  | None, None => True
  | _, _ => False
  end.

(** ** The product of two floats *)

(** Where the code takes the ceiling of a product of floats, the rounding
    of the product decides the integer that comes out, so the product is
    rounded as the machine does: to the nearest number with 53
    significant bits, ties to the even one.  The exponent is not bounded;
    a product in the subnormal range has ceiling 1 either way. *)
Definition round_half_even (q : Q) : Z :=
  let f := Qfloor q in
  match (q - inject_Z f ?= 1 # 2)%Q with
  | Lt => f
  | Gt => f + 1
  | Eq => if Z.even f then f else f + 1
  end.

(** The exponent of a positive rational: [2 ^ ilog2 q <= q < 2 ^ (ilog2 q + 1)]. *)
Definition ilog2 (q : Q) : Z :=
  let d := Z.log2 (Qnum q) - Z.log2 (Zpos (Qden q)) in
  if Qle_bool (2 ^ d) q then d else d - 1.

Definition float_round_pos (q : Q) : Q :=
  let e := ilog2 q - 52 in
  (inject_Z (round_half_even (q / 2 ^ e)) * 2 ^ e)%Q.

(** The float nearest to a rational. *)
Definition float_round (q : Q) : Q :=
  match (q ?= 0)%Q with
  | Eq => 0%Q
  | Gt => float_round_pos q
  | Lt => (- float_round_pos (- q))%Q
  end.

(** [x * y] on floats, and [float(n)] of an integer. *)
Definition float_mul (x y : Q) : Q := float_round (x * y).

Definition float_of_int (n : Z) : Q := float_round (inject_Z n).

(** ** Aggregates over a column *)

Definition Qsum (l : list Q) : Q := fold_right Qplus 0%Q l.

Definition Qlen (l : list Q) : Q := inject_Z (Z.of_nat (length l)).

Definition mean (l : list Q) : Q := (Qsum l / Qlen l)%Q.

Definition Qmin_list (l : list Q) : Q :=
  match l with
  | [] => 0%Q
  | x :: t => fold_left (fun m y => if Qle_bool y m then y else m) t x
  end.

Definition Qmax_list (l : list Q) : Q :=
  match l with
  | [] => 0%Q
  | x :: t => fold_left (fun m y => if Qle_bool m y then y else m) t x
  end.

(** A computable square root for the fixtures: exact on squares. *)
Definition Qsqrt (q : Q) : Q :=
  Qmake (Z.sqrt (Qnum q * Zpos (Qden q))) (Qden q).

(** ** Sorted distinct keys, as [groupby] and [pivot_table] produce them *)

Fixpoint insert_key (k : Z) (l : list Z) : list Z :=
  match l with
  | [] => [k]
  | x :: t =>
      if k <? x then k :: x :: t
      else if k =? x then x :: t
      else x :: insert_key k t
  end.

Definition sorted_unique (l : list Z) : list Z :=
  fold_right insert_key [] l.

(** ** Rating table *)

Record RatingRecord : Type := mkRating {
  user_id : Z;
  product_id : Z;
  rating : Q;
  timestamp : Z
}.

Definition DataFrame : Type := list RatingRecord.

(** [df[df['user_id'] == u]] *)
Definition rows_of_user (u : Z) (df : DataFrame) : DataFrame :=
  List.filter (fun r => user_id r =? u) df.

Definition rows_of_product (p : Z) (df : DataFrame) : DataFrame :=
  List.filter (fun r => product_id r =? p) df.

(** [user_id in df['user_id'].values] *)
Definition has_user (u : Z) (df : DataFrame) : bool :=
  existsb (fun r => user_id r =? u) df.

(** A table indexed by row and column labels ([pivot_table], [.loc]). *)
Record Table (A : Type) : Type := mkTable {
  index : list Z;
  columns : list Z;
  at_ : Z -> Z -> A
}.
Arguments mkTable {A} _ _ _.
Arguments index {A} _.
Arguments columns {A} _.
Arguments at_ {A} _ _ _.

(** The three columns [pivot_table] reads: index, columns, values. *)
Definition Cells : Type := list (Z * Z * float).

Definition cell_user (c : Z * Z * float) : Z := fst (fst c).
Definition cell_product (c : Z * Z * float) : Z := snd (fst c).
Definition cell_value (c : Z * Z * float) : float := snd c.

(** The values of one (user, product) group that are not NaN. *)
Definition group_values (cells : Cells) (u p : Z) : list Q :=
  flat_map (fun c =>
    if (cell_user c =? u) && (cell_product c =? p)
    then match cell_value c with Some v => [v] | None => [] end
    else []) cells.

Definition not_nan (c : Z * Z * float) : bool :=
  match cell_value c with Some _ => true | None => false end.

(** [df.pivot_table(index="user_id", columns="product_id", values=col)]:
    the mean of every (user, product) group; a group whose mean is NaN is
    dropped before unstacking, and so are the users and the products that
    only such groups mention. *)
Definition pivot_table (cells : Cells) : Table float :=
  let kept := List.filter not_nan cells in
  mkTable (sorted_unique (map cell_user kept))
          (sorted_unique (map cell_product kept))
          (fun u p => match group_values cells u p with
                      | [] => None
                      | vs => Some (mean vs)
                      end).

Definition fillna (v : Q) (t : Table float) : Table Q :=
  mkTable (index t) (columns t)
          (fun u p => match at_ t u p with Some x => x | None => v end).

(** [matrix.loc[user_id]] *)
Definition loc (m : Table Q) (u : Z) : result (Z -> Q) :=
  if existsb (Z.eqb u) (index m) then Ok (at_ m u) else Error (KeyError u).

(** ** Dictionaries in insertion order *)

Definition dict : Type := list (Z * Q).

Fixpoint dict_get (k : Z) (d : dict) : option Q :=
  match d with
  | [] => None
  | (k', v) :: t => if k' =? k then Some v else dict_get k t
  end.

(** [d.setdefault(k, v)] *)
Definition setdefault (k : Z) (v : Q) (d : dict) : dict :=
  match dict_get k d with
  | Some _ => d
  | None => d ++ [(k, v)]
  end.

(** [d[k] += x] for a key that is present *)
Fixpoint dict_add (k : Z) (x : Q) (d : dict) : dict :=
  match d with
  | [] => []
  | (k', v) :: t =>
      if k' =? k then (k', (v + x)%Q) :: t else (k', v) :: dict_add k x t
  end.

Definition keys (d : dict) : list Z := map fst d.

(** ** Result rows *)

Record Recommendation : Type := mkRec {
  rec_product_id : Z;
  score : Q;
  estimated_rating : float
}.

(** [DataFrame.head(n)], also for a negative [n]. *)
Definition head {A : Type} (n : Z) (l : list A) : list A :=
  if 0 <=? n then firstn (Z.to_nat n) l
  else firstn (length l - Z.to_nat (- n)) l.

(** [sort_values(key, ascending=False)]: stable, largest key first. *)
Section SortValues.

Context {A : Type} (key : A -> Q).

Fixpoint insert_desc (x : A) (l : list A) : list A :=
  match l with
  | [] => [x]
  | y :: t =>
      if Qle_bool (key y) (key x) then x :: y :: t
      else y :: insert_desc x t
  end.

Definition sort_values_desc (l : list A) : list A :=
  fold_right insert_desc [] l.

(** The order of the sorted rows. *)
Definition desc (a b : A) : Prop := (key b <= key a)%Q.

End SortValues.

(** ** The model proper, over the library's square root *)

Section Model.

Variable sqrt : Q -> Q.

(** *** utils.py *)

Definition variance (l : list Q) : Q :=
  let m := mean l in
  (Qsum (map (fun x => (x - m) * (x - m)) l) / (Qlen l - 1))%Q.

(** pandas [std]: the sample standard deviation, NaN for one value. *)
Definition std (l : list Q) : float :=
  if (length l <? 2)%nat then None else Some (sqrt (variance l)).

(** The ratings of the group that [groupby('user_id')] puts row [r] in. *)
Definition user_group (df : DataFrame) (r : RatingRecord) : list Q :=
  map rating (rows_of_user (user_id r) df).

(** The table with its added [normalized_rating] column. *)
Definition NormalizedFrame : Type := list (RatingRecord * float).

Definition normalize_ratings_per_user (df : DataFrame) (method : string)
  : result NormalizedFrame :=
  if String.eqb method "mean_center" then
    Ok (map (fun r =>
          let user_means := mean (user_group df r) in
          (r, Some (rating r - user_means)%Q)) df)
  else if String.eqb method "z_score" then
    Ok (map (fun r =>
          let user_means := mean (user_group df r) in
          let user_stds := replace_0_1 (std (user_group df r)) in
          (r, fdiv (rating r - user_means) user_stds)) df)
  else if String.eqb method "min_max" then
    Ok (map (fun r =>
          let user_min := Qmin_list (user_group df r) in
          let user_max := Qmax_list (user_group df r) in
          let user_range := replace_0_1 (Some (user_max - user_min)%Q) in
          (r, fdiv (rating r - user_min) user_range)) df)
  else Error (UnknownMethod method).

Definition denormalize_rating (normalized_rating user_mean user_std : float)
    (method : string) : float :=
  if String.eqb method "mean_center" then
    fadd normalized_rating user_mean
  else if String.eqb method "z_score" then
    fadd (fmul normalized_rating user_std) user_mean
  else normalized_rating.

Record UserStats : Type := mkStats {
  stats_user_id : Z;
  mean_rating : Q;
  std_rating : float;
  min_rating : Q;
  max_rating : Q;
  rating_count : nat
}.

Definition get_user_statistics (df : DataFrame) : list UserStats :=
  map (fun u =>
         let g := map rating (rows_of_user u df) in
         mkStats u (mean g) (std g) (Qmin_list g) (Qmax_list g) (length g))
      (sorted_unique (map user_id df)).

(** [.iloc[0]] *)
Definition iloc0 {A : Type} (l : list A) : result A :=
  match l with
  | x :: _ => Ok x
  | [] => Error IndexError
  end.

(** *** recommend_user.py *)

(** [cosine_similarity(matrix.T)] of scikit-learn: every item column is
    divided by its Euclidean norm (a zero norm is replaced by 1), then the
    dot products are taken.  An array without samples is rejected. *)
Definition column_norm (m : Table Q) (p : Z) : Q :=
  let n := sqrt (Qsum (map (fun u => (at_ m u p * at_ m u p)%Q) (index m))) in
  if Qeq_bool n 0 then 1%Q else n.

Definition cosine_similarity (m : Table Q) : result (Z -> Z -> Q) :=
  match index m, columns m with
  | [], _ | _, [] => Error EmptyArray
  | _, _ =>
      Ok (fun p q =>
            Qsum (map (fun u => ((at_ m u p / column_norm m p)
                                 * (at_ m u q / column_norm m q))%Q)
                      (index m)))
  end.

Definition get_popular_items (df : DataFrame) (n : Z) (min_ratings : Z)
  : list Recommendation :=
  let popular :=
    map (fun p =>
           let g := map rating (rows_of_product p df) in
           (p, mean g, Z.of_nat (length g)))
        (sorted_unique (map product_id df)) in
  let popular := List.filter (fun x => min_ratings <=? snd x) popular in
  let popular := head n (sort_values_desc (fun x => snd (fst x)) popular) in
  map (fun x => mkRec (fst (fst x)) (snd (fst x)) (Some (snd (fst x))))
      popular.

(** The body of [for other, sim in similar_items.items()]. *)
Definition accumulate_other (user_ratings : Z -> Q) (min_similarity : Q)
    (sim_df : Z -> Z -> Q) (product : Z) (st : dict * dict) (other : Z)
  : dict * dict :=
  let rating := user_ratings product in
  let sim := sim_df other product in
  if Qeq_bool (user_ratings other) 0 && Qle_bool min_similarity sim then
    let scores := setdefault other 0%Q (fst st) in
    let score_weights := setdefault other 0%Q (snd st) in
    (dict_add other (sim * rating)%Q scores,
     dict_add other (Qabs sim) score_weights)
  else st.

(** The body of [for product in rated_items]:
    [similar_items = sim_df[product].drop(product)]. *)
Definition accumulate_product (cols : list Z) (user_ratings : Z -> Q)
    (min_similarity : Q) (sim_df : Z -> Z -> Q) (st : dict * dict)
    (product : Z) : dict * dict :=
  let similar_items := List.filter (fun other => negb (other =? product)) cols in
  fold_left (accumulate_other user_ratings min_similarity sim_df product)
            similar_items st.

Definition accumulate (cols : list Z) (user_ratings : Z -> Q)
    (min_similarity : Q) (sim_df : Z -> Z -> Q) (rated_items : list Z)
  : dict * dict :=
  fold_left (accumulate_product cols user_ratings min_similarity sim_df)
            rated_items ([], []).

(** [for item in scores: if score_weights[item] > 0: scores[item] /= ...];
    both dictionaries have the same keys, so the lookup cannot fail. *)
Definition normalize_scores (scores score_weights : dict) : dict :=
  map (fun kv =>
         match dict_get (fst kv) score_weights with
         | Some w => if Qlt_bool 0 w then (fst kv, (snd kv / w)%Q) else kv
         | None => kv
         end) scores.

(** The [estimated_rating] column before clipping: the denormalization
    with the statistics of the target user. *)
Definition estimate (df : DataFrame) (user : Z) (use_normalized : bool)
    (normalization_method : string) : result (Q -> float) :=
  if use_normalized then
    user_stats ← iloc0 (get_user_statistics (rows_of_user user df));
    let user_mean := mean_rating user_stats in
    if String.eqb normalization_method "mean_center" then
      Ok (fun s => Some (s + user_mean)%Q)
    else if String.eqb normalization_method "z_score" then
      let user_std := std_rating user_stats in
      Ok (fun s => fadd (fmul (Some s) user_std) (Some user_mean))
    else Ok (fun s => Some s)
  else Ok (fun s => Some s).

(** The cells that the user-item matrix is pivoted from: the [rating]
    column, or the [normalized_rating] column of the normalized copy. *)
Definition rating_cells (df : DataFrame) (use_normalized : bool)
    (normalization_method : string) : result Cells :=
  if use_normalized then
    ndf ← normalize_ratings_per_user df normalization_method;
    Ok (map (fun rv => (user_id (fst rv), product_id (fst rv), snd rv)) ndf)
  else
    Ok (map (fun r => (user_id r, product_id r, Some (rating r))) df).

Definition user_item_matrix (df : DataFrame) (use_normalized : bool)
    (normalization_method : string) : result (Table Q) :=
  cells ← rating_cells df use_normalized normalization_method;
  Ok (fillna 0%Q (pivot_table cells)).

Definition rated_items_of (matrix : Table Q) (user_ratings : Z -> Q) : list Z :=
  List.filter (fun p => Qlt_bool 0 (user_ratings p)) (columns matrix).

(** The normalized copy keeps the [rating] column, so [get_popular_items]
    and [get_user_statistics] read the same ratings either way. *)
Definition recommend_for_user (df : DataFrame) (user : Z) (n : Z)
    (min_similarity : Q) (use_normalized : bool)
    (normalization_method : string) (min_common_items : Z)
  : result (list Recommendation) :=
  if negb (has_user user df) then Error (UnknownUser user) else
  matrix ← user_item_matrix df use_normalized normalization_method;
  sim_df ← cosine_similarity matrix;
  user_ratings ← loc matrix user;
  let rated_items := rated_items_of matrix user_ratings in
  if (length rated_items =? 0)%nat then Ok (get_popular_items df n 5) else
  let acc := accumulate (columns matrix) user_ratings min_similarity sim_df
                        rated_items in
  let scores := normalize_scores (fst acc) (snd acc) in
  match scores with
  | [] => Ok []
  | _ =>
      let recs := head n (sort_values_desc snd scores) in
      est ← estimate df user use_normalized normalization_method;
      Ok (map (fun kv =>
                 mkRec (fst kv) (snd kv) (clip (1 # 2) 5 (est (snd kv))))
              recs)
  end.

(** *** evaluation.py *)

(** [numpy.random.RandomState(seed).permutation(n)], the shuffle that
    [train_test_split] draws; a parameter like [sqrt]. *)
Variable permutation : Z -> nat -> list nat.

(** Row selection by position. *)
Definition take_rows {A : Type} (idx : list nat) (l : list A) : list A :=
  flat_map (fun i => match nth_error l i with Some x => [x] | None => [] end)
           idx.

(** scikit-learn's [n_test = ceil(test_size * n_samples)] for a float
    [test_size]: the ceiling of the float product. *)
Definition n_test_of (test_size : Q) (n_samples : nat) : nat :=
  Z.to_nat (Qceiling (float_mul test_size (float_of_int (Z.of_nat n_samples)))).

(** scikit-learn's [train_test_split(data, test_size=f, random_state=seed)]
    for a float [test_size]: [n_test = ceil(f * n)], [n_train = n - n_test],
    the first [n_test] shuffled positions are the test rows and the next
    [n_train] the train rows; an empty train set is an error. *)
Definition train_test_split {A : Type} (data : list A) (test_size : Q)
    (random_state : Z) : result (list A * list A) :=
  let n_samples := length data in
  if Qle_bool test_size 0 || Qle_bool 1 test_size then Error InvalidTestSize
  else
    let n_test := n_test_of test_size n_samples in
    let n_train := (n_samples - n_test)%nat in
    if (n_train =? 0)%nat then Error EmptyTrainSet
    else
      let perm := permutation random_state n_samples in
      let ind_test := firstn n_test perm in
      let ind_train := firstn n_train (skipn n_test perm) in
      Ok (take_rows ind_train data, take_rows ind_test data).

(** [for user_id in valid_users: ...], building [train_dfs], [test_dfs]. *)
Fixpoint split_users (df_filtered : DataFrame) (test_size : Q)
    (random_state : Z) (min_ratings_per_user : Z) (valid_users : list Z)
  : result (list DataFrame * list DataFrame) :=
  match valid_users with
  | [] => Ok ([], [])
  | user :: rest =>
      let user_data := rows_of_user user df_filtered in
      if min_ratings_per_user <=? Z.of_nat (length user_data) then
        tt ← train_test_split user_data test_size random_state;
        dfs ← split_users df_filtered test_size random_state
                          min_ratings_per_user rest;
        Ok (fst tt :: fst dfs, snd tt :: snd dfs)
      else
        split_users df_filtered test_size random_state
                    min_ratings_per_user rest
  end.

(** [pd.concat(dfs, ignore_index=True)] *)
Definition pd_concat (dfs : list DataFrame) : result DataFrame :=
  match dfs with
  | [] => Error NoObjectsToConcatenate
  | _ => Ok (concat dfs)
  end.

Definition valid_users_of (df : DataFrame) (min_ratings_per_user : Z)
  : list Z :=
  let user_counts :=
    map (fun u => (u, Z.of_nat (length (rows_of_user u df))))
        (sorted_unique (map user_id df)) in
  map fst (List.filter (fun uc => min_ratings_per_user <=? snd uc) user_counts).

Definition split_train_test (df : DataFrame) (test_size : Q)
    (random_state : Z) (min_ratings_per_user : Z)
  : result (DataFrame * DataFrame) :=
  let valid_users := valid_users_of df min_ratings_per_user in
  let df_filtered :=
    List.filter (fun r => existsb (Z.eqb (user_id r)) valid_users) df in
  dfs ← split_users df_filtered test_size random_state
                    min_ratings_per_user valid_users;
  train_df ← pd_concat (fst dfs);
  test_df ← pd_concat (snd dfs);
  Ok (train_df, test_df).

(** [calculate_rmse] and [calculate_mae] as [evaluate_rating_prediction]
    calls them: on two lists of floats of one length that are not empty.
    Arrays of integers, of different lengths or without elements are not
    in this domain. *)

(** [actual - predicted], elementwise on arrays of one length. *)
Definition errors (actual predicted : list Q) : list Q :=
  map (fun ap => (fst ap - snd ap)%Q) (combine actual predicted).

Definition calculate_rmse (actual predicted : list Q) : Q :=
  let mse := mean (map (fun e => (e * e)%Q) (errors actual predicted)) in
  sqrt mse.

Definition calculate_mae (actual predicted : list Q) : Q :=
  mean (map Qabs (errors actual predicted)).

(** [len([item for item in top_k if item in relevant_items])] *)
Definition relevant_in (top_k : list Z) (relevant_items : gset Z) : nat :=
  length (List.filter (fun item => bool_decide (item ∈ relevant_items)) top_k).

Definition Qnat (n : nat) : Q := inject_Z (Z.of_nat n).

(** [recommended_items[:k]] is [head k]: a negative [k] drops from the end. *)
Definition precision_at_k (recommended_items : list Z)
    (relevant_items : gset Z) (k : Z) : Q :=
  if k =? 0 then 0%Q
  else
    let top_k := head k recommended_items in
    (Qnat (relevant_in top_k relevant_items) / inject_Z k)%Q.

Definition recall_at_k (recommended_items : list Z)
    (relevant_items : gset Z) (k : Z) : Q :=
  if (size relevant_items =? 0)%nat then 0%Q
  else
    let top_k := head k recommended_items in
    (Qnat (relevant_in top_k relevant_items) / Qnat (size relevant_items))%Q.

Definition f1_score_at_k (recommended_items : list Z)
    (relevant_items : gset Z) (k : Z) : Q :=
  let precision := precision_at_k recommended_items relevant_items k in
  let recall := recall_at_k recommended_items relevant_items k in
  if Qeq_bool (precision + recall) 0 then 0%Q
  else (2 * (precision * recall) / (precision + recall))%Q.

(** [Series.unique()]: distinct values in order of first appearance. *)
Definition unique (l : list Z) : list Z :=
  fold_left (fun acc x => if existsb (Z.eqb x) acc then acc else acc ++ [x])
            l [].

(** The lists of one [results[k]]: precision, recall, f1. *)
Record MetricLists : Type := mkLists {
  precisions : list Q;
  recalls : list Q;
  f1s : list Q
}.

Definition Results : Type := list (Z * MetricLists).

Fixpoint results_get (k : Z) (d : Results) : option MetricLists :=
  match d with
  | [] => None
  | (k', v) :: t => if k' =? k then Some v else results_get k t
  end.

(** [{k: {'precision': [], 'recall': [], 'f1': []} for k in k_values}] *)
Definition results_init (k_values : list Z) : Results :=
  map (fun k => (k, mkLists [] [] [])) (unique k_values).

(** The three [append]s on [results[k]]. *)
Fixpoint results_append (k : Z) (p r f : Q) (d : Results) : Results :=
  match d with
  | [] => []
  | (k', v) :: t =>
      if k' =? k
      then (k', mkLists (precisions v ++ [p]) (recalls v ++ [r]) (f1s v ++ [f]))
             :: t
      else (k', v) :: results_append k p r f t
  end.

(** [max(k_values)] *)
Definition max_of (l : list Z) : result Z :=
  match l with
  | [] => Error EmptyMax
  | x :: t => Ok (fold_left Z.max t x)
  end.

(** A recommender as the harness sees it: the [product_id] column of the
    frame it returns, or the exception it raises. *)
Definition Recommender : Type := DataFrame -> Z -> Z -> result (list Z).

(** The body of [for user_id in test_users] with its [try] and
    [except Exception: continue]: the state is [results] and
    [evaluated_users].  An exception that is no [Exception] is not caught
    and leaves the function. *)
Definition evaluate_user (train_df test_df : DataFrame)
    (recommend_func : Recommender) (k_values : list Z)
    (relevance_threshold : Q) (st : Results * nat) (user : Z)
  : result (Results * nat) :=
  let user_test := rows_of_user user test_df in
  let relevant_items : gset Z :=
    list_to_set
      (map product_id
           (List.filter (fun r => Qle_bool relevance_threshold (rating r))
                        user_test)) in
  if (size relevant_items =? 0)%nat then Ok st
  else
    match (max_k ← max_of k_values; recommend_func train_df user max_k) with
    | Error e => if is_Exception e then Ok st else Error e
    | Ok recommended_items =>
        if (length recommended_items =? 0)%nat then Ok st
        else
          Ok (fold_left
                (fun d k =>
                   results_append k
                     (precision_at_k recommended_items relevant_items k)
                     (recall_at_k recommended_items relevant_items k)
                     (f1_score_at_k recommended_items relevant_items k) d)
                k_values (fst st),
              S (snd st))
    end.

(** [for x in xs: body], with a body that may let an exception through. *)
Fixpoint for_each {St A : Type} (body : St -> A -> result St) (xs : list A)
    (st : St) : result St :=
  match xs with
  | [] => Ok st
  | x :: rest => st' ← body st x; for_each body rest st'
  end.

Definition evaluation_loop (train_df test_df : DataFrame)
    (recommend_func : Recommender) (k_values : list Z)
    (relevance_threshold : Q) : result (Results * nat) :=
  for_each (evaluate_user train_df test_df recommend_func k_values
                          relevance_threshold)
           (unique (map user_id test_df))
           (results_init k_values, 0%nat).

Record Averages : Type := mkAverages {
  avg_precision : Q;
  avg_recall : Q;
  avg_f1 : Q
}.

(** [summary[k] = ...] *)
Fixpoint summary_set (k : Z) (v : Averages) (d : list (Z * Averages))
  : list (Z * Averages) :=
  match d with
  | [] => [(k, v)]
  | (k', v') :: t =>
      if k' =? k then (k', v) :: t else (k', v') :: summary_set k v t
  end.

Definition summarize (results : Results) (k_values : list Z)
  : list (Z * Averages) :=
  fold_left
    (fun summary k =>
       match results_get k results with
       | Some v =>
           match precisions v with
           | [] => summary
           | _ => summary_set k (mkAverages (mean (precisions v))
                                            (mean (recalls v))
                                            (mean (f1s v))) summary
           end
       | None => summary
       end)
    k_values [].

Definition evaluate_recommendations (train_df test_df : DataFrame)
    (recommend_func : Recommender) (k_values : list Z)
    (relevance_threshold : Q) : result (list (Z * Averages)) :=
  st ← evaluation_loop train_df test_df recommend_func k_values
                       relevance_threshold;
  Ok (summarize (fst st) k_values).

(** A predictor as the harness sees it: the predicted rating, or the
    exception it raises. *)
Definition Predictor : Type := DataFrame -> Z -> Z -> result Q.

(** The dictionary [evaluate_rating_prediction] returns: [{}] or the three
    keys [rmse], [mae], [n_predictions]. *)
Inductive PredictionSummary : Type :=
| NoPredictions
| PredictionMetrics (rmse mae : Q) (n_predictions : nat).

(** The body of [for _, row in test_df.iterrows()] with its [try] and
    bare [except: continue], which catches every exception: the state is
    [actual_ratings], [predicted_ratings]. *)
Definition predict_row (train_df : DataFrame) (predict_func : Predictor)
    (st : list Q * list Q) (row : RatingRecord) : list Q * list Q :=
  match predict_func train_df (user_id row) (product_id row) with
  | Ok predicted => (fst st ++ [rating row], snd st ++ [predicted])
  | Error _ => st
  end.

Definition prediction_loop (train_df test_df : DataFrame)
    (predict_func : Predictor) : list Q * list Q :=
  fold_left (predict_row train_df predict_func) test_df ([], []).

Definition evaluate_rating_prediction (train_df test_df : DataFrame)
    (predict_func : Predictor) : PredictionSummary :=
  let lists := prediction_loop train_df test_df predict_func in
  let actual_ratings := fst lists in
  let predicted_ratings := snd lists in
  if (length actual_ratings =? 0)%nat then NoPredictions
  else PredictionMetrics (calculate_rmse actual_ratings predicted_ratings)
                         (calculate_mae actual_ratings predicted_ratings)
                         (length actual_ratings).

End Model.

(** * Further functions *)

(** Exceptions of the functions below, and what a call comes to. *)
Inductive py_exception : Type :=
| ZeroDivisionError
| OverflowError.

Inductive outcome (A : Type) : Type :=
| Returns (a : A)
| Raises (e : py_exception).
Arguments Returns {A} a.
Arguments Raises {A} e.

(** *** utils.py: calculate_sparsity *)




(** *** recommended_top.py: get_top_n_products *)

(** Points in time are microseconds since [datetime.min]; [now] is what
    [datetime.now()] answers.  [timedelta(days=...)] takes at most
    999999999 days either way, and a [datetime] ends with the year 9999. *)
Definition timedelta_max_days : Z := 999999999.
Definition microseconds_per_day : Z := 86400000000.
Definition datetime_max : Z := 3652059 * microseconds_per_day - 1.

(** [datetime.now() - timedelta(days=days)] *)
Definition cutoff_of (now days : Z) : outcome Z :=
  if (days <? - timedelta_max_days) || (timedelta_max_days <? days)
  then Raises OverflowError
  else
    let cutoff := now - days * microseconds_per_day in
    if (cutoff <? 0) || (datetime_max <? cutoff) then Raises OverflowError
    else Returns cutoff.

Record TopProduct : Type := mkTop {
  top_product_id : Z;
  avg_rating : Q;
  top_rating_count : Z
}.

(** [df[df["timestamp"] >= cutoff]] *)
Definition window_of (cutoff : Z) (df : DataFrame) : DataFrame :=
  List.filter (fun r => cutoff <=? timestamp r) df.

Definition get_top_n_products (now : Z) (df : DataFrame) (days n : Z)
  : outcome (list TopProduct) :=
  match cutoff_of now days with
  | Raises e => Raises e
  | Returns cutoff =>
      let window := window_of cutoff df in
      let grouped :=
        map (fun p =>
               let g := map rating (rows_of_product p window) in
               mkTop p (mean g) (Z.of_nat (length g)))
            (sorted_unique (map product_id window)) in
      let grouped := List.filter (fun x => 5 <=? top_rating_count x) grouped in
      Returns (head n (sort_values_desc avg_rating grouped))
  end.

(** * Vocabulary of the statements *)

(** The rows of the scoring path, from the normalized scores. *)
Definition scored_rows (est : Q -> float) (n : Z) (scores : dict)
  : list Recommendation :=
  map (fun kv => mkRec (fst kv) (snd kv) (clip (1 # 2) 5 (est (snd kv))))
      (head n (sort_values_desc snd scores)).

Definition by_score (a b : Recommendation) : Prop := (score b <= score a)%Q.


(** The ranking that [get_popular_items] cuts to its first [n] rows. *)
Definition popular_ranking (df : DataFrame) (min_ratings : Z)
  : list Recommendation :=
  map (fun x => mkRec (fst (fst x)) (snd (fst x)) (Some (snd (fst x))))
      (sort_values_desc (fun x => snd (fst x))
         (List.filter (fun x => min_ratings <=? snd x)
            (map (fun p =>
                    let g := map rating (rows_of_product p df) in
                    (p, mean g, Z.of_nat (length g)))
                 (sorted_unique (map product_id df))))).

Section ScoringVocabulary.

Variables (cols : list Z) (user_ratings : Z -> Q) (min_similarity : Q)
          (sim_df : Z -> Z -> Q).

(** What the loops maintain: both dictionaries have the same keys, without
    repetition, and every key is a column whose cell is zero. *)
Definition acc_inv (st : dict * dict) : Prop :=
  keys (fst st) = keys (snd st)
  /\ NoDup (keys (fst st))
  /\ Forall (fun k => In k cols /\ (user_ratings k == 0)%Q) (keys (fst st)).

(** The pairs (other, product) in the order the two loops visit them. *)
Definition visits (rated_items : list Z) : list (Z * Z) :=
  flat_map (fun product =>
              map (fun other => (other, product))
                  (List.filter (fun other => negb (other =? product)) cols))
           rated_items.

Definition visit_step (st : dict * dict) (e : Z * Z) : dict * dict :=
  accumulate_other user_ratings min_similarity sim_df (snd e) st (fst e).

Definition passes (e : Z * Z) : bool :=
  Qeq_bool (user_ratings (fst e)) 0
  && Qle_bool min_similarity (sim_df (fst e) (snd e)).

(** What one visit does to the entry of [o] in either dictionary. *)
Definition bump (o : Z) (val : Z * Z -> Q) (a : option Q) (e : Z * Z)
  : option Q :=
  if (fst e =? o) && passes e
  then Some (match a with Some v => v + val e | None => 0 + val e end)%Q
  else a.

Definition score_term (e : Z * Z) : Q :=
  (sim_df (fst e) (snd e) * user_ratings (snd e))%Q.

Definition weight_term (e : Z * Z) : Q := Qabs (sim_df (fst e) (snd e)).

Definition hits (o : Z) (E : list (Z * Z)) : list (Z * Z) :=
  List.filter (fun e => (fst e =? o) && passes e) E.

(** The specification's side: for a candidate [other], the rated items
    that contribute to it, and the two sums over them. *)
Definition contributors (rated_items : list Z) (other : Z) : list Z :=
  List.filter (fun item => negb (other =? item)
                           && Qle_bool min_similarity (sim_df other item))
              rated_items.

Definition is_candidate (rated_items : list Z) (other : Z) : bool :=
  existsb (Z.eqb other) cols
  && Qeq_bool (user_ratings other) 0
  && match contributors rated_items other with [] => false | _ => true end.

Definition spec_score (rated_items : list Z) (other : Z) : Q :=
  Qsum (map (fun item => (sim_df other item * user_ratings item)%Q)
            (contributors rated_items other)).

Definition spec_weight (rated_items : list Z) (other : Z) : Q :=
  Qsum (map (fun item => Qabs (sim_df other item))
            (contributors rated_items other)).

End ScoringVocabulary.

(** The scoring in the terms of the rating table: whether the user has
    a record for a product, the products the user rated (ascending), and
    the user's rating of an item, which is the rating of the one record
    the table has for the pair (the mean, should it have several). *)
Definition has_rated (df : DataFrame) (user product : Z) : bool :=
  existsb (fun r => (user_id r =? user) && (product_id r =? product)) df.

Definition rated_by (df : DataFrame) (user : Z) : list Z :=
  List.filter (has_rated df user) (sorted_unique (map product_id df)).

Definition rating_of (df : DataFrame) (user item : Z) : Q :=
  mean (map rating
            (List.filter (fun r => (user_id r =? user) && (product_id r =? item))
                         df)).

(** A candidate: a product of the table that the user has not rated and
    that some rated item, other than itself, is similar enough to. *)
Definition candidate_for (df : DataFrame) (user : Z) (min_similarity : Q)
    (sim_df : Z -> Z -> Q) (other : Z) : bool :=
  existsb (Z.eqb other) (map product_id df)
  && negb (has_rated df user other)
  && match contributors min_similarity sim_df (rated_by df user) other with
     | [] => false
     | _ => true
     end.

(** The last clause of C2, as the specification states it: no returned
    row has accumulated weight zero. *)
Definition zero_weight_excluded (sqrt : Q -> Q) (df : DataFrame) (user n : Z)
    (ms : Q) (un : bool) (method : string) (mci : Z) : Prop :=
  forall matrix sim_df ur rows,
    user_item_matrix sqrt df un method = Ok matrix ->
    cosine_similarity sqrt matrix = Ok sim_df ->
    loc matrix user = Ok ur ->
    recommend_for_user sqrt df user n ms un method mci = Ok rows ->
    forall row w,
      In row rows ->
      dict_get (rec_product_id row)
               (snd (accumulate (columns matrix) ur ms sim_df
                                (rated_items_of matrix ur))) = Some w ->
      ~ (w == 0)%Q.

(** The tie-break of C7, as the specification states it: of two rows
    with equal scores the one with the smaller product comes first. *)
Definition ties_by_product_id (rows : list Recommendation) : Prop :=
  StronglySorted
    (fun a b => (score a == score b)%Q -> rec_product_id a < rec_product_id b)
    rows.

(** The shuffle of a seed permutes the positions. *)
Definition shuffles (permutation : Z -> nat -> list nat) (seed : Z) : Prop :=
  forall n, Permutation (permutation seed n) (seq 0 n).

(** A user whose rows the split keeps. *)
Definition retained (df : DataFrame) (minr : Z) (users : list Z) (u : Z) : bool :=
  existsb (Z.eqb u) users && (minr <=? Z.of_nat (length (rows_of_user u df))).

(** The relevant items of a test user: the products of the user's test
    rows rated at the threshold or above. *)
Definition relevant_items_of (test_df : DataFrame) (relevance_threshold : Q)
    (user : Z) : gset Z :=
  list_to_set
    (map product_id
         (List.filter (fun r => Qle_bool relevance_threshold (rating r))
                      (rows_of_user user test_df))).

(** What the recommender answers for a user, asked for [max(k_values)]
    recommendations. *)
Definition recommendations_for (train_df : DataFrame)
    (recommend_func : Recommender) (k_values : list Z) (user : Z)
  : result (list Z) :=
  max_k ← max_of k_values; recommend_func train_df user max_k.

(** The users that count, in the order of the test table, each with its
    relevant items and its recommendations: the users with a relevant item
    for whom the recommender returned a list that is not empty.  A user
    for whom it raised is not among them. *)
Definition successful_evaluations (train_df test_df : DataFrame)
    (recommend_func : Recommender) (k_values : list Z)
    (relevance_threshold : Q) : list (gset Z * list Z) :=
  flat_map (fun user =>
              let relevant :=
                relevant_items_of test_df relevance_threshold user in
              if (size relevant =? 0)%nat then []
              else
                match recommendations_for train_df recommend_func k_values
                                          user with
                | Ok recommended =>
                    if (length recommended =? 0)%nat then []
                    else [(relevant, recommended)]
                | Error _ => []
                end)
           (unique (map user_id test_df)).

(** The values of one metric at [k]: one for every user that counts, and
    again for every further occurrence of [k] in [k_values]. *)
Definition metric_values (metric : list Z -> gset Z -> Z -> Q)
    (k_values : list Z) (k : Z) (evaluations : list (gset Z * list Z))
  : list Q :=
  flat_map (fun e => repeat (metric (snd e) (fst e) k)
                            (count_occ Z.eq_dec k_values k))
           evaluations.

(** The summary over the users that count: nothing without such a user,
    and otherwise the three averages for every [k] of [k_values]. *)
Definition summary_of (k_values : list Z)
    (evaluations : list (gset Z * list Z)) : list (Z * Averages) :=
  match evaluations with
  | [] => []
  | _ =>
      map (fun k =>
             (k, mkAverages
                   (mean (metric_values precision_at_k k_values k evaluations))
                   (mean (metric_values recall_at_k k_values k evaluations))
                   (mean (metric_values f1_score_at_k k_values k evaluations))))
          (unique k_values)
  end.

(** [results[k]] with further values at the end of its three lists. *)
Definition extended (ps rs fs : list Q) (v : MetricLists) : MetricLists :=
  mkLists (precisions v ++ ps) (recalls v ++ rs) (f1s v ++ fs).

(** What the loop body does for a user that counts. *)
Definition record (k_values : list Z) (st : Results * nat)
    (e : gset Z * list Z) : Results * nat :=
  (fold_left (fun d k =>
                results_append k (precision_at_k (snd e) (fst e) k)
                               (recall_at_k (snd e) (fst e) k)
                               (f1_score_at_k (snd e) (fst e) k) d)
             k_values (fst st),
   S (snd st)).

(** The successful predictions, in the order of the test rows. *)
Definition successful_predictions (train_df test_df : DataFrame)
    (predict_func : Predictor) : list (Q * Q) :=
  flat_map (fun row =>
              match predict_func train_df (user_id row) (product_id row) with
              | Ok predicted => [(rating row, predicted)]
              | Error _ => []
              end) test_df.

(** [Qsqrt] is the true square root on every column of the raw or
    normalized matrix of a table. *)
Definition norms_exact (df : DataFrame) (use_normalized : bool)
    (normalization_method : string) : bool :=
  match user_item_matrix Qsqrt df use_normalized normalization_method with
  | Ok m =>
      forallb (fun p =>
                 let sq := Qsum (map (fun u => (at_ m u p * at_ m u p)%Q)
                                     (index m)) in
                 Qeq_bool (Qsqrt sq * Qsqrt sq) sq)
              (columns m)
  | Error _ => false
  end.


(** A number of the unit interval. *)
Definition in_unit (q : Q) : Prop := (0 <= q)%Q /\ (q <= 1)%Q.

(** What the evaluation loop maintains for every [results[k]]: the three
    lists have one length and hold numbers of the unit interval. *)
Definition results_inv (d : Results) : Prop :=
  Forall (fun kv =>
            length (recalls (snd kv)) = length (precisions (snd kv))
            /\ length (f1s (snd kv)) = length (precisions (snd kv))
            /\ Forall in_unit (precisions (snd kv))
            /\ Forall in_unit (recalls (snd kv))
            /\ Forall in_unit (f1s (snd kv))) d.


(** * Fixtures *)

(** The table of [tests/test_user.py]. *)
Definition test_table : DataFrame :=
  [ mkRating 1 101 5 0; mkRating 1 102 4 0;
    mkRating 2 101 5 0; mkRating 2 103 3 0;
    mkRating 3 102 (9 # 2) 0; mkRating 3 103 4 0;
    mkRating 4 101 5 0; mkRating 4 104 2 0 ].

(** User 1 rates product 102 exactly at the user's mean (3.0), so its
    mean-centered rating is 0.  All column norms are rational. *)
Definition mean_rated_table : DataFrame :=
  [ mkRating 1 101 (9 # 2) 0; mkRating 1 102 3 0; mkRating 1 103 (3 # 2) 0;
    mkRating 2 101 5 0; mkRating 2 102 (7 # 2) 0; mkRating 2 103 1 0;
    mkRating 2 104 (5 # 2) 0 ].

(** Five users give product 101 the same rating. *)
Definition constant_table : DataFrame :=
  [ mkRating 1 101 4 0; mkRating 2 101 4 0; mkRating 3 101 4 0;
    mkRating 4 101 4 0; mkRating 5 101 4 0 ].


(** Two users with no product in common: the similarity of 101 and 102
    is exactly 0. *)
Definition unrelated_table : DataFrame :=
  [ mkRating 1 101 3 0; mkRating 2 102 4 0 ].

(** User 1 rates 101 and 102 alike; 104 is similar to 101 only and 103 to
    102 only, with the same similarity 4/5. *)
Definition tied_table : DataFrame :=
  [ mkRating 1 101 3 0; mkRating 1 102 3 0;
    mkRating 2 101 4 0; mkRating 2 104 4 0;
    mkRating 3 102 4 0; mkRating 3 103 4 0 ].

(** A user with a single rating. *)
Definition single_rating_table : DataFrame := [ mkRating 1 101 4 0 ].

(** User 1 has five records, user 2 has two. *)
Definition split_table : DataFrame :=
  [ mkRating 1 101 5 0; mkRating 1 102 4 0; mkRating 2 101 3 0;
    mkRating 1 103 3 0; mkRating 1 104 2 0; mkRating 2 102 1 0;
    mkRating 1 105 1 0 ].

(** A shuffle for the fixtures: the positions in reverse. *)
Definition reversed (seed : Z) (n : nat) : list nat := rev (seq 0 n).

(** The held-out rows of the harness fixtures. *)
Definition held_out_table : DataFrame :=
  [ mkRating 1 101 5 0; mkRating 2 103 (9 # 2) 0; mkRating 2 104 2 0;
    mkRating 3 102 4 0 ].

(** The user-item matrix of a fixture. *)
Definition matrix_of (df : DataFrame) (use_normalized : bool)
    (normalization_method : string) : Table Q :=
  match user_item_matrix Qsqrt df use_normalized normalization_method with
  | Ok m => m
  | Error _ => mkTable [] [] (fun _ _ => 0%Q)
  end.

(** The item-item similarity of a fixture. *)
Definition similarity_of (df : DataFrame) (use_normalized : bool)
    (normalization_method : string) : Z -> Z -> Q :=
  match cosine_similarity Qsqrt (matrix_of df use_normalized
                                           normalization_method) with
  | Ok sim_df => sim_df
  | Error _ => fun _ _ => 0%Q
  end.

(** A recommender and a predictor that raise for user 1. *)
Definition failing_recommender : Recommender :=
  fun _ u _ => if u =? 1 then Error (Raised 0) else Ok [101; 103].

(** A recommender that leaves the interpreter at user 2. *)
Definition exiting_recommender : Recommender :=
  fun _ u _ => if u =? 2 then Error (Exit 1) else Ok [101; 103].

Definition failing_predictor : Predictor :=
  fun _ u _ => if u =? 1 then Error (Raised 0) else Ok 4%Q.

(** Ratings with time stamps, for [get_top_n_products]: [fixture_now] is
    day 739000; products 101 and 102 have five ratings in the last 30
    days, product 103 has four, and one rating of 101 is older. *)
Definition fixture_now : Z := 739000 * microseconds_per_day.

Definition recent_table : DataFrame :=
  let t := 738999 * microseconds_per_day in
  [ mkRating 1 101 5 t; mkRating 2 101 4 t; mkRating 3 101 5 t;
    mkRating 4 101 4 t; mkRating 5 101 5 t; mkRating 6 101 1 0;
    mkRating 1 102 3 t; mkRating 2 102 3 t; mkRating 3 102 3 t;
    mkRating 4 102 3 t; mkRating 5 102 3 t;
    mkRating 1 103 5 t; mkRating 2 103 5 t; mkRating 3 103 5 t;
    mkRating 4 103 5 t; mkRating 5 103 5 0 ].

(** * Facts about the building blocks *)

(** One step of a [←] whose left side is known. *)
Ltac bind_step := cbv beta iota delta [mbind result_bind].

(** ** Rationals *)

Lemma Qle_bool_true (x y : Q) : Qle_bool x y = true <-> (x <= y)%Q.
Proof. apply Qle_bool_iff. Qed.

Lemma Qle_bool_false (x y : Q) : Qle_bool x y = false <-> (y < x)%Q.
Proof.
  split; intros H.
  - apply Qnot_le_lt. intros Hle. apply Qle_bool_iff in Hle. congruence.
  - destruct (Qle_bool x y) eqn:E; [|reflexivity].
    apply Qle_bool_iff in E. exfalso. apply (Qlt_not_le _ _ H E).
Qed.

Lemma Qlt_bool_true (x y : Q) : Qlt_bool x y = true <-> (x < y)%Q.
Proof.
  unfold Qlt_bool. rewrite negb_true_iff. apply Qle_bool_false.
Qed.

Lemma Qlt_bool_false (x y : Q) : Qlt_bool x y = false <-> (y <= x)%Q.
Proof.
  unfold Qlt_bool. rewrite negb_false_iff. apply Qle_bool_true.
Qed.

Lemma Qeq_bool_true (x y : Q) : Qeq_bool x y = true <-> (x == y)%Q.
Proof. apply Qeq_bool_iff. Qed.


Lemma Qlen_pos (l : list Q) : l <> [] -> (0 < Qlen l)%Q.
Proof.
  intros Hne. unfold Qlen. destruct l as [|x t]; [congruence|].
  unfold Qlt. simpl. lia.
Qed.

Lemma Qsum_bounds (lo hi : Q) (l : list Q) :
  Forall (fun x => (lo <= x /\ x <= hi)%Q) l ->
  (lo * Qlen l <= Qsum l /\ Qsum l <= hi * Qlen l)%Q.
Proof.
  induction 1 as [|x t [Hlo Hhi] _ IH].
  - change (Qlen []) with 0%Q. simpl. split; lra.
  - assert (Hlen : (Qlen (x :: t) == Qlen t + 1)%Q).
    { unfold Qlen. simpl length. rewrite Nat2Z.inj_succ.
      unfold Z.succ. rewrite inject_Z_plus. reflexivity. }
    simpl Qsum. rewrite Hlen. destruct IH as [IH1 IH2]. split; lra.
Qed.

Lemma mean_bounds (lo hi : Q) (l : list Q) :
  l <> [] ->
  Forall (fun x => (lo <= x /\ x <= hi)%Q) l ->
  (lo <= mean l /\ mean l <= hi)%Q.
Proof.
  intros Hne Hall.
  pose proof (Qlen_pos l Hne) as Hpos.
  destruct (Qsum_bounds lo hi l Hall) as [H1 H2].
  unfold mean. split.
  - apply Qle_shift_div_l; assumption.
  - apply Qle_shift_div_r; assumption.
Qed.

Lemma mean_pos (l : list Q) :
  l <> [] -> Forall (fun x => (0 < x)%Q) l -> (0 < mean l)%Q.
Proof.
  intros Hne Hall. unfold mean.
  apply Qlt_shift_div_l; [apply Qlen_pos; assumption|].
  rewrite Qmult_0_l.
  destruct l as [|x t]; [congruence|].
  inversion Hall as [|? ? Hx Ht]; subst.
  assert (Hs : forall l', Forall (fun x => (0 < x)%Q) l' -> (0 <= Qsum l')%Q).
  { induction 1 as [|y t' Hy _ IH]; simpl; [lra|lra]. }
  simpl. specialize (Hs t Ht). lra.
Qed.

(** ** Sorted distinct keys *)

Lemma insert_key_In (k x : Z) (l : list Z) :
  In x (insert_key k l) <-> x = k \/ In x l.
Proof.
  induction l as [|y t IH]; simpl.
  - intuition.
  - destruct (k <? y) eqn:E1; simpl.
    + intuition.
    + destruct (k =? y) eqn:E2; simpl.
      * apply Z.eqb_eq in E2. subst. intuition.
      * rewrite IH. intuition.
Qed.

Lemma sorted_unique_In (x : Z) (l : list Z) :
  In x (sorted_unique l) <-> In x l.
Proof.
  induction l as [|y t IH]; simpl; [tauto|].
  rewrite insert_key_In, IH. intuition.
Qed.

Lemma insert_key_sorted (k : Z) (l : list Z) :
  StronglySorted Z.lt l -> StronglySorted Z.lt (insert_key k l).
Proof.
  induction 1 as [|y t Hs IH Hall]; simpl.
  - constructor; constructor.
  - destruct (k <? y) eqn:E1.
    + apply Z.ltb_lt in E1. constructor.
      * constructor; assumption.
      * constructor; [assumption|].
        eapply List.Forall_impl; [|exact Hall]. simpl. intros; lia.
    + destruct (k =? y) eqn:E2.
      * constructor; assumption.
      * apply Z.ltb_ge in E1. apply Z.eqb_neq in E2.
        constructor; [assumption|].
        apply List.Forall_forall. intros x Hx. apply insert_key_In in Hx.
        destruct Hx as [->|Hx]; [lia|].
        rewrite List.Forall_forall in Hall. apply Hall; assumption.
Qed.

Lemma sorted_unique_sorted (l : list Z) : StronglySorted Z.lt (sorted_unique l).
Proof.
  induction l as [|y t IH]; simpl; [constructor|].
  apply insert_key_sorted; assumption.
Qed.

Lemma StronglySorted_lt_NoDup (l : list Z) : StronglySorted Z.lt l -> NoDup l.
Proof.
  induction 1 as [|y t Hs IH Hall]; constructor; [|assumption].
  intros Hin. rewrite List.Forall_forall in Hall. specialize (Hall y Hin). lia.
Qed.

Lemma sorted_unique_NoDup (l : list Z) : NoDup (sorted_unique l).
Proof. apply StronglySorted_lt_NoDup, sorted_unique_sorted. Qed.

(** ** [head] and [sort_values] *)

Lemma firstn_In {A : Type} (n : nat) (l : list A) (x : A) :
  In x (firstn n l) -> In x l.
Proof.
  revert l. induction n as [|n IH]; intros [|y t]; simpl; try tauto.
  intros [->|H]; [left; reflexivity | right; apply IH; exact H].
Qed.

Lemma head_incl {A : Type} (n : Z) (l : list A) (x : A) :
  In x (head n l) -> In x l.
Proof.
  unfold head. destruct (0 <=? n); intros H; eapply firstn_In; exact H.
Qed.

Lemma head_length {A : Type} (n : Z) (l : list A) :
  0 <= n -> Z.of_nat (length (head n l)) <= n.
Proof.
  intros Hn. unfold head. destruct (0 <=? n) eqn:E; [|lia].
  rewrite length_firstn. lia.
Qed.

Lemma head_nonneg {A : Type} (n : Z) (l : list A) :
  0 <= n -> head n l = firstn (Z.to_nat n) l.
Proof. intros Hn. unfold head. destruct (0 <=? n) eqn:E; [reflexivity|lia]. Qed.

Lemma firstn_StronglySorted {A : Type} (R : A -> A -> Prop) (n : nat) (l : list A) :
  StronglySorted R l -> StronglySorted R (firstn n l).
Proof.
  intros Hs. revert n. induction Hs as [|x t Hs IH Hall]; intros [|n]; simpl;
    try constructor.
  - apply IH.
  - apply List.Forall_forall. intros y Hy. apply firstn_In in Hy.
    rewrite List.Forall_forall in Hall. apply Hall; assumption.
Qed.

Lemma head_StronglySorted {A : Type} (R : A -> A -> Prop) (n : Z) (l : list A) :
  StronglySorted R l -> StronglySorted R (head n l).
Proof.
  intros Hs. unfold head. destruct (0 <=? n); apply firstn_StronglySorted; exact Hs.
Qed.

Lemma firstn_NoDup {A : Type} (n : nat) (l : list A) :
  NoDup l -> NoDup (firstn n l).
Proof.
  intros Hs. revert n. induction Hs as [|x t Hx Hs IH]; intros [|n]; simpl;
    try constructor.
  - intros Hin. apply Hx. eapply firstn_In; exact Hin.
  - apply IH.
Qed.

Lemma map_head {A B : Type} (f : A -> B) (n : Z) (l : list A) :
  map f (head n l) = head n (map f l).
Proof.
  unfold head. rewrite length_map. destruct (0 <=? n); symmetry; apply firstn_map.
Qed.

Lemma head_NoDup {A : Type} (n : Z) (l : list A) : NoDup l -> NoDup (head n l).
Proof. intros H. unfold head. destruct (0 <=? n); apply firstn_NoDup; exact H. Qed.

Section SortFacts.
Context {A : Type} (key : A -> Q).

Local Abbreviation desc := (desc key).

Lemma insert_desc_perm (x : A) (l : list A) :
  Permutation (insert_desc key x l) (x :: l).
Proof.
  induction l as [|y t IH]; simpl; [reflexivity|].
  destruct (Qle_bool (key y) (key x)); [reflexivity|].
  rewrite IH. apply perm_swap.
Qed.

Lemma sort_values_desc_perm (l : list A) :
  Permutation (sort_values_desc key l) l.
Proof.
  induction l as [|x t IH]; simpl; [reflexivity|].
  rewrite insert_desc_perm. apply perm_skip, IH.
Qed.

Lemma insert_desc_sorted (x : A) (l : list A) :
  StronglySorted desc l -> StronglySorted desc (insert_desc key x l).
Proof.
  induction 1 as [|y t Hs IH Hall]; simpl.
  - constructor; constructor.
  - destruct (Qle_bool (key y) (key x)) eqn:E.
    + apply Qle_bool_true in E. constructor.
      * constructor; assumption.
      * constructor; [exact E|].
        eapply List.Forall_impl; [|exact Hall]. unfold desc. simpl.
        intros a Ha. eapply Qle_trans; eassumption.
    + apply Qle_bool_false in E. constructor; [assumption|].
      apply List.Forall_forall. intros a Ha.
      apply (Permutation_in _ (insert_desc_perm x t)) in Ha.
      destruct Ha as [<-|Ha].
      * unfold desc. apply Qlt_le_weak; exact E.
      * rewrite List.Forall_forall in Hall. apply Hall; exact Ha.
Qed.

Lemma sort_values_desc_sorted (l : list A) :
  StronglySorted desc (sort_values_desc key l).
Proof.
  induction l as [|x t IH]; simpl; [constructor|].
  apply insert_desc_sorted; exact IH.
Qed.

Lemma sort_values_desc_In (x : A) (l : list A) :
  In x (sort_values_desc key l) <-> In x l.
Proof.
  split; apply Permutation_in;
    [|symmetry]; apply sort_values_desc_perm.
Qed.
(** The sort is stable: rows with the same key keep their order. *)
Lemma insert_desc_stable (s : Q) (x : A) (l : list A) :
  List.filter (fun y => Qeq_bool (key y) s) (insert_desc key x l)
  = List.filter (fun y => Qeq_bool (key y) s) (x :: l).
Proof.
  induction l as [|y t IH]; [reflexivity|]. simpl insert_desc.
  destruct (Qle_bool (key y) (key x)) eqn:E; [reflexivity|].
  apply Qle_bool_false in E.
  simpl. rewrite IH. simpl.
  destruct (Qeq_bool (key x) s) eqn:Ex; [|reflexivity].
  destruct (Qeq_bool (key y) s) eqn:Ey; [|reflexivity].
  apply Qeq_bool_true in Ex, Ey. rewrite Ex, Ey in E.
  exfalso. apply (Qlt_irrefl s). exact E.
Qed.

Lemma sort_values_desc_stable (s : Q) (l : list A) :
  List.filter (fun y => Qeq_bool (key y) s) (sort_values_desc key l)
  = List.filter (fun y => Qeq_bool (key y) s) l.
Proof.
  induction l as [|x t IH]; [reflexivity|].
  simpl sort_values_desc. rewrite insert_desc_stable. simpl. rewrite IH.
  reflexivity.
Qed.

End SortFacts.

(** * recommend_for_user *)

Lemma existsb_eqb_In (u : Z) (l : list Z) :
  existsb (Z.eqb u) l = true <-> In u l.
Proof.
  rewrite existsb_exists. split.
  - intros [x [Hx E]]. apply Z.eqb_eq in E. subst. exact Hx.
  - intros H. exists u. split; [exact H | apply Z.eqb_refl].
Qed.

Lemma has_user_In (u : Z) (df : DataFrame) :
  has_user u df = true <-> In u (map user_id df).
Proof.
  unfold has_user. rewrite existsb_exists, in_map_iff. split.
  - intros [r [Hr E]]. apply Z.eqb_eq in E. exists r. split; assumption.
  - intros [r [E Hr]]. exists r. split; [assumption|]. apply Z.eqb_eq; assumption.
Qed.

Section RecommendFacts.

Variable sqrt : Q -> Q.

Lemma normalize_error (df : DataFrame) (method : string) (e : exn) :
  normalize_ratings_per_user sqrt df method = Error e -> e = UnknownMethod method.
Proof.
  unfold normalize_ratings_per_user.
  destruct (String.eqb method "mean_center"); [discriminate|].
  destruct (String.eqb method "z_score"); [discriminate|].
  destruct (String.eqb method "min_max"); [discriminate|].
  intros [= <-]. reflexivity.
Qed.

Lemma user_item_matrix_error (df : DataFrame) (un : bool) (method : string)
    (e : exn) :
  user_item_matrix sqrt df un method = Error e -> e = UnknownMethod method.
Proof.
  unfold user_item_matrix, rating_cells. destruct un; simpl.
  - destruct (normalize_ratings_per_user sqrt df method) eqn:E; simpl.
    + discriminate.
    + intros [= <-]. eapply normalize_error; exact E.
  - discriminate.
Qed.

Lemma cosine_similarity_error (m : Table Q) (e : exn) :
  cosine_similarity sqrt m = Error e -> e = EmptyArray.
Proof.
  unfold cosine_similarity.
  destruct (index m); [intros [= <-]; reflexivity|].
  destruct (columns m); [intros [= <-]; reflexivity|discriminate].
Qed.

Lemma loc_error (m : Table Q) (u : Z) (e : exn) :
  loc m u = Error e -> e = KeyError u.
Proof.
  unfold loc. destruct (existsb (Z.eqb u) (index m)); [discriminate|].
  intros [= <-]. reflexivity.
Qed.

Lemma estimate_error (df : DataFrame) (u : Z) (un : bool) (method : string)
    (e : exn) :
  estimate sqrt df u un method = Error e -> e = IndexError.
Proof.
  unfold estimate. destruct un; [|discriminate].
  destruct (get_user_statistics sqrt (rows_of_user u df)); simpl.
  - intros [= <-]. reflexivity.
  - destruct (String.eqb method "mean_center"); [discriminate|].
    destruct (String.eqb method "z_score"); discriminate.
Qed.

(** Every way [recommend_for_user] can fail. *)
Lemma recommend_for_user_errors (df : DataFrame) (user n : Z) (ms : Q)
    (un : bool) (method : string) (mci : Z) (e : exn) :
  recommend_for_user sqrt df user n ms un method mci = Error e ->
  (has_user user df = false /\ e = UnknownUser user)
  \/ (has_user user df = true
      /\ (e = UnknownMethod method \/ e = EmptyArray \/ e = KeyError user
          \/ e = IndexError)).
Proof.
  unfold recommend_for_user.
  destruct (has_user user df) eqn:Hu; simpl.
  2:{ intros [= <-]. left. split; reflexivity. }
  intros H. right. split; [reflexivity|].
  destruct (user_item_matrix sqrt df un method) as [matrix|e1] eqn:E1; simpl in H.
  2:{ injection H as <-. left. eapply user_item_matrix_error; exact E1. }
  destruct (cosine_similarity sqrt matrix) as [sim|e2] eqn:E2; simpl in H.
  2:{ injection H as <-. right; left. eapply cosine_similarity_error; exact E2. }
  destruct (loc matrix user) as [ur|e3] eqn:E3; simpl in H.
  2:{ injection H as <-. right; right; left. eapply loc_error; exact E3. }
  destruct (length (rated_items_of matrix ur) =? 0)%nat; [discriminate|].
  destruct (normalize_scores _ _); [discriminate|].
  destruct (estimate sqrt df user un method) as [est|e4] eqn:E4; simpl in H.
  - discriminate.
  - injection H as <-. right; right; right. eapply estimate_error; exact E4.
Qed.

(** C4.  [recommend_for_user] raises the unknown-user error exactly when
    the user has no row in the rating table; for a user of the table the
    call may still fail, but never with that error. *)
Theorem recommend_for_user_unknown_user_iff (df : DataFrame) (user n : Z)
    (ms : Q) (un : bool) (method : string) (mci : Z) :
  (recommend_for_user sqrt df user n ms un method mci = Error (UnknownUser user)
   <-> ~ In user (map user_id df))
  /\ (In user (map user_id df) ->
      forall v, recommend_for_user sqrt df user n ms un method mci
                <> Error (UnknownUser v)).
Proof.
  split; [split|].
  - intros H Hin. apply has_user_In in Hin.
    apply recommend_for_user_errors in H.
    destruct H as [[Hu _]|[_ H]]; [congruence|].
    destruct H as [H|[H|[H|H]]]; discriminate.
  - intros Hnot. unfold recommend_for_user.
    destruct (has_user user df) eqn:Hu; [|reflexivity].
    apply has_user_In in Hu. contradiction.
  - intros Hin v H. apply has_user_In in Hin.
    apply recommend_for_user_errors in H.
    destruct H as [[Hu _]|[_ H]]; [congruence|].
    destruct H as [H|[H|[H|H]]]; discriminate.
Qed.

(** Every way [recommend_for_user] can return. *)
Lemma recommend_for_user_ok (df : DataFrame) (user n : Z) (ms : Q)
    (un : bool) (method : string) (mci : Z) (rows : list Recommendation) :
  recommend_for_user sqrt df user n ms un method mci = Ok rows ->
  has_user user df = true
  /\ exists matrix sim_df ur,
      user_item_matrix sqrt df un method = Ok matrix
      /\ cosine_similarity sqrt matrix = Ok sim_df
      /\ loc matrix user = Ok ur
      /\ ((rated_items_of matrix ur = [] /\ rows = get_popular_items df n 5)
          \/ (rated_items_of matrix ur <> []
              /\ exists acc scores est,
                  acc = accumulate (columns matrix) ur ms sim_df
                                   (rated_items_of matrix ur)
                  /\ scores = normalize_scores (fst acc) (snd acc)
                  /\ (scores <> [] -> estimate sqrt df user un method = Ok est)
                  /\ rows = scored_rows est n scores)).
Proof.
  unfold recommend_for_user.
  destruct (has_user user df) eqn:Hu; simpl; [|discriminate].
  intros H. split; [reflexivity|].
  destruct (user_item_matrix sqrt df un method) as [matrix|e1] eqn:E1;
    simpl in H; [|discriminate].
  destruct (cosine_similarity sqrt matrix) as [sim|e2] eqn:E2;
    simpl in H; [|discriminate].
  destruct (loc matrix user) as [ur|e3] eqn:E3; simpl in H; [|discriminate].
  exists matrix, sim, ur. repeat (split; [assumption || reflexivity|]).
  destruct (rated_items_of matrix ur) as [|p0 rated] eqn:Er; simpl in H.
  - left. split; [reflexivity|]. congruence.
  - right. split; [discriminate|].
    set (acc := accumulate (columns matrix) ur ms sim (p0 :: rated)) in *.
    destruct (normalize_scores (fst acc) (snd acc)) as [|kv scores] eqn:En.
    + exists acc, [], (fun s => Some s).
      repeat (split; [reflexivity || (symmetry; exact En) || congruence|]).
      unfold scored_rows, head. simpl.
      destruct (0 <=? n); rewrite ?firstn_nil; simpl; congruence.
    + destruct (estimate sqrt df user un method) as [est|e4] eqn:E4;
        simpl in H; [|discriminate].
      exists acc, (kv :: scores), est.
      split; [reflexivity|]. split; [symmetry; exact En|].
      split; [reflexivity|]. unfold scored_rows.
      injection H as <-. reflexivity.
Qed.

End RecommendFacts.

(** * Dictionaries *)

Lemma dict_get_None (k : Z) (d : dict) :
  dict_get k d = None <-> ~ In k (keys d).
Proof.
  induction d as [|[k' v] t IH]; simpl; [tauto|].
  destruct (k' =? k) eqn:E.
  - apply Z.eqb_eq in E. split; [discriminate|]. intros H. exfalso. apply H. auto.
  - apply Z.eqb_neq in E. rewrite IH. tauto.
Qed.

Lemma dict_get_Some_In (k : Z) (v : Q) (d : dict) :
  dict_get k d = Some v -> In (k, v) d.
Proof.
  induction d as [|[k' v'] t IH]; simpl; [discriminate|].
  destruct (k' =? k) eqn:E.
  - apply Z.eqb_eq in E. intros [= <-]. left. congruence.
  - intros H. right. apply IH; exact H.
Qed.

Lemma dict_get_In_NoDup (k : Z) (v : Q) (d : dict) :
  NoDup (keys d) -> In (k, v) d -> dict_get k d = Some v.
Proof.
  induction d as [|[k' v'] t IH]; simpl; [tauto|].
  intros Hnd [H|H].
  - injection H as -> ->. rewrite Z.eqb_refl. reflexivity.
  - inversion Hnd as [|? ? Hk Ht]; subst.
    destruct (k' =? k) eqn:E.
    + apply Z.eqb_eq in E. subst. exfalso. apply Hk.
      change k with (fst (k, v)). apply in_map. exact H.
    + apply IH; assumption.
Qed.

Lemma keys_dict_add (k : Z) (x : Q) (d : dict) : keys (dict_add k x d) = keys d.
Proof.
  induction d as [|[k' v] t IH]; simpl; [reflexivity|].
  destruct (k' =? k); simpl; [reflexivity|]. f_equal. exact IH.
Qed.

Lemma keys_setdefault (k : Z) (v : Q) (d : dict) :
  keys (setdefault k v d)
  = if existsb (Z.eqb k) (keys d) then keys d else keys d ++ [k].
Proof.
  unfold setdefault. destruct (dict_get k d) eqn:E.
  - destruct (existsb (Z.eqb k) (keys d)) eqn:E'; [reflexivity|].
    exfalso. assert (H : ~ In k (keys d)).
    { intros Hin. rewrite <- not_true_iff_false in E'. apply E'.
      apply existsb_exists. exists k. split; [exact Hin | apply Z.eqb_refl]. }
    apply dict_get_None in H. congruence.
  - apply dict_get_None in E.
    destruct (existsb (Z.eqb k) (keys d)) eqn:E'.
    + apply existsb_exists in E'. destruct E' as [x [Hx Hkx]].
      apply Z.eqb_eq in Hkx. subst. contradiction.
    + unfold keys. rewrite map_app. reflexivity.
Qed.

Lemma keys_setdefault_In (k k' : Z) (v : Q) (d : dict) :
  In k' (keys (setdefault k v d)) <-> k' = k \/ In k' (keys d).
Proof.
  rewrite keys_setdefault.
  destruct (existsb (Z.eqb k) (keys d)) eqn:E.
  - apply existsb_exists in E. destruct E as [x [Hx Hkx]].
    apply Z.eqb_eq in Hkx. subst x. split; [auto|]. intros [->|H]; assumption.
  - rewrite in_app_iff. simpl. intuition.
Qed.

Lemma keys_setdefault_NoDup (k : Z) (v : Q) (d : dict) :
  NoDup (keys d) -> NoDup (keys (setdefault k v d)).
Proof.
  intros Hnd. rewrite keys_setdefault.
  destruct (existsb (Z.eqb k) (keys d)) eqn:E; [exact Hnd|].
  apply NoDup_app_remove_l with (l := []). simpl.
  apply Permutation_NoDup with (l := k :: keys d).
  - apply Permutation_cons_append.
  - constructor; [|exact Hnd]. intros Hin.
    rewrite <- not_true_iff_false in E. apply E.
    apply existsb_exists. exists k. split; [exact Hin | apply Z.eqb_refl].
Qed.

Lemma keys_normalize_scores (scores weights : dict) :
  keys (normalize_scores scores weights) = keys scores.
Proof.
  unfold normalize_scores, keys. rewrite map_map. apply map_ext.
  intros [k v]. simpl. destruct (dict_get k weights) as [w|]; [|reflexivity].
  destruct (Qlt_bool 0 w); reflexivity.
Qed.

(** * The accumulation loops *)

Section AccumulateFacts.

Variables (cols : list Z) (user_ratings : Z -> Q) (min_similarity : Q)
          (sim_df : Z -> Z -> Q).

Local Abbreviation acc_inv := (acc_inv cols user_ratings).

Lemma accumulate_other_inv (product other : Z) (st : dict * dict) :
  In other cols -> acc_inv st ->
  acc_inv (accumulate_other user_ratings min_similarity sim_df product st other).
Proof.
  intros Hin (Hk & Hnd & Hall). unfold accumulate_other.
  destruct (Qeq_bool (user_ratings other) 0) eqn:E0; simpl;
    [|repeat split; assumption].
  destruct (Qle_bool min_similarity (sim_df other product)); simpl;
    [|repeat split; assumption].
  apply Qeq_bool_true in E0.
  unfold acc_inv; simpl. rewrite !keys_dict_add. repeat split.
  - rewrite !keys_setdefault, Hk. reflexivity.
  - apply keys_setdefault_NoDup; exact Hnd.
  - apply List.Forall_forall. intros k Hkin. apply keys_setdefault_In in Hkin.
    destruct Hkin as [->|Hkin]; [split; assumption|].
    rewrite List.Forall_forall in Hall. apply Hall; exact Hkin.
Qed.

Lemma fold_accumulate_other_inv (product : Z) (others : list Z)
    (st : dict * dict) :
  incl others cols -> acc_inv st ->
  acc_inv (fold_left (accumulate_other user_ratings min_similarity sim_df product)
                     others st).
Proof.
  revert st. induction others as [|o t IH]; intros st Hincl Hinv; simpl;
    [exact Hinv|].
  apply IH.
  - intros x Hx. apply Hincl. right; exact Hx.
  - apply accumulate_other_inv; [apply Hincl; left; reflexivity | exact Hinv].
Qed.

Lemma accumulate_product_inv (product : Z) (st : dict * dict) :
  acc_inv st ->
  acc_inv (accumulate_product cols user_ratings min_similarity sim_df st product).
Proof.
  intros Hinv. unfold accumulate_product.
  apply fold_accumulate_other_inv; [|exact Hinv].
  intros x Hx. apply filter_In in Hx. tauto.
Qed.

Lemma accumulate_inv (rated_items : list Z) :
  acc_inv (accumulate cols user_ratings min_similarity sim_df rated_items).
Proof.
  unfold accumulate.
  assert (H0 : acc_inv ([], [])).
  { repeat split; simpl; constructor. }
  revert H0. generalize (@nil (Z * Q), @nil (Z * Q)).
  induction rated_items as [|p t IH]; intros st Hinv; simpl; [exact Hinv|].
  apply IH. apply accumulate_product_inv; exact Hinv.
Qed.

End AccumulateFacts.

(** * The user-item matrix *)

Lemma loc_ok (m : Table Q) (u : Z) (ur : Z -> Q) :
  loc m u = Ok ur -> ur = at_ m u /\ In u (index m).
Proof.
  unfold loc. destruct (existsb (Z.eqb u) (index m)) eqn:E; [|discriminate].
  intros [= <-]. split; [reflexivity|].
  apply existsb_exists in E. destruct E as [x [Hx Hux]].
  apply Z.eqb_eq in Hux. subst. exact Hx.
Qed.

Lemma at_fillna_pivot (cells : Cells) (u p : Z) :
  at_ (fillna 0 (pivot_table cells)) u p
  = match group_values cells u p with [] => 0%Q | vs => mean vs end.
Proof.
  unfold fillna, pivot_table. simpl.
  destruct (group_values cells u p); reflexivity.
Qed.

Lemma group_values_In (cells : Cells) (u p : Z) (v : Q) :
  In v (group_values cells u p) <-> In (u, p, Some v) cells.
Proof.
  unfold group_values. rewrite in_flat_map. split.
  - intros [[[u' p'] [x|]] [Hc Hv]]; unfold cell_user, cell_product, cell_value in Hv;
      simpl in Hv.
    + destruct (u' =? u) eqn:Eu; destruct (p' =? p) eqn:Ep; simpl in Hv;
        try contradiction.
      apply Z.eqb_eq in Eu, Ep. destruct Hv as [->|[]]. subst. exact Hc.
    + destruct ((u' =? u) && (p' =? p)); contradiction.
  - intros Hc. exists (u, p, Some v). split; [exact Hc|].
    unfold cell_user, cell_product, cell_value. simpl.
    rewrite !Z.eqb_refl. simpl. left; reflexivity.
Qed.

Lemma pivot_columns_In (cells : Cells) (p : Z) :
  In p (columns (fillna 0 (pivot_table cells)))
  <-> exists u v, In (u, p, Some v) cells.
Proof.
  simpl. rewrite sorted_unique_In, in_map_iff. split.
  - intros [[[u p'] [v|]] [Hp Hc]]; apply filter_In in Hc; destruct Hc as [Hc Hn];
      unfold not_nan, cell_value in Hn; simpl in Hn; [|discriminate].
    unfold cell_product in Hp; simpl in Hp. subst. exists u, v. exact Hc.
  - intros (u & v & Hc). exists (u, p, Some v). split; [reflexivity|].
    apply filter_In. split; [exact Hc | reflexivity].
Qed.

Lemma pivot_columns_NoDup (cells : Cells) :
  NoDup (columns (fillna 0 (pivot_table cells))).
Proof. simpl. apply sorted_unique_NoDup. Qed.

Lemma rows_of_user_In (u : Z) (df : DataFrame) (r : RatingRecord) :
  In r (rows_of_user u df) <-> In r df /\ user_id r = u.
Proof.
  unfold rows_of_user. rewrite filter_In, Z.eqb_eq. reflexivity.
Qed.


Lemma filter_idem {A : Type} (f : A -> bool) (l : list A) :
  List.filter f (List.filter f l) = List.filter f l.
Proof.
  induction l as [|x t IH]; simpl; [reflexivity|].
  destruct (f x) eqn:E; simpl; [rewrite E, IH|]; auto.
Qed.

Lemma rows_of_user_idem (u : Z) (df : DataFrame) :
  rows_of_user u (rows_of_user u df) = rows_of_user u df.
Proof. apply filter_idem. Qed.

Section MatrixFacts.

Variable sqrt : Q -> Q.

Lemma user_item_matrix_ok (df : DataFrame) (un : bool) (method : string)
    (matrix : Table Q) :
  user_item_matrix sqrt df un method = Ok matrix ->
  exists cells, rating_cells sqrt df un method = Ok cells
                /\ matrix = fillna 0 (pivot_table cells).
Proof.
  unfold user_item_matrix.
  destruct (rating_cells sqrt df un method) as [cells|e]; simpl; [|discriminate].
  intros [= <-]. exists cells. split; reflexivity.
Qed.

(** Every cell that is not NaN comes from a row of the table. *)
Lemma rating_cells_In (df : DataFrame) (un : bool) (method : string)
    (cells : Cells) (u p : Z) (v : Q) :
  rating_cells sqrt df un method = Ok cells ->
  In (u, p, Some v) cells ->
  exists r, In r df /\ user_id r = u /\ product_id r = p.
Proof.
  unfold rating_cells. destruct un.
  - destruct (normalize_ratings_per_user sqrt df method) as [ndf|e] eqn:E;
      simpl; [|discriminate].
    intros [= <-] Hin. apply in_map_iff in Hin.
    destruct Hin as [[r x] [Heq Hin]]. simpl in Heq.
    injection Heq as Hu Hp Hx. exists r. split; [|split; assumption].
    revert E Hin. unfold normalize_ratings_per_user.
    destruct (String.eqb method "mean_center");
      [|destruct (String.eqb method "z_score");
        [|destruct (String.eqb method "min_max"); [|discriminate]]];
      intros [= <-] Hin; apply in_map_iff in Hin;
      destruct Hin as [r' [Heq Hin]]; injection Heq as -> _; exact Hin.
  - intros [= <-] Hin. apply in_map_iff in Hin.
    destruct Hin as [r [Heq Hin]]. injection Heq as Hu Hp _.
    exists r. split; [exact Hin | split; assumption].
Qed.

(** On the raw [rating] column a cell is the mean of its ratings. *)
Lemma raw_cells_In (df : DataFrame) (r : RatingRecord) :
  In r df ->
  In (user_id r, product_id r, Some (rating r))
     (map (fun r => (user_id r, product_id r, Some (rating r))) df).
Proof. intros H. apply in_map_iff. exists r. split; [reflexivity | exact H]. Qed.

Lemma raw_cell_positive (df : DataFrame) (method : string) (r : RatingRecord)
    (matrix : Table Q) :
  (forall r', In r' df -> (0 < rating r')%Q) ->
  user_item_matrix sqrt df false method = Ok matrix ->
  In r df ->
  In (product_id r) (columns matrix)
  /\ (0 < at_ matrix (user_id r) (product_id r))%Q.
Proof.
  intros Hpos Hm Hr. unfold user_item_matrix in Hm. simpl in Hm.
  injection Hm as <-. split.
  - apply pivot_columns_In. exists (user_id r), (rating r).
    apply raw_cells_In; exact Hr.
  - rewrite at_fillna_pivot.
    set (cells := map _ df).
    assert (Hin : In (rating r) (group_values cells (user_id r) (product_id r))).
    { apply group_values_In. apply raw_cells_In; exact Hr. }
    destruct (group_values cells (user_id r) (product_id r)) as [|x t] eqn:E;
      [contradiction|].
    rewrite <- E. apply mean_pos; [rewrite E; discriminate|].
    apply List.Forall_forall. intros v Hv. apply group_values_In in Hv.
    unfold cells in Hv. apply in_map_iff in Hv.
    destruct Hv as [r' [Heq Hr']]. injection Heq as _ _ <-.
    apply Hpos; exact Hr'.
Qed.

End MatrixFacts.

(** * Properties of the recommendations *)

Section RecommendProperties.

Variable sqrt : Q -> Q.

Lemma scored_rows_products (est : Q -> float) (n : Z) (scores : dict) :
  map rec_product_id (scored_rows est n scores)
  = keys (head n (sort_values_desc snd scores)).
Proof. unfold scored_rows, keys. rewrite map_map. reflexivity. Qed.

Lemma scored_rows_keys (est : Q -> float) (n : Z) (scores : dict) (p : Z) :
  In p (map rec_product_id (scored_rows est n scores)) -> In p (keys scores).
Proof.
  rewrite scored_rows_products. unfold keys. intros H.
  apply in_map_iff in H. destruct H as [kv [<- Hkv]].
  apply head_incl in Hkv. apply sort_values_desc_In in Hkv.
  apply in_map. exact Hkv.
Qed.

(** X23.  On the raw ratings, when every rating of the table is
    positive, no recommended product was rated by the user. *)
Lemma recommend_raw_excludes_rated (df : DataFrame) (user n : Z) (ms : Q)
    (method : string) (mci : Z) (rows : list Recommendation) :
  (forall r, In r df -> (0 < rating r)%Q) ->
  recommend_for_user sqrt df user n ms false method mci = Ok rows ->
  forall r, In r df -> user_id r = user ->
            ~ In (product_id r) (map rec_product_id rows).
Proof.
  intros Hpos Hrec r Hr Hu Hin.
  apply recommend_for_user_ok in Hrec.
  destruct Hrec as (_ & matrix & sim_df & ur & Hm & _ & Hloc & Hcase).
  apply loc_ok in Hloc. destruct Hloc as [-> _].
  destruct (raw_cell_positive sqrt df method r matrix Hpos Hm Hr) as [Hcol Hcell].
  rewrite Hu in Hcell.
  destruct Hcase as [[Hnil _]|[_ (acc & scores & est & -> & -> & _ & ->)]].
  - assert (Hri : In (product_id r) (rated_items_of matrix (at_ matrix user))).
    { apply filter_In. split; [exact Hcol|]. apply Qlt_bool_true; exact Hcell. }
    rewrite Hnil in Hri. exact Hri.
  - apply scored_rows_keys in Hin. rewrite keys_normalize_scores in Hin.
    pose proof (accumulate_inv (columns matrix) (at_ matrix user) ms sim_df
                  (rated_items_of matrix (at_ matrix user))) as (_ & _ & Hall).
    rewrite List.Forall_forall in Hall. destruct (Hall _ Hin) as [_ Hz].
    rewrite Hz in Hcell. apply (Qlt_irrefl 0). exact Hcell.
Qed.

(** ** Order and uniqueness of the rows *)

Lemma StronglySorted_map {A B : Type} (R : B -> B -> Prop) (g : A -> B)
    (l : list A) :
  StronglySorted (fun a b => R (g a) (g b)) l -> StronglySorted R (map g l).
Proof.
  induction 1 as [|x t Hs IH Hall]; simpl; constructor; [exact IH|].
  apply Forall_map. exact Hall.
Qed.

Lemma NoDup_map_filter {A B : Type} (g : A -> B) (f : A -> bool) (l : list A) :
  NoDup (map g l) -> NoDup (map g (List.filter f l)).
Proof.
  induction l as [|x t IH]; simpl; [auto|].
  intros Hnd. inversion Hnd as [|? ? Hx Ht]; subst.
  destruct (f x); simpl; [|apply IH; exact Ht].
  constructor; [|apply IH; exact Ht].
  intros Hin. apply Hx. apply in_map_iff in Hin.
  destruct Hin as [y [Hy Hin]]. apply filter_In in Hin.
  rewrite <- Hy. apply in_map. tauto.
Qed.

Lemma NoDup_map_ranked {A B : Type} (g : A -> B) (key : A -> Q) (n : Z)
    (l : list A) :
  NoDup (map g l) -> NoDup (map g (head n (sort_values_desc key l))).
Proof.
  intros Hnd. rewrite map_head. apply head_NoDup.
  eapply Permutation_NoDup; [|exact Hnd].
  apply Permutation_map. symmetry. apply sort_values_desc_perm.
Qed.

Lemma get_popular_items_ranking (df : DataFrame) (n min_ratings : Z) :
  get_popular_items df n min_ratings = head n (popular_ranking df min_ratings).
Proof. unfold get_popular_items, popular_ranking. apply map_head. Qed.

Lemma popular_ranking_sorted (df : DataFrame) (min_ratings : Z) :
  StronglySorted by_score (popular_ranking df min_ratings).
Proof.
  unfold popular_ranking. apply StronglySorted_map. simpl.
  apply (sort_values_desc_sorted (fun x : Z * Q * Z => snd (fst x))).
Qed.

Lemma popular_ranking_NoDup (df : DataFrame) (min_ratings : Z) :
  NoDup (map rec_product_id (popular_ranking df min_ratings)).
Proof.
  unfold popular_ranking. rewrite map_map. simpl.
  eapply Permutation_NoDup.
  { apply Permutation_map. symmetry. apply sort_values_desc_perm. }
  apply NoDup_map_filter. rewrite map_map. simpl. rewrite map_id.
  apply sorted_unique_NoDup.
Qed.

Lemma popular_ranking_In (df : DataFrame) (min_ratings : Z)
    (row : Recommendation) :
  In row (popular_ranking df min_ratings) <->
  In (rec_product_id row) (map product_id df)
  /\ min_ratings <= Z.of_nat (length (rows_of_product (rec_product_id row) df))
  /\ score row = mean (map rating (rows_of_product (rec_product_id row) df))
  /\ estimated_rating row = Some (score row).
Proof.
  unfold popular_ranking. rewrite in_map_iff. split.
  - intros [[[p m] c] [<- Hin]]. simpl.
    apply sort_values_desc_In in Hin. apply filter_In in Hin.
    destruct Hin as [Hin Hc]. simpl in Hc. apply Z.leb_le in Hc.
    apply in_map_iff in Hin. destruct Hin as [p' [Heq Hp']].
    injection Heq as -> <- <-. rewrite sorted_unique_In in Hp'.
    rewrite length_map in Hc. repeat split; assumption.
  - destruct row as [p s e]. simpl. intros (Hp & Hc & -> & ->).
    exists (p, mean (map rating (rows_of_product p df)),
            Z.of_nat (length (map rating (rows_of_product p df)))).
    split; [reflexivity|].
    apply sort_values_desc_In. apply filter_In. split.
    + apply in_map_iff. exists p. split; [reflexivity|].
      apply sorted_unique_In; exact Hp.
    + simpl. rewrite length_map. apply Z.leb_le; exact Hc.
Qed.

Lemma scored_rows_sorted (est : Q -> float) (n : Z) (scores : dict) :
  StronglySorted by_score (scored_rows est n scores).
Proof.
  unfold scored_rows. apply StronglySorted_map. simpl.
  apply head_StronglySorted.
  apply (sort_values_desc_sorted (@snd Z Q)).
Qed.

(** C7, as the code has it.  For [0 <= n], the rows that
    [recommend_for_user] returns are at most [n], no product occurs twice,
    and the scores never increase along the rows.  (Equal scores are left
    in the order the sort finds them; the product is no tie-break.) *)
Theorem recommend_for_user_rows_ordered (df : DataFrame) (user n : Z) (ms : Q)
    (un : bool) (method : string) (mci : Z) (rows : list Recommendation) :
  0 <= n ->
  recommend_for_user sqrt df user n ms un method mci = Ok rows ->
  Z.of_nat (length rows) <= n
  /\ NoDup (map rec_product_id rows)
  /\ StronglySorted by_score rows.
Proof.
  intros Hn Hrec. apply recommend_for_user_ok in Hrec.
  destruct Hrec as (_ & matrix & sim_df & ur & _ & _ & _ & Hcase).
  destruct Hcase as [[_ ->]|[_ (acc & scores & est & -> & -> & _ & ->)]].
  - rewrite get_popular_items_ranking. split; [|split].
    + apply head_length; exact Hn.
    + rewrite map_head. apply head_NoDup, popular_ranking_NoDup.
    + apply head_StronglySorted, popular_ranking_sorted.
  - split; [|split].
    + unfold scored_rows. rewrite length_map. apply head_length; exact Hn.
    + rewrite scored_rows_products. apply NoDup_map_ranked.
      fold (keys (normalize_scores
                    (fst (accumulate (columns matrix) ur ms sim_df
                                     (rated_items_of matrix ur)))
                    (snd (accumulate (columns matrix) ur ms sim_df
                                     (rated_items_of matrix ur))))).
      rewrite keys_normalize_scores.
      apply (accumulate_inv (columns matrix) ur ms sim_df).
    + apply scored_rows_sorted.
Qed.

(** ** Cold start *)

Lemma cosine_similarity_total (cells : Cells) (u : Z) :
  In u (index (fillna 0 (pivot_table cells))) ->
  exists sim_df, cosine_similarity sqrt (fillna 0 (pivot_table cells)) = Ok sim_df.
Proof.
  intros Hu. unfold cosine_similarity.
  destruct (index (fillna 0 (pivot_table cells))) as [|i ti] eqn:Ei;
    [contradiction|].
  destruct (columns (fillna 0 (pivot_table cells))) as [|c tc] eqn:Ec;
    [|eexists; reflexivity].
  exfalso. rewrite <- Ei in Hu. simpl in Hu.
  rewrite sorted_unique_In in Hu. apply in_map_iff in Hu.
  destruct Hu as [x [_ Hx]].
  assert (Hc : In (cell_product x) (columns (fillna 0 (pivot_table cells)))).
  { simpl. apply sorted_unique_In. apply in_map. exact Hx. }
  rewrite Ec in Hc. exact Hc.
Qed.

(** C9.  When every entry of the target user's matrix row is zero, the
    call returns what [get_popular_items] computes: the first [n] rows of
    the ranking of the products with at least five ratings, each once,
    scored by its mean rating, highest mean first. *)
Theorem cold_start_returns_popular_items (df : DataFrame) (user n : Z) (ms : Q)
    (un : bool) (method : string) (mci : Z) (matrix : Table Q) (ur : Z -> Q) :
  In user (map user_id df) ->
  user_item_matrix sqrt df un method = Ok matrix ->
  loc matrix user = Ok ur ->
  (forall p, In p (columns matrix) -> (ur p == 0)%Q) ->
  recommend_for_user sqrt df user n ms un method mci
  = Ok (get_popular_items df n 5)
  /\ get_popular_items df n 5 = head n (popular_ranking df 5)
  /\ StronglySorted by_score (popular_ranking df 5)
  /\ NoDup (map rec_product_id (popular_ranking df 5))
  /\ (forall row,
        In row (popular_ranking df 5) <->
        In (rec_product_id row) (map product_id df)
        /\ 5 <= Z.of_nat (length (rows_of_product (rec_product_id row) df))
        /\ score row = mean (map rating (rows_of_product (rec_product_id row) df))
        /\ estimated_rating row = Some (score row)).
Proof.
  intros Hu Hm Hloc Hzero.
  split; [|split; [|split; [|split]]].
  - unfold recommend_for_user.
    apply has_user_In in Hu. rewrite Hu. simpl negb. cbv iota.
    rewrite Hm. bind_step.
    destruct (user_item_matrix_ok sqrt df un method matrix Hm) as (cells & _ & ->).
    destruct (loc_ok _ _ _ Hloc) as [-> Hidx].
    destruct (cosine_similarity_total cells user Hidx) as [sim_df ->]. bind_step.
    rewrite Hloc. bind_step.
    assert (Hnil : rated_items_of (fillna 0 (pivot_table cells))
                     (at_ (fillna 0 (pivot_table cells)) user) = []).
    { unfold rated_items_of.
      destruct (List.filter _ _) as [|p t] eqn:E; [reflexivity|].
      assert (Hp : In p (p :: t)) by (left; reflexivity).
      rewrite <- E in Hp. apply filter_In in Hp. destruct Hp as [Hp Hlt].
      apply Qlt_bool_true in Hlt. rewrite (Hzero p Hp) in Hlt.
      exfalso. apply (Qlt_irrefl 0). exact Hlt. }
    rewrite Hnil. reflexivity.
  - apply get_popular_items_ranking.
  - apply popular_ranking_sorted.
  - apply popular_ranking_NoDup.
  - intros row. apply popular_ranking_In.
Qed.

(** ** The range of the estimated rating *)


(** A z-score that is not NaN needs a user with at least two ratings. *)
Lemma z_score_cell_std (df : DataFrame) (cells : Cells) (u p : Z) (v : Q) :
  rating_cells sqrt df true "z_score" = Ok cells ->
  In (u, p, Some v) cells ->
  exists s, std sqrt (map rating (rows_of_user u df)) = Some s.
Proof.
  unfold rating_cells, normalize_ratings_per_user. simpl.
  intros [= <-] Hin. rewrite map_map in Hin. simpl in Hin.
  apply in_map_iff in Hin. destruct Hin as [r [Heq Hr]].
  injection Heq as <- _ Hv. unfold user_group in Hv.
  destruct (std sqrt (map rating (rows_of_user (user_id r) df))) as [s|];
    [exists s; reflexivity | discriminate].
Qed.




End RecommendProperties.

(** * What the accumulators hold *)

Lemma dict_get_app (o : Z) (d d' : dict) :
  dict_get o (d ++ d')
  = match dict_get o d with Some x => Some x | None => dict_get o d' end.
Proof.
  induction d as [|[k v] t IH]; simpl; [reflexivity|].
  destruct (k =? o); [reflexivity | exact IH].
Qed.

Lemma dict_get_setdefault (o k : Z) (v : Q) (d : dict) :
  dict_get o (setdefault k v d)
  = match dict_get o d with
    | Some x => Some x
    | None => if k =? o then Some v else None
    end.
Proof.
  unfold setdefault. destruct (dict_get k d) as [x|] eqn:E.
  - destruct (dict_get o d) eqn:Eo; [reflexivity|].
    destruct (k =? o) eqn:Eko; [|reflexivity].
    apply Z.eqb_eq in Eko. subst. congruence.
  - rewrite dict_get_app. simpl. destruct (dict_get o d); reflexivity.
Qed.

Lemma dict_get_dict_add (o k : Z) (x : Q) (d : dict) :
  dict_get o (dict_add k x d)
  = if k =? o then option_map (fun v => (v + x)%Q) (dict_get o d)
    else dict_get o d.
Proof.
  induction d as [|[k' v] t IH]; simpl.
  - destruct (k =? o); reflexivity.
  - destruct (k' =? k) eqn:Ek; simpl.
    + apply Z.eqb_eq in Ek. subst k'.
      destruct (k =? o) eqn:Eo; simpl; reflexivity.
    + destruct (k' =? o) eqn:Eo; simpl.
      * apply Z.eqb_eq in Eo. subst k'.
        rewrite Z.eqb_sym in Ek. rewrite Ek. reflexivity.
      * exact IH.
Qed.

Lemma fold_left_flat_map {A B C : Type} (f : A -> B -> A) (g : C -> list B)
    (l : list C) (a : A) :
  fold_left f (flat_map g l) a = fold_left (fun a x => fold_left f (g x) a) l a.
Proof.
  revert a. induction l as [|x t IH]; intros a; simpl; [reflexivity|].
  rewrite fold_left_app. apply IH.
Qed.

Lemma fold_left_map {A B C : Type} (f : A -> B -> A) (h : C -> B)
    (l : list C) (a : A) :
  fold_left f (map h l) a = fold_left (fun a x => f a (h x)) l a.
Proof.
  revert a. induction l as [|x t IH]; intros a; simpl; [reflexivity|apply IH].
Qed.

Lemma filter_map_comm {A B : Type} (f : B -> bool) (g : A -> B) (l : list A) :
  List.filter f (map g l) = map g (List.filter (fun x => f (g x)) l).
Proof.
  induction l as [|x t IH]; simpl; [reflexivity|].
  destruct (f (g x)); simpl; rewrite IH; reflexivity.
Qed.

Lemma filter_filter {A : Type} (f g : A -> bool) (l : list A) :
  List.filter f (List.filter g l) = List.filter (fun x => g x && f x) l.
Proof.
  induction l as [|x t IH]; simpl; [reflexivity|].
  destruct (g x); simpl; [destruct (f x)|]; rewrite IH; reflexivity.
Qed.

Lemma filter_key_NoDup (o : Z) (c : Z -> bool) (l : list Z) :
  NoDup l ->
  List.filter (fun x => (x =? o) && c x) l
  = if existsb (Z.eqb o) l && c o then [o] else [].
Proof.
  induction 1 as [|x t Hx Hnd IH]; simpl; [reflexivity|].
  rewrite IH. rewrite (Z.eqb_sym o x).
  destruct (x =? o) eqn:E; simpl; [|reflexivity].
  apply Z.eqb_eq in E. subst x.
  assert (Ht : existsb (Z.eqb o) t = false).
  { apply not_true_iff_false. intros Hex. apply existsb_exists in Hex.
    destruct Hex as [y [Hy Hoy]]. apply Z.eqb_eq in Hoy. subst. contradiction. }
  rewrite Ht. simpl. destruct (c o); reflexivity.
Qed.

Section AccumulatorValues.

Variables (cols : list Z) (user_ratings : Z -> Q) (min_similarity : Q)
          (sim_df : Z -> Z -> Q).

Local Abbreviation visits := (visits cols).
Local Abbreviation visit_step := (visit_step user_ratings min_similarity sim_df).
Local Abbreviation passes := (passes user_ratings min_similarity sim_df).
Local Abbreviation bump := (bump user_ratings min_similarity sim_df).
Local Abbreviation score_term := (score_term user_ratings sim_df).
Local Abbreviation weight_term := (weight_term sim_df).
Local Abbreviation hits := (hits user_ratings min_similarity sim_df).
Local Abbreviation contributors := (contributors min_similarity sim_df).
Local Abbreviation is_candidate :=
  (is_candidate cols user_ratings min_similarity sim_df).
Local Abbreviation spec_score := (spec_score user_ratings min_similarity sim_df).
Local Abbreviation spec_weight := (spec_weight min_similarity sim_df).

Lemma accumulate_visits (rated_items : list Z) :
  accumulate cols user_ratings min_similarity sim_df rated_items
  = fold_left visit_step (visits rated_items) ([], []).
Proof.
  unfold accumulate, visits. rewrite fold_left_flat_map.
  generalize (@nil (Z * Q), @nil (Z * Q)).
  induction rated_items as [|p t IH]; intros st; simpl; [reflexivity|].
  rewrite IH. f_equal. unfold accumulate_product.
  rewrite fold_left_map. reflexivity.
Qed.

Lemma visit_step_get (o : Z) (st : dict * dict) (e : Z * Z) :
  dict_get o (fst (visit_step st e)) = bump o score_term (dict_get o (fst st)) e
  /\ dict_get o (snd (visit_step st e))
     = bump o weight_term (dict_get o (snd st)) e.
Proof.
  unfold visit_step, accumulate_other, bump, passes, score_term, weight_term.
  destruct e as [other product]. simpl.
  destruct (Qeq_bool (user_ratings other) 0
            && Qle_bool min_similarity (sim_df other product)); simpl.
  - rewrite !dict_get_dict_add, !dict_get_setdefault.
    destruct (other =? o); simpl.
    + destruct (dict_get o (fst st)), (dict_get o (snd st)); split; reflexivity.
    + destruct (dict_get o (fst st)), (dict_get o (snd st)); split; reflexivity.
  - rewrite andb_false_r. split; reflexivity.
Qed.

Lemma fold_visit_get (o : Z) (E : list (Z * Z)) (st : dict * dict) :
  dict_get o (fst (fold_left visit_step E st))
  = fold_left (bump o score_term) E (dict_get o (fst st))
  /\ dict_get o (snd (fold_left visit_step E st))
     = fold_left (bump o weight_term) E (dict_get o (snd st)).
Proof.
  revert st. induction E as [|e t IH]; intros st; simpl; [split; reflexivity|].
  destruct (IH (visit_step st e)) as [-> ->].
  destruct (visit_step_get o st e) as [-> ->]. split; reflexivity.
Qed.

Lemma fold_bump_sum (o : Z) (val : Z * Z -> Q) (E : list (Z * Z))
    (a : option Q) :
  oQeq (fold_left (bump o val) E a)
       (match hits o E with
        | [] => a
        | h => Some (match a with Some v => v | None => 0 end
                     + Qsum (map val h))%Q
        end).
Proof.
  revert a. induction E as [|e t IH]; intros a; simpl.
  - destruct a; simpl; [reflexivity | exact I].
  - unfold bump at 2. destruct ((fst e =? o) && passes e) eqn:Eh.
    + specialize (IH (Some (match a with Some v => v + val e | None => 0 + val e end)%Q)).
      destruct (fold_left (bump o val) t _) as [x|]; simpl in *.
      * destruct (hits o t) as [|h0 ht]; simpl in *.
        -- rewrite IH. destruct a; ring.
        -- rewrite IH. destruct a; ring.
      * destruct (hits o t); exact IH.
    + apply IH.
Qed.

Lemma hits_visits (o : Z) (rated_items : list Z) :
  NoDup cols ->
  hits o (visits rated_items)
  = if existsb (Z.eqb o) cols && Qeq_bool (user_ratings o) 0
    then map (fun item => (o, item)) (contributors rated_items o)
    else [].
Proof.
  intros Hnd. induction rated_items as [|p t IH].
  - simpl. destruct (_ && _); reflexivity.
  - unfold visits. simpl flat_map. fold (visits t).
    unfold hits. rewrite filter_app. fold (hits o (visits t)). rewrite IH.
    rewrite filter_map_comm, filter_filter. simpl fst.
    rewrite (filter_ext _
               (fun x => (x =? o) && (negb (x =? p) && passes (x, p)))).
    2:{ intros x. destruct (x =? o), (negb (x =? p)); reflexivity. }
    rewrite (filter_key_NoDup o (fun x => negb (x =? p) && passes (x, p)) cols Hnd).
    unfold passes, contributors. simpl.
    destruct (existsb (Z.eqb o) cols); simpl; [|reflexivity].
    destruct (Qeq_bool (user_ratings o) 0); simpl;
      [|rewrite andb_false_r; reflexivity].
    destruct (negb (o =? p)); simpl; [|reflexivity].
    destruct (Qle_bool min_similarity (sim_df o p)); reflexivity.
Qed.

Lemma oQeq_None (a : option Q) : oQeq a None -> a = None.
Proof. destruct a; simpl; [contradiction | reflexivity]. Qed.

(** The accumulators hold exactly the sums of the specification. *)
Lemma accumulators_spec (rated_items : list Z) (o : Z) :
  NoDup cols ->
  let acc := accumulate cols user_ratings min_similarity sim_df rated_items in
  if is_candidate rated_items o
  then oQeq (dict_get o (fst acc)) (Some (spec_score rated_items o))
       /\ oQeq (dict_get o (snd acc)) (Some (spec_weight rated_items o))
  else dict_get o (fst acc) = None /\ dict_get o (snd acc) = None.
Proof.
  intros Hnd acc. unfold acc. rewrite accumulate_visits.
  destruct (fold_visit_get o (visits rated_items) ([], [])) as [-> ->].
  simpl dict_get.
  pose proof (fold_bump_sum o score_term (visits rated_items) None) as Hs.
  pose proof (fold_bump_sum o weight_term (visits rated_items) None) as Hw.
  rewrite (hits_visits o rated_items Hnd) in Hs, Hw.
  set (fs := fold_left (bump o score_term) (visits rated_items) None) in *.
  set (fw := fold_left (bump o weight_term) (visits rated_items) None) in *.
  clearbody fs fw.
  unfold is_candidate, spec_score, spec_weight.
  destruct (existsb (Z.eqb o) cols && Qeq_bool (user_ratings o) 0); simpl.
  - destruct (contributors rated_items o) as [|c ct] eqn:Ec.
    + simpl in Hs, Hw. split; apply oQeq_None; assumption.
    + cbv zeta in Hs, Hw. rewrite <- Ec in Hs, Hw.
      assert (Hne : map (fun item => (o, item)) (contributors rated_items o) <> []).
      { rewrite Ec. discriminate. }
      destruct (map (fun item => (o, item)) (contributors rated_items o))
        as [|h ht] eqn:Eh; [congruence|]. rewrite <- Eh in Hs, Hw.
      rewrite map_map in Hs, Hw. unfold score_term, weight_term in Hs, Hw.
      simpl in Hs, Hw. rewrite <- Ec.
      destruct fs as [x|]; destruct fw as [y|]; simpl in *; try contradiction.
      split; [rewrite Hs | rewrite Hw]; ring.
  - split; apply oQeq_None; assumption.
Qed.

End AccumulatorValues.

(** * The scores of the result *)

Lemma normalize_scores_In (scores weights : dict) (o : Z) (s : Q) :
  In (o, s) (normalize_scores scores weights) <->
  exists a, In (o, a) scores
            /\ s = match dict_get o weights with
                   | Some w => if Qlt_bool 0 w then (a / w)%Q else a
                   | None => a
                   end.
Proof.
  unfold normalize_scores. rewrite in_map_iff. split.
  - intros [[k a] [Heq Hin]]. simpl in Heq.
    assert (Hk : k = o).
    { destruct (dict_get k weights) as [w|]; [destruct (Qlt_bool 0 w)|];
        injection Heq; auto. }
    subst k. exists a. split; [exact Hin|].
    destruct (dict_get o weights) as [w|]; [destruct (Qlt_bool 0 w)|];
      injection Heq; auto.
  - intros [a [Hin ->]]. exists (o, a). split; [|exact Hin]. simpl.
    destruct (dict_get o weights) as [w|]; [|reflexivity].
    destruct (Qlt_bool 0 w); reflexivity.
Qed.

Lemma group_values_raw (df : DataFrame) (u p : Z) :
  group_values (map (fun r => (user_id r, product_id r, Some (rating r))) df) u p
  = map rating
        (List.filter (fun r => (user_id r =? u) && (product_id r =? p)) df).
Proof.
  unfold group_values. induction df as [|r t IH]; [reflexivity|].
  cbn [map flat_map List.filter].
  unfold cell_user, cell_product, cell_value. cbn [fst snd].
  destruct ((user_id r =? u) && (product_id r =? p)); cbn [map app];
    rewrite <- IH; reflexivity.
Qed.

Lemma filter_single {A : Type} (f : A -> bool) (l : list A) (x : A) :
  In x l -> f x = true ->
  (forall y, In y l -> f y = true -> y = x) ->
  NoDup l ->
  List.filter f l = [x].
Proof.
  induction l as [|a t IH]; [contradiction|].
  intros Hin Hfx Huniq Hnd. inversion Hnd as [|? ? Ha Ht]; subst.
  cbn [List.filter]. destruct Hin as [->|Hin].
  - rewrite Hfx. f_equal.
    destruct (List.filter f t) as [|y ys] eqn:E; [reflexivity|].
    assert (Hy : In y (List.filter f t)) by (rewrite E; left; reflexivity).
    apply filter_In in Hy. destruct Hy as [Hy Hfy].
    assert (y = x) by (apply Huniq; [right; exact Hy | exact Hfy]).
    subst. contradiction.
  - destruct (f a) eqn:Efa.
    + assert (a = x) by (apply Huniq; [left; reflexivity | exact Efa]).
      subst. contradiction.
    + apply IH; [exact Hin | exact Hfx | | exact Ht].
      intros y Hy. apply Huniq. right; exact Hy.
Qed.

Lemma mean_single (x : Q) : (mean [x] == x)%Q.
Proof. unfold mean, Qsum, Qlen. simpl. field. Qed.

Lemma filter_nil_existsb {A : Type} (f : A -> bool) (l : list A) :
  List.filter f l = [] <-> existsb f l = false.
Proof.
  induction l as [|a t IH]; simpl; [tauto|].
  destruct (f a); simpl; [split; discriminate | exact IH].
Qed.

Lemma existsb_sorted_unique (x : Z) (l : list Z) :
  existsb (Z.eqb x) (sorted_unique l) = existsb (Z.eqb x) l.
Proof.
  destruct (existsb (Z.eqb x) l) eqn:E.
  - rewrite existsb_eqb_In in *. apply sorted_unique_In. exact E.
  - destruct (existsb (Z.eqb x) (sorted_unique l)) eqn:E'; [|reflexivity].
    rewrite existsb_eqb_In, sorted_unique_In, <- existsb_eqb_In in E'.
    congruence.
Qed.

(** *** The raw matrix in the terms of the table *)

Section RawCells.

Variable sqrt : Q -> Q.

Lemma raw_matrix_columns (df : DataFrame) (method : string) (matrix : Table Q) :
  user_item_matrix sqrt df false method = Ok matrix ->
  columns matrix = sorted_unique (map product_id df).
Proof.
  unfold user_item_matrix. simpl. intros [= <-]. simpl. f_equal.
  rewrite forallb_filter_id.
  - rewrite map_map. reflexivity.
  - apply forallb_forall. intros c Hc. apply in_map_iff in Hc.
    destruct Hc as [r [<- _]]. reflexivity.
Qed.

(** The cell of a pair is the user's rating of the product, or 0. *)
Lemma raw_matrix_cell (df : DataFrame) (method : string) (matrix : Table Q)
    (u p : Z) :
  user_item_matrix sqrt df false method = Ok matrix ->
  at_ matrix u p = if has_rated df u p then rating_of df u p else 0%Q.
Proof.
  unfold user_item_matrix. simpl. intros [= <-].
  rewrite at_fillna_pivot, group_values_raw. unfold has_rated, rating_of.
  destruct (existsb (fun r => (user_id r =? u) && (product_id r =? p)) df)
    eqn:E.
  - destruct (List.filter _ df) as [|r t] eqn:Ef; [|reflexivity].
    apply filter_nil_existsb in Ef. congruence.
  - apply filter_nil_existsb in E. rewrite E. reflexivity.
Qed.

Lemma rating_of_positive (df : DataFrame) (u p : Z) :
  (forall r, In r df -> (0 < rating r)%Q) ->
  has_rated df u p = true -> (0 < rating_of df u p)%Q.
Proof.
  intros Hpos Hr. unfold rating_of. apply mean_pos.
  - intros Hnil. apply map_eq_nil in Hnil. apply filter_nil_existsb in Hnil.
    unfold has_rated in Hr. congruence.
  - apply Forall_map. apply List.Forall_forall. intros r Hin.
    apply filter_In in Hin. apply Hpos. tauto.
Qed.

(** The code's [rated_items] are the products that the user rated. *)
Lemma raw_rated_items (df : DataFrame) (method : string) (matrix : Table Q)
    (u : Z) :
  (forall r, In r df -> (0 < rating r)%Q) ->
  user_item_matrix sqrt df false method = Ok matrix ->
  rated_items_of matrix (at_ matrix u) = rated_by df u.
Proof.
  intros Hpos Hm. unfold rated_items_of, rated_by.
  rewrite (raw_matrix_columns df method matrix Hm).
  apply filter_ext. intros p. rewrite (raw_matrix_cell df method matrix u p Hm).
  destruct (has_rated df u p) eqn:E.
  - apply Qlt_bool_true. apply rating_of_positive; assumption.
  - reflexivity.
Qed.

Lemma raw_unrated_cell (df : DataFrame) (method : string) (matrix : Table Q)
    (u p : Z) :
  (forall r, In r df -> (0 < rating r)%Q) ->
  user_item_matrix sqrt df false method = Ok matrix ->
  Qeq_bool (at_ matrix u p) 0 = negb (has_rated df u p).
Proof.
  intros Hpos Hm. rewrite (raw_matrix_cell df method matrix u p Hm).
  destruct (has_rated df u p) eqn:E; [|reflexivity]. simpl.
  pose proof (rating_of_positive df u p Hpos E) as H.
  destruct (Qeq_bool (rating_of df u p) 0) eqn:E0; [|reflexivity].
  apply Qeq_bool_true in E0. rewrite E0 in H. exfalso.
  apply (Qlt_irrefl 0). exact H.
Qed.

Lemma raw_candidates (df : DataFrame) (method : string) (matrix : Table Q)
    (u : Z) (ms : Q) (sim_df : Z -> Z -> Q) (other : Z) :
  (forall r, In r df -> (0 < rating r)%Q) ->
  user_item_matrix sqrt df false method = Ok matrix ->
  is_candidate (columns matrix) (at_ matrix u) ms sim_df
               (rated_items_of matrix (at_ matrix u)) other
  = candidate_for df u ms sim_df other.
Proof.
  intros Hpos Hm. unfold is_candidate, candidate_for.
  rewrite (raw_rated_items df method matrix u Hpos Hm).
  rewrite (raw_unrated_cell df method matrix u other Hpos Hm).
  rewrite (raw_matrix_columns df method matrix Hm), existsb_sorted_unique.
  reflexivity.
Qed.

Lemma rating_of_record (df : DataFrame) (r : RatingRecord) :
  NoDup (map (fun r => (user_id r, product_id r)) df) ->
  In r df ->
  (rating_of df (user_id r) (product_id r) == rating r)%Q.
Proof.
  intros Hnd Hr. unfold rating_of.
  rewrite (filter_single _ df r Hr).
  - cbn [map]. apply mean_single.
  - rewrite !Z.eqb_refl. reflexivity.
  - intros y Hy Hf. apply andb_true_iff in Hf. destruct Hf as [Hu Hp].
    apply Z.eqb_eq in Hu, Hp.
    assert (Hpair : (user_id y, product_id y) = (user_id r, product_id r))
      by (rewrite Hu, Hp; reflexivity).
    clear Hu Hp. induction df as [|a t IH]; [contradiction|].
    cbn [map] in Hnd. inversion Hnd as [|? ? Ha Ht]; subst.
    destruct Hy as [->|Hy]; destruct Hr as [->|Hr]; try reflexivity.
    + exfalso. apply Ha. rewrite Hpair.
      apply (in_map (fun r => (user_id r, product_id r))). exact Hr.
    + exfalso. apply Ha. rewrite <- Hpair.
      apply (in_map (fun r => (user_id r, product_id r))). exact Hy.
    + apply IH; assumption.
  - apply (NoDup_map_inv (fun r => (user_id r, product_id r))). exact Hnd.
Qed.

End RawCells.

Section ScoringTheorem.

Variable sqrt : Q -> Q.

Lemma estimate_total (df : DataFrame) (user : Z) (un : bool) (method : string) :
  In user (map user_id df) ->
  exists est, estimate sqrt df user un method = Ok est.
Proof.
  intros Hu. unfold estimate. destruct un; [|eauto].
  unfold get_user_statistics.
  destruct (sorted_unique (map user_id (rows_of_user user df))) as [|u t] eqn:E.
  - exfalso. apply in_map_iff in Hu. destruct Hu as [r [Hr Hin]].
    assert (H : In user (sorted_unique (map user_id (rows_of_user user df)))).
    { apply sorted_unique_In. apply in_map_iff. exists r. split; [exact Hr|].
      apply rows_of_user_In. split; assumption. }
    rewrite E in H. exact H.
  - simpl. bind_step.
    destruct (String.eqb method "mean_center"); [eauto|].
    destruct (String.eqb method "z_score"); eauto.
Qed.

(** The scoring path in the terms of the matrix: the two accumulators
    hold the two sums over the items with a positive cell, for every
    column with a zero cell that one of them is similar enough to; the
    result has one row for every such column, with score = accumulated
    score / accumulated weight when the weight is positive, and the
    accumulated score itself when the weight is zero. *)
Lemma matrix_scores (df : DataFrame) (user n : Z) (ms : Q)
    (un : bool) (method : string) (mci : Z) (matrix : Table Q)
    (sim_df : Z -> Z -> Q) (ur : Z -> Q) :
  In user (map user_id df) ->
  user_item_matrix sqrt df un method = Ok matrix ->
  cosine_similarity sqrt matrix = Ok sim_df ->
  loc matrix user = Ok ur ->
  rated_items_of matrix ur <> [] ->
  let rated := rated_items_of matrix ur in
  let acc := accumulate (columns matrix) ur ms sim_df rated in
  let candidate := is_candidate (columns matrix) ur ms sim_df rated in
  let S := spec_score ur ms sim_df rated in
  let W := spec_weight ms sim_df rated in
  (forall other,
      if candidate other
      then oQeq (dict_get other (fst acc)) (Some (S other))
           /\ oQeq (dict_get other (snd acc)) (Some (W other))
      else dict_get other (fst acc) = None /\ dict_get other (snd acc) = None)
  /\ exists ranking,
      recommend_for_user sqrt df user n ms un method mci = Ok (head n ranking)
      /\ (forall other,
            In other (map rec_product_id ranking) <-> candidate other = true)
      /\ (forall row, In row ranking ->
            let other := rec_product_id row in
            ((0 < W other)%Q -> (score row == S other / W other)%Q)
            /\ (~ (0 < W other)%Q -> (score row == S other)%Q)).
Proof.
  intros Hu Hm Hsim Hloc Hrated rated acc candidate S W.
  assert (Hnd : NoDup (columns matrix)).
  { destruct (user_item_matrix_ok sqrt df un method matrix Hm) as (cells & _ & ->).
    apply pivot_columns_NoDup. }
  assert (Hspec : forall other,
      if candidate other
      then oQeq (dict_get other (fst acc)) (Some (S other))
           /\ oQeq (dict_get other (snd acc)) (Some (W other))
      else dict_get other (fst acc) = None /\ dict_get other (snd acc) = None).
  { intros other. apply (accumulators_spec (columns matrix) ur ms sim_df rated other Hnd). }
  split; [exact Hspec|].
  destruct (estimate_total df user un method Hu) as [est Hest].
  set (scores := normalize_scores (fst acc) (snd acc)).
  exists (map (fun kv => mkRec (fst kv) (snd kv) (clip (1 # 2) 5 (est (snd kv))))
              (sort_values_desc snd scores)).
  pose proof (accumulate_inv (columns matrix) ur ms sim_df rated)
    as (Hkeys & Hnodup & _). fold acc in Hkeys, Hnodup.
  split; [|split].
  - unfold recommend_for_user.
    apply has_user_In in Hu. rewrite Hu. simpl negb. cbv iota.
    rewrite Hm. bind_step. rewrite Hsim. bind_step. rewrite Hloc. bind_step.
    fold rated. destruct (length rated =? 0)%nat eqn:El.
    { apply Nat.eqb_eq, length_zero_iff_nil in El. contradiction. }
    fold acc. fold scores.
    destruct scores as [|kv t] eqn:Es.
    + simpl. unfold head. simpl. destruct (0 <=? n); rewrite ?firstn_nil; reflexivity.
    + rewrite Hest. bind_step. rewrite map_head. reflexivity.
  - intros other. rewrite map_map. simpl.
    change (map (fun x : Z * Q => fst x) (sort_values_desc snd scores))
      with (keys (sort_values_desc snd scores)).
    assert (Hk : In other (keys (sort_values_desc snd scores))
                 <-> In other (keys (fst acc))).
    { unfold scores. rewrite <- (keys_normalize_scores (fst acc) (snd acc)).
      unfold keys. split; apply Permutation_in, Permutation_map;
        [|symmetry]; apply sort_values_desc_perm. }
    rewrite Hk. specialize (Hspec other).
    destruct (candidate other).
    + split; [reflexivity|]. intros _.
      destruct (in_dec Z.eq_dec other (keys (fst acc))) as [Hin|Hnin];
        [exact Hin|].
      apply dict_get_None in Hnin. destruct Hspec as [H1 _].
      rewrite Hnin in H1. contradiction.
    + split; [|discriminate]. intros Hin. destruct Hspec as [H1 _].
      apply dict_get_None in H1. contradiction.
  - intros row Hrow other. apply in_map_iff in Hrow.
    destruct Hrow as [[o s] [<- Hin]]. subst other. simpl.
    apply sort_values_desc_In in Hin. unfold scores in Hin.
    apply normalize_scores_In in Hin. destruct Hin as [a [Hin ->]].
    apply (dict_get_In_NoDup o a (fst acc) Hnodup) in Hin.
    specialize (Hspec o). destruct (candidate o).
    2:{ destruct Hspec as [H1 _]. congruence. }
    destruct Hspec as [H1 H2]. rewrite Hin in H1. simpl in H1.
    destruct (dict_get o (snd acc)) as [w|]; [|contradiction]. simpl in H2.
    destruct (Qlt_bool 0 w) eqn:Ew.
    + apply Qlt_bool_true in Ew. split.
      * intros _. rewrite H1, H2. reflexivity.
      * intros Hn. exfalso. apply Hn. rewrite <- H2. exact Ew.
    + apply Qlt_bool_false in Ew. split.
      * intros Hp. exfalso. rewrite <- H2 in Hp.
        apply (Qlt_not_le _ _ Hp Ew).
      * intros _. exact H1.
Qed.

(** C2.  On the raw ratings of a table whose ratings are positive: the
    items that the code takes for rated are the products the user rated,
    each with the user's rating; for every product the user has not rated
    that a rated item, other than itself, is similar enough to, the two
    accumulators hold the sum of similarity x rating and the sum of
    |similarity| over those rated items, and they hold no other key; the
    call returns the first [n] rows of a ranking that contains exactly
    these candidates, with score = accumulated score / accumulated weight
    when the weight is positive, and the accumulated score itself when
    the weight is zero: such a candidate is kept, not dropped. *)
Theorem scores_are_weighted_averages (df : DataFrame) (user n : Z) (ms : Q)
    (method : string) (mci : Z) (matrix : Table Q)
    (sim_df : Z -> Z -> Q) (ur : Z -> Q) :
  In user (map user_id df) ->
  (forall r, In r df -> (0 < rating r)%Q) ->
  user_item_matrix sqrt df false method = Ok matrix ->
  cosine_similarity sqrt matrix = Ok sim_df ->
  loc matrix user = Ok ur ->
  let rated := rated_by df user in
  let acc := accumulate (columns matrix) ur ms sim_df
                        (rated_items_of matrix ur) in
  let candidate := candidate_for df user ms sim_df in
  let S := spec_score (rating_of df user) ms sim_df rated in
  let W := spec_weight ms sim_df rated in
  rated_items_of matrix ur = rated
  /\ (forall item, In item rated -> ur item = rating_of df user item)
  /\ (NoDup (map (fun r => (user_id r, product_id r)) df) ->
      forall r, In r df -> user_id r = user ->
        (rating_of df user (product_id r) == rating r)%Q)
  /\ (forall other,
        if candidate other
        then oQeq (dict_get other (fst acc)) (Some (S other))
             /\ oQeq (dict_get other (snd acc)) (Some (W other))
        else dict_get other (fst acc) = None
             /\ dict_get other (snd acc) = None)
  /\ exists ranking,
      recommend_for_user sqrt df user n ms false method mci
      = Ok (head n ranking)
      /\ (forall other,
            In other (map rec_product_id ranking) <-> candidate other = true)
      /\ (forall row, In row ranking ->
            let other := rec_product_id row in
            ((0 < W other)%Q -> (score row == S other / W other)%Q)
            /\ (~ (0 < W other)%Q -> (score row == S other)%Q)).
Proof.
  intros Hu Hpos Hm Hsim Hloc rated acc candidate S W.
  destruct (loc_ok _ _ _ Hloc) as [Hur _].
  assert (Hrated : rated_items_of matrix ur = rated).
  { rewrite Hur. apply (raw_rated_items sqrt df method matrix user Hpos Hm). }
  assert (Hval : forall item, In item rated -> ur item = rating_of df user item).
  { intros item Hin. rewrite Hur.
    rewrite (raw_matrix_cell sqrt df method matrix user item Hm).
    unfold rated, rated_by in Hin. apply filter_In in Hin.
    destruct Hin as [_ ->]. reflexivity. }
  assert (Hcand : forall other,
             is_candidate (columns matrix) ur ms sim_df
                          (rated_items_of matrix ur) other = candidate other).
  { intros other. rewrite Hur.
    apply (raw_candidates sqrt df method matrix user ms sim_df other Hpos Hm). }
  assert (HS : forall other,
             spec_score ur ms sim_df (rated_items_of matrix ur) other = S other).
  { intros other. rewrite Hrated. unfold S, spec_score. f_equal.
    apply map_ext_in. intros item Hin. apply filter_In in Hin.
    rewrite (Hval item); [reflexivity | tauto]. }
  assert (HW : forall other,
             spec_weight ms sim_df (rated_items_of matrix ur) other = W other).
  { intros other. rewrite Hrated. reflexivity. }
  assert (Hne : rated_items_of matrix ur <> []).
  { apply in_map_iff in Hu. destruct Hu as [r [Hru Hr]].
    destruct (raw_cell_positive sqrt df method r matrix Hpos Hm Hr)
      as [Hcol Hcell].
    intros Hnil.
    assert (Hin : In (product_id r) (rated_items_of matrix ur)).
    { apply filter_In. split; [exact Hcol|]. apply Qlt_bool_true.
      rewrite Hur, <- Hru. exact Hcell. }
    rewrite Hnil in Hin. exact Hin. }
  split; [exact Hrated|]. split; [exact Hval|]. split.
  { intros Hnd r Hr <-. apply rating_of_record; assumption. }
  destruct (matrix_scores df user n ms false method mci matrix sim_df ur
              Hu Hm Hsim Hloc Hne) as [Hacc (ranking & Hrec & Hkeys & Hrows)].
  split.
  - intros other. specialize (Hacc other). cbv zeta in Hacc.
    rewrite Hcand, HS, HW in Hacc. exact Hacc.
  - exists ranking. split; [exact Hrec|]. split.
    + intros other. rewrite (Hkeys other). cbv zeta. rewrite Hcand. reflexivity.
    + intros row Hrow. specialize (Hrows row Hrow). cbv zeta in Hrows |- *.
      rewrite HS, HW in Hrows. exact Hrows.
Qed.

End ScoringTheorem.

(** * Ranking metrics *)

Lemma relevant_in_le (l : list Z) (X : gset Z) :
  (relevant_in l X <= length l)%nat.
Proof. unfold relevant_in. apply filter_length_le. Qed.

Lemma relevant_in_size (l : list Z) (X : gset Z) :
  NoDup l -> relevant_in l X = size (list_to_set l ∩ X : gset Z).
Proof.
  unfold relevant_in. induction 1 as [|x t Hx Hnd IH]; simpl.
  - replace (∅ ∩ X : gset Z) with (∅ : gset Z) by set_solver.
    rewrite size_empty. reflexivity.
  - assert (Hxt : x ∉ (list_to_set t : gset Z)).
    { rewrite elem_of_list_to_set, list_elem_of_In. exact Hx. }
    destruct (bool_decide (x ∈ X)) eqn:E.
    + apply bool_decide_eq_true in E. simpl. rewrite IH.
      assert (Hsz : size ({[x]} ∪ (list_to_set t ∩ X) : gset Z)
                    = S (size (list_to_set t ∩ X : gset Z))).
      { rewrite size_union by set_solver. rewrite size_singleton. reflexivity. }
      rewrite <- Hsz. f_equal. set_solver.
    + apply bool_decide_eq_false in E. rewrite IH. f_equal. set_solver.
Qed.

Lemma Qnat_nonneg (n : nat) : (0 <= Qnat n)%Q.
Proof. unfold Qnat, Qle. simpl. lia. Qed.

Lemma Qnat_le (a b : nat) : (a <= b)%nat -> (Qnat a <= Qnat b)%Q.
Proof. intros H. unfold Qnat. rewrite <- Zle_Qle. lia. Qed.

Lemma Qnat_pos (n : nat) : (0 < n)%nat -> (0 < Qnat n)%Q.
Proof. intros H. unfold Qnat, Qlt. simpl. lia. Qed.

Lemma Qdiv_unit_interval (a b : Q) :
  (0 <= a)%Q -> (a <= b)%Q -> (0 < b)%Q -> (0 <= a / b /\ a / b <= 1)%Q.
Proof.
  intros Ha Hab Hb. split.
  - apply Qle_shift_div_l; [exact Hb|]. rewrite Qmult_0_l. exact Ha.
  - apply Qle_shift_div_r; [exact Hb|]. rewrite Qmult_1_l. exact Hab.
Qed.

Lemma precision_at_k_range (recommended : list Z) (relevant : gset Z) (k : Z) :
  0 <= k ->
  (0 <= precision_at_k recommended relevant k
   /\ precision_at_k recommended relevant k <= 1)%Q.
Proof.
  intros Hk. unfold precision_at_k.
  destruct (k =? 0) eqn:E; [split; unfold Qle; simpl; lia|].
  apply Z.eqb_neq in E. apply Qdiv_unit_interval.
  - apply Qnat_nonneg.
  - unfold Qnat. rewrite <- Zle_Qle.
    pose proof (relevant_in_le (head k recommended) relevant).
    pose proof (head_length k recommended Hk). lia.
  - unfold Qlt. simpl. lia.
Qed.

Lemma recall_at_k_nonneg (recommended : list Z) (relevant : gset Z) (k : Z) :
  (0 <= recall_at_k recommended relevant k)%Q.
Proof.
  unfold recall_at_k. destruct (size relevant =? 0)%nat eqn:E;
    [unfold Qle; simpl; lia|].
  apply Nat.eqb_neq in E.
  apply Qle_shift_div_l; [apply Qnat_pos; lia|].
  rewrite Qmult_0_l. apply Qnat_nonneg.
Qed.

(** C6, as the code has it.  For [0 <= k]: precision lies in [0, 1] and
    is 0 at [k = 0]; recall is 0 for an empty relevant set and never
    negative; and for a list of recommendations without repetition recall
    is at most 1 and equals |top-k ∩ relevant| / |relevant|. *)
Theorem precision_recall_properties (recommended : list Z) (relevant : gset Z)
    (k : Z) :
  0 <= k ->
  (0 <= precision_at_k recommended relevant k
   /\ precision_at_k recommended relevant k <= 1)%Q
  /\ precision_at_k recommended relevant 0 = 0%Q
  /\ recall_at_k recommended ∅ k = 0%Q
  /\ (0 <= recall_at_k recommended relevant k)%Q
  /\ (NoDup recommended ->
      (recall_at_k recommended relevant k <= 1)%Q
      /\ (relevant <> ∅ ->
          recall_at_k recommended relevant k
          = (Qnat (size (list_to_set (head k recommended) ∩ relevant : gset Z))
             / Qnat (size relevant))%Q)).
Proof.
  intros Hk. split; [apply precision_at_k_range; exact Hk|].
  split; [reflexivity|]. split; [reflexivity|].
  split; [apply recall_at_k_nonneg|].
  intros Hnd.
  assert (Hcount : relevant_in (head k recommended) relevant
                   = size (list_to_set (head k recommended) ∩ relevant : gset Z)).
  { apply relevant_in_size, head_NoDup, Hnd. }
  split.
  - unfold recall_at_k. destruct (size relevant =? 0)%nat eqn:E;
      [unfold Qle; simpl; lia|].
    apply Nat.eqb_neq in E. apply Qdiv_unit_interval.
    + apply Qnat_nonneg.
    + apply Qnat_le. rewrite Hcount. apply subseteq_size. set_solver.
    + apply Qnat_pos. lia.
  - intros Hne. unfold recall_at_k.
    destruct (size relevant =? 0)%nat eqn:E.
    + apply Nat.eqb_eq in E. apply size_empty_iff in E.
      exfalso. apply Hne. apply leibniz_equiv. exact E.
    + rewrite Hcount. reflexivity.
Qed.

(** * Train/test split *)

Lemma Permutation_filter_compat {A : Type} (f : A -> bool) (l l' : list A) :
  Permutation l l' -> Permutation (List.filter f l) (List.filter f l').
Proof.
  induction 1 as [|x l l' _ IH|x y l|l l' l'' _ IH1 _ IH2]; simpl.
  - constructor.
  - destruct (f x); [apply perm_skip|]; exact IH.
  - destruct (f x), (f y); try reflexivity. apply perm_swap.
  - etransitivity; eassumption.
Qed.

Lemma take_rows_seq {A : Type} (pre l : list A) :
  take_rows (seq (length pre) (length l)) (pre ++ l) = l.
Proof.
  revert pre. induction l as [|x t IH]; intros pre; simpl; [reflexivity|].
  rewrite nth_error_app2 by lia. rewrite Nat.sub_diag. simpl. f_equal.
  specialize (IH (pre ++ [x])). rewrite length_app in IH. simpl in IH.
  rewrite Nat.add_1_r in IH. rewrite <- app_assoc in IH. exact IH.
Qed.

Lemma take_rows_perm {A : Type} (idx : list nat) (l : list A) :
  Permutation idx (seq 0 (length l)) -> Permutation (take_rows idx l) l.
Proof.
  intros Hp. unfold take_rows.
  rewrite (Permutation_flat_map _ Hp).
  pose proof (take_rows_seq [] l) as H. simpl in H. unfold take_rows in H.
  rewrite H. reflexivity.
Qed.

Lemma take_rows_length {A : Type} (idx : list nat) (l : list A) :
  (length (take_rows idx l) <= length idx)%nat.
Proof.
  induction idx as [|i t IH]; simpl; [lia|].
  rewrite length_app. destruct (nth_error l i); simpl; lia.
Qed.

Lemma round_half_even_floor (q : Q) : Qfloor q <= round_half_even q.
Proof.
  unfold round_half_even.
  destruct (q - inject_Z (Qfloor q) ?= 1 # 2)%Q; [|lia|lia].
  destruct (Z.even (Qfloor q)); lia.
Qed.

Lemma Qpower2_pos (e : Z) : (0 < 2 ^ e)%Q.
Proof. apply Qpower_0_lt. reflexivity. Qed.

Lemma Qpower2_plus (a b : Z) : (2 ^ (a + b) == 2 ^ a * 2 ^ b)%Q.
Proof. apply Qpower_plus. discriminate. Qed.

(** [ilog2 q] is not above the logarithm of [q]. *)
Lemma ilog2_le (q : Q) : (0 < q)%Q -> (2 ^ ilog2 q <= q)%Q.
Proof.
  intros Hq. unfold ilog2.
  set (a := Qnum q). set (b := Zpos (Qden q)).
  destruct (Qle_bool (2 ^ (Z.log2 a - Z.log2 b)) q) eqn:E.
  - apply Qle_bool_iff. exact E.
  - assert (Ha : 0 < a) by (unfold a; unfold Qlt in Hq; simpl in Hq; lia).
    assert (Hb : 0 < b) by (unfold b; lia).
    destruct (Z.log2_spec a Ha) as [Ha1 _].
    destruct (Z.log2_spec b Hb) as [_ Hb2].
    pose proof (Z.log2_nonneg a) as La. pose proof (Z.log2_nonneg b) as Lb.
    assert (Ha' : (2 ^ Z.log2 a <= inject_Z a)%Q).
    { change (2%Q) with (inject_Z 2). rewrite <- Zpower_Qpower by exact La.
      rewrite <- Zle_Qle. exact Ha1. }
    assert (Hb' : (inject_Z b <= 2 ^ (Z.log2 b + 1))%Q).
    { change (2%Q) with (inject_Z 2). rewrite <- Zpower_Qpower by lia.
      rewrite <- Zle_Qle. rewrite <- Z.add_1_r in Hb2. lia. }
    assert (Hq' : (q == inject_Z a / inject_Z b)%Q).
    { unfold a, b. destruct q as [n d]. simpl. apply Qmake_Qdiv. }
    assert (Hbq : (0 < inject_Z b)%Q) by (rewrite <- (Zlt_Qlt 0); exact Hb).
    rewrite Hq'. apply Qle_shift_div_l; [exact Hbq|].
    pose proof (Qpower2_pos (Z.log2 a - Z.log2 b - 1)) as Hp.
    assert (Hsplit : (2 ^ Z.log2 a
                      == 2 ^ (Z.log2 a - Z.log2 b - 1) * 2 ^ (Z.log2 b + 1))%Q).
    { rewrite <- Qpower2_plus.
      replace (Z.log2 a - Z.log2 b - 1 + (Z.log2 b + 1)) with (Z.log2 a) by lia.
      reflexivity. }
    assert (H1 : (2 ^ (Z.log2 a - Z.log2 b - 1) * inject_Z b
                  <= 2 ^ (Z.log2 a - Z.log2 b - 1) * 2 ^ (Z.log2 b + 1))%Q).
    { apply Qmult_le_l; assumption. }
    rewrite <- Hsplit in H1.
    eapply Qle_trans; [exact H1 | exact Ha'].
Qed.

(** ... and [ilog2 q + 1] is above it. *)
Lemma ilog2_lt (q : Q) : (0 < q)%Q -> (q < 2 ^ (ilog2 q + 1))%Q.
Proof.
  intros Hq. unfold ilog2.
  set (a := Qnum q). set (b := Zpos (Qden q)).
  destruct (Qle_bool (2 ^ (Z.log2 a - Z.log2 b)) q) eqn:E.
  - assert (Ha : 0 < a) by (unfold a; unfold Qlt in Hq; simpl in Hq; lia).
    assert (Hb : 0 < b) by (unfold b; lia).
    destruct (Z.log2_spec a Ha) as [_ Ha2].
    destruct (Z.log2_spec b Hb) as [Hb1 _].
    pose proof (Z.log2_nonneg a) as La. pose proof (Z.log2_nonneg b) as Lb.
    assert (Ha' : (inject_Z a < 2 ^ (Z.log2 a + 1))%Q).
    { change (2%Q) with (inject_Z 2). rewrite <- Zpower_Qpower by lia.
      rewrite <- Zlt_Qlt. rewrite <- Z.add_1_r in Ha2. exact Ha2. }
    assert (Hb' : (2 ^ Z.log2 b <= inject_Z b)%Q).
    { change (2%Q) with (inject_Z 2). rewrite <- Zpower_Qpower by exact Lb.
      rewrite <- Zle_Qle. exact Hb1. }
    assert (Hq' : (q == inject_Z a / inject_Z b)%Q).
    { unfold a, b. destruct q as [n d]. simpl. apply Qmake_Qdiv. }
    assert (Hbq : (0 < inject_Z b)%Q) by (rewrite <- (Zlt_Qlt 0); exact Hb).
    rewrite Hq'. apply Qlt_shift_div_r; [exact Hbq|].
    pose proof (Qpower2_pos (Z.log2 a - Z.log2 b + 1)) as Hp.
    assert (Hsplit : (2 ^ (Z.log2 a + 1)
                      == 2 ^ (Z.log2 a - Z.log2 b + 1) * 2 ^ Z.log2 b)%Q).
    { rewrite <- Qpower2_plus.
      replace (Z.log2 a - Z.log2 b + 1 + Z.log2 b) with (Z.log2 a + 1) by lia.
      reflexivity. }
    assert (H1 : (2 ^ (Z.log2 a - Z.log2 b + 1) * 2 ^ Z.log2 b
                  <= 2 ^ (Z.log2 a - Z.log2 b + 1) * inject_Z b)%Q).
    { apply Qmult_le_l; assumption. }
    rewrite <- Hsplit in H1.
    eapply Qlt_le_trans; [exact Ha' | exact H1].
  - replace (Z.log2 a - Z.log2 b - 1 + 1) with (Z.log2 a - Z.log2 b) by lia.
    apply Qnot_le_lt. intros H. apply Qle_bool_iff in H. congruence.
Qed.

Lemma float_round_pos_pos (q : Q) : (0 < q)%Q -> (0 < float_round_pos q)%Q.
Proof.
  intros Hq. unfold float_round_pos.
  set (e := ilog2 q - 52).
  pose proof (Qpower2_pos e) as He.
  assert (Hle : (2 ^ e <= q)%Q).
  { eapply Qle_trans; [|apply ilog2_le; exact Hq].
    unfold e. replace (ilog2 q - 52) with (ilog2 q + (-52)) by lia.
    rewrite Qpower2_plus.
    pose proof (Qpower2_pos (ilog2 q)) as Hp.
    assert (H52 : (2 ^ (-52) <= 1)%Q) by (vm_compute; discriminate).
    rewrite <- (Qmult_1_r (2 ^ ilog2 q)) at 2.
    apply Qmult_le_l; assumption. }
  assert (H1 : (1 <= q / 2 ^ e)%Q).
  { apply Qle_shift_div_l; [exact He|]. rewrite Qmult_1_l. exact Hle. }
  assert (Hf : 1 <= Qfloor (q / 2 ^ e)).
  { change 1 with (Qfloor 1). apply Qfloor_resp_le. exact H1. }
  pose proof (round_half_even_floor (q / 2 ^ e)) as Hr.
  apply Qmult_lt_0_compat; [|exact He].
  rewrite <- (Zlt_Qlt 0). lia.
Qed.

Lemma float_round_positive (q : Q) : (0 < q)%Q -> (0 < float_round q)%Q.
Proof.
  intros Hq. unfold float_round.
  assert (E : (q ?= 0)%Q = Gt) by (apply Qgt_alt; exact Hq).
  rewrite E. apply float_round_pos_pos. exact Hq.
Qed.

Lemma float_mul_positive (x y : Q) :
  (0 < x)%Q -> (0 < y)%Q -> (0 < float_mul x y)%Q.
Proof.
  intros Hx Hy. apply float_round_positive. apply Qmult_lt_0_compat; assumption.
Qed.

(** The rounding decides the number of test rows: [0.28 * 25] is a
    float above 7, and [0.6666666666666667 * 3] is the float 2. *)
Lemma n_test_of_rounds_as_floats :
  n_test_of (float_round (28 # 100)) 25 = 8%nat
  /\ Z.to_nat (Qceiling ((28 # 100) * 25)) = 7%nat
  /\ n_test_of (float_round (6666666666666667 # 10000000000000000)) 3 = 2%nat
  /\ n_test_of (float_round (1 # 5)) 5 = 1%nat.
Proof. vm_compute. repeat split; reflexivity. Qed.

Lemma Qceiling_pos (q : Q) : (0 < q)%Q -> 0 < Qceiling q.
Proof.
  intros Hq. pose proof (Qle_ceiling q) as Hc.
  assert (H : (0 < inject_Z (Qceiling q))%Q) by (eapply Qlt_le_trans; eassumption).
  rewrite (Zlt_Qlt 0 (Qceiling q)). exact H.
Qed.

Section SplitFacts.

Variable permutation : Z -> nat -> list nat.

Local Abbreviation shuffles := (shuffles permutation).

Lemma train_test_split_ok {A : Type} (data : list A) (test_size : Q)
    (seed : Z) (tr te : list A) :
  shuffles seed ->
  train_test_split permutation data test_size seed = Ok (tr, te) ->
  Permutation (tr ++ te) data /\ tr <> [] /\ te <> [].
Proof.
  intros Hperm. unfold train_test_split.
  destruct (Qle_bool test_size 0 || Qle_bool 1 test_size) eqn:Ets; [discriminate|].
  apply orb_false_iff in Ets. destruct Ets as [Ets0 _].
  apply Qle_bool_false in Ets0.
  set (n := length data).
  set (n_test := n_test_of test_size n).
  destruct (n - n_test =? 0)%nat eqn:Etrain; [discriminate|].
  apply Nat.eqb_neq in Etrain. intros [= <- <-].
  specialize (Hperm n).
  assert (Hlen : length (permutation seed n) = n).
  { rewrite (Permutation_length Hperm). apply length_seq. }
  assert (Hsplit : firstn (n - n_test) (skipn n_test (permutation seed n))
                   = skipn n_test (permutation seed n)).
  { apply firstn_all2. rewrite length_skipn. lia. }
  rewrite Hsplit.
  assert (Hp : Permutation
                 (take_rows (skipn n_test (permutation seed n)) data
                  ++ take_rows (firstn n_test (permutation seed n)) data) data).
  { rewrite Permutation_app_comm. unfold take_rows. rewrite <- flat_map_app.
    rewrite firstn_skipn. apply take_rows_perm. exact Hperm. }
  split; [exact Hp|].
  pose proof (Permutation_length Hp) as Hl. rewrite length_app in Hl. fold n in Hl.
  pose proof (take_rows_length (skipn n_test (permutation seed n)) data) as H1.
  pose proof (take_rows_length (firstn n_test (permutation seed n)) data) as H2.
  rewrite length_skipn in H1. rewrite length_firstn in H2.
  assert (Hpos : (0 < n_test)%nat).
  { unfold n_test, n_test_of.
    assert (0 < Qceiling (float_mul test_size (float_of_int (Z.of_nat n))));
      [|lia].
    apply Qceiling_pos. apply float_mul_positive; [exact Ets0|].
    apply float_round_positive. rewrite <- (Zlt_Qlt 0). lia. }
  split; intros Hnil; rewrite Hnil in Hl; simpl in Hl; lia.
Qed.

Lemma train_test_split_seed {A : Type} (permutation' : Z -> nat -> list nat)
    (data : list A) (test_size : Q) (seed : Z) :
  (forall n, permutation' seed n = permutation seed n) ->
  train_test_split permutation' data test_size seed
  = train_test_split permutation data test_size seed.
Proof. intros H. unfold train_test_split. rewrite H. reflexivity. Qed.

Lemma split_users_seed (permutation' : Z -> nat -> list nat)
    (df : DataFrame) (test_size : Q) (seed minr : Z) (users : list Z) :
  (forall n, permutation' seed n = permutation seed n) ->
  split_users permutation' df test_size seed minr users
  = split_users permutation df test_size seed minr users.
Proof.
  intros H. induction users as [|u t IH]; simpl; [reflexivity|].
  rewrite IH, (train_test_split_seed permutation' _ _ _ H). reflexivity.
Qed.

Lemma rows_of_user_app (u : Z) (l l' : DataFrame) :
  rows_of_user u (l ++ l') = rows_of_user u l ++ rows_of_user u l'.
Proof. apply filter_app. Qed.

Lemma rows_of_user_other (u u' : Z) (df : DataFrame) :
  u <> u' -> rows_of_user u (rows_of_user u' df) = [].
Proof.
  intros Hne. unfold rows_of_user. rewrite filter_filter.
  induction df as [|r t IH]; simpl; [reflexivity|].
  destruct (user_id r =? u') eqn:E1; simpl; [|exact IH].
  destruct (user_id r =? u) eqn:E2; simpl; [|exact IH].
  apply Z.eqb_eq in E1, E2. congruence.
Qed.

(** The rows of [u] that one user's split contributes. *)
Lemma split_part_rows (u u' : Z) (df : DataFrame) (tr te : DataFrame) :
  Permutation (tr ++ te) (rows_of_user u' df) ->
  Permutation (rows_of_user u tr ++ rows_of_user u te)
              (if u =? u' then rows_of_user u' df else []).
Proof.
  intros Hp. rewrite <- rows_of_user_app.
  apply (Permutation_filter_compat (fun r => user_id r =? u)) in Hp.
  fold (rows_of_user u (tr ++ te)) in Hp.
  fold (rows_of_user u (rows_of_user u' df)) in Hp.
  destruct (u =? u') eqn:E.
  - apply Z.eqb_eq in E. subst. rewrite rows_of_user_idem in Hp. exact Hp.
  - apply Z.eqb_neq in E. rewrite (rows_of_user_other u u' df E) in Hp. exact Hp.
Qed.

Lemma split_users_ok (df : DataFrame) (test_size : Q) (seed minr : Z)
    (users : list Z) (trs tes : list DataFrame) :
  shuffles seed -> NoDup users ->
  split_users permutation df test_size seed minr users = Ok (trs, tes) ->
  forall u,
    Permutation (rows_of_user u (concat trs) ++ rows_of_user u (concat tes))
                (if retained df minr users u then rows_of_user u df else [])
    /\ (retained df minr users u = true ->
        rows_of_user u (concat trs) <> [] /\ rows_of_user u (concat tes) <> []).
Proof.
  intros Hperm Hnd. revert trs tes.
  induction users as [|u' t IH]; intros trs tes Hs u; simpl in Hs.
  - injection Hs as <- <-. simpl. split; [constructor | discriminate].
  - inversion Hnd as [|? ? Hu' Ht]; subst.
    unfold retained. simpl existsb.
    destruct (minr <=? Z.of_nat (length (rows_of_user u' df))) eqn:Em.
    + destruct (train_test_split permutation (rows_of_user u' df) test_size seed)
        as [[tr te]|e] eqn:Ett; [|discriminate]. revert Hs. bind_step.
      destruct (split_users permutation df test_size seed minr t)
        as [[trs' tes']|e] eqn:Er; [|discriminate]. bind_step.
      intros [= <- <-]. simpl concat. rewrite !rows_of_user_app.
      destruct (train_test_split_ok _ _ _ _ _ Hperm Ett) as (Hp & Htr & Hte).
      destruct (IH Ht trs' tes' eq_refl u) as [IHp IHn].
      pose proof (split_part_rows u u' df tr te Hp) as Hpart.
      unfold retained in IHp, IHn.
      destruct (u =? u') eqn:E.
      * apply Z.eqb_eq in E. subst u'. simpl. rewrite Em.
        assert (Hnot : existsb (Z.eqb u) t = false).
        { apply not_true_iff_false. intros Hex. apply existsb_exists in Hex.
          destruct Hex as [y [Hy Huy]]. apply Z.eqb_eq in Huy. subst.
          contradiction. }
        rewrite Hnot in IHp. simpl in IHp.
        apply Permutation_sym, Permutation_nil in IHp. apply app_eq_nil in IHp.
        destruct IHp as [-> ->]. rewrite !app_nil_r. split; [exact Hpart|].
        intros _.
        assert (Htr' : rows_of_user u tr = tr /\ rows_of_user u te = te).
        { assert (Hin : forall r, In r (tr ++ te) -> user_id r = u).
          { intros r Hr. apply (Permutation_in _ Hp) in Hr.
            apply rows_of_user_In in Hr. tauto. }
          split; apply forallb_filter_id; apply forallb_forall; intros r Hr;
            apply Z.eqb_eq, Hin, in_or_app; auto. }
        destruct Htr' as [-> ->]. split; assumption.
      * simpl. apply Permutation_sym, Permutation_nil in Hpart.
        apply app_eq_nil in Hpart.
        destruct Hpart as [-> ->]. simpl. split; [exact IHp | exact IHn].
    + destruct (IH Ht trs tes Hs u) as [IHp IHn]. unfold retained in IHp, IHn.
      destruct (u =? u') eqn:E; simpl; [|split; assumption].
      apply Z.eqb_eq in E. subst u'. rewrite Em in *.
      rewrite andb_false_r in *. split; [exact IHp | discriminate].
Qed.

End SplitFacts.

Lemma valid_users_of_In (df : DataFrame) (minr u : Z) :
  In u (valid_users_of df minr) <->
  In u (map user_id df) /\ minr <= Z.of_nat (length (rows_of_user u df)).
Proof.
  unfold valid_users_of. rewrite in_map_iff. split.
  - intros [[u' c] [<- Hin]]. simpl. apply filter_In in Hin.
    destruct Hin as [Hin Hc]. simpl in Hc. apply Z.leb_le in Hc.
    apply in_map_iff in Hin. destruct Hin as [v [Heq Hv]].
    injection Heq as -> <-. rewrite sorted_unique_In in Hv. split; assumption.
  - intros [Hu Hc]. exists (u, Z.of_nat (length (rows_of_user u df))).
    split; [reflexivity|]. apply filter_In. split.
    + apply in_map_iff. exists u. split; [reflexivity|].
      apply sorted_unique_In. exact Hu.
    + simpl. apply Z.leb_le. exact Hc.
Qed.

Lemma valid_users_of_NoDup (df : DataFrame) (minr : Z) :
  NoDup (valid_users_of df minr).
Proof.
  unfold valid_users_of. apply NoDup_map_filter.
  rewrite map_map. simpl. rewrite map_id. apply sorted_unique_NoDup.
Qed.

(** [df_filtered] keeps all the rows of a valid user and no other row. *)
Lemma rows_of_user_filtered (u : Z) (users : list Z) (df : DataFrame) :
  rows_of_user u (List.filter (fun r => existsb (Z.eqb (user_id r)) users) df)
  = if existsb (Z.eqb u) users then rows_of_user u df else [].
Proof.
  unfold rows_of_user. rewrite filter_filter.
  destruct (existsb (Z.eqb u) users) eqn:E.
  - apply filter_ext_in. intros r _.
    destruct (user_id r =? u) eqn:Er; [|apply andb_false_r].
    apply Z.eqb_eq in Er. rewrite Er, E. reflexivity.
  - induction df as [|r t IH]; simpl; [reflexivity|].
    destruct (user_id r =? u) eqn:Er.
    + apply Z.eqb_eq in Er. rewrite Er, E. simpl. exact IH.
    + rewrite andb_false_r. exact IH.
Qed.

Section SplitTheorem.

Variable permutation : Z -> nat -> list nat.

Lemma split_users_total (df : DataFrame) (test_size : Q) (seed minr : Z)
    (users : list Z) :
  (0 < test_size)%Q -> (test_size < 1)%Q ->
  (forall u, In u users ->
     let c := length (rows_of_user u df) in
     (n_test_of test_size c < c)%nat) ->
  exists trs tes,
    split_users permutation df test_size seed minr users = Ok (trs, tes)
    /\ (users <> [] /\ (forall u, In u users ->
                          minr <= Z.of_nat (length (rows_of_user u df)))
        -> trs <> [] /\ tes <> []).
Proof.
  intros H0 H1. induction users as [|u t IH]; intros Hc; simpl.
  - exists [], []. split; [reflexivity|]. intros [Hne _]. congruence.
  - destruct IH as (trs & tes & Hs & _).
    { intros v Hv. apply Hc. right; exact Hv. }
    destruct (minr <=? Z.of_nat (length (rows_of_user u df))) eqn:Em.
    + unfold train_test_split.
      assert (Ets : Qle_bool test_size 0 || Qle_bool 1 test_size = false).
      { apply orb_false_iff. split; apply Qle_bool_false; assumption. }
      rewrite Ets. specialize (Hc u (or_introl eq_refl)). cbv zeta in Hc.
      destruct (_ - _ =? 0)%nat eqn:En; [apply Nat.eqb_eq in En; lia|].
      bind_step. rewrite Hs. bind_step.
      eexists _, _. split; [reflexivity|]. intros _. simpl. split; discriminate.
    + exists trs, tes. split; [exact Hs|]. intros [_ Hall].
      specialize (Hall u (or_introl eq_refl)). apply Z.leb_gt in Em. lia.
Qed.

(** C3.  With a shuffle that permutes the positions: whenever
    [split_train_test] returns, the train and test rows of every user with
    at least [min_ratings_per_user] records are a partition of that user's
    records, both sides non-empty; a user with fewer records is in
    neither output; on a table without repeated rows no row is on both
    sides; and the output depends on the random generator only through
    the shuffles drawn from the given seed.  It does return when
    [0 < test_size < 1], some user is retained and every retained user
    keeps a train row. *)
Theorem split_train_test_partition (df : DataFrame) (test_size : Q)
    (seed minr : Z) :
  shuffles permutation seed ->
  (forall train test,
      split_train_test permutation df test_size seed minr = Ok (train, test) ->
      (forall u, minr <= Z.of_nat (length (rows_of_user u df)) ->
         Permutation (rows_of_user u train ++ rows_of_user u test)
                     (rows_of_user u df)
         /\ (In u (map user_id df) ->
             rows_of_user u train <> [] /\ rows_of_user u test <> []))
      /\ (forall u, Z.of_nat (length (rows_of_user u df)) < minr ->
            rows_of_user u train = [] /\ rows_of_user u test = [])
      /\ (NoDup df -> forall r, In r train -> ~ In r test)
      /\ (forall permutation',
            (forall n, permutation' seed n = permutation seed n) ->
            split_train_test permutation' df test_size seed minr
            = Ok (train, test)))
  /\ ((0 < test_size)%Q -> (test_size < 1)%Q ->
      valid_users_of df minr <> [] ->
      (forall u, In u (valid_users_of df minr) ->
         let c := length (rows_of_user u df) in
         (n_test_of test_size c < c)%nat) ->
      exists train test,
        split_train_test permutation df test_size seed minr = Ok (train, test)).
Proof.
  intros Hperm.
  set (users := valid_users_of df minr).
  set (dff := List.filter (fun r => existsb (Z.eqb (user_id r)) users) df).
  assert (Hrows : forall u, rows_of_user u dff
                            = if existsb (Z.eqb u) users then rows_of_user u df else []).
  { intros u. apply rows_of_user_filtered. }
  assert (Hret : forall u, retained dff minr users u = existsb (Z.eqb u) users).
  { intros u. unfold retained. rewrite Hrows.
    destruct (existsb (Z.eqb u) users) eqn:E; [|reflexivity]. simpl.
    apply existsb_eqb_In, valid_users_of_In in E. apply Z.leb_le. tauto. }
  split.
  - intros train test Hs. unfold split_train_test in Hs.
    fold users in Hs. fold dff in Hs.
    destruct (split_users permutation dff test_size seed minr users)
      as [[trs tes]|e] eqn:Eu; [|discriminate]. revert Hs. bind_step.
    simpl fst. simpl snd. unfold pd_concat.
    destruct trs as [|tr0 trs]; [discriminate|].
    destruct tes as [|te0 tes]; [discriminate|]. bind_step. intros [= <- <-].
    pose proof (split_users_ok permutation dff test_size seed minr users _ _
                  Hperm (valid_users_of_NoDup df minr) Eu) as Hok.
    assert (Hpart : forall u,
      Permutation (rows_of_user u (concat (tr0 :: trs))
                   ++ rows_of_user u (concat (te0 :: tes)))
                  (if existsb (Z.eqb u) users then rows_of_user u df else [])).
    { intros u. destruct (Hok u) as [Hp _]. rewrite Hret, Hrows in Hp.
      destruct (existsb (Z.eqb u) users); exact Hp. }
    split; [|split; [|split]].
    + intros u Hc. specialize (Hpart u). destruct (Hok u) as [_ Hn].
      rewrite Hret in Hn.
      destruct (existsb (Z.eqb u) users) eqn:E.
      * split; [exact Hpart|]. intros _. apply Hn. reflexivity.
      * assert (Hno : ~ In u (map user_id df)).
        { intros Hin. apply not_true_iff_false in E. apply E.
          apply existsb_eqb_In, valid_users_of_In. split; assumption. }
        split; [|contradiction].
        assert (Hnil : rows_of_user u df = []).
        { destruct (rows_of_user u df) as [|r t] eqn:Er; [reflexivity|].
          exfalso. apply Hno. apply in_map_iff. exists r.
          assert (Hr : In r (rows_of_user u df)) by (rewrite Er; left; reflexivity).
          apply rows_of_user_In in Hr. tauto. }
        rewrite Hnil. exact Hpart.
    + intros u Hc. specialize (Hpart u).
      destruct (existsb (Z.eqb u) users) eqn:E.
      * apply existsb_eqb_In, valid_users_of_In in E. lia.
      * apply Permutation_sym, Permutation_nil, app_eq_nil in Hpart. exact Hpart.
    + intros Hnd r Htr Hte. specialize (Hpart (user_id r)).
      assert (Hnd' : NoDup (rows_of_user (user_id r) (concat (tr0 :: trs))
                            ++ rows_of_user (user_id r) (concat (te0 :: tes)))).
      { eapply Permutation_NoDup; [symmetry; exact Hpart|].
        destruct (existsb _ users); [|constructor].
        apply NoDup_filter. exact Hnd. }
      assert (H1 : In r (rows_of_user (user_id r) (concat (tr0 :: trs)))).
      { apply rows_of_user_In. split; [exact Htr | reflexivity]. }
      assert (H2 : In r (rows_of_user (user_id r) (concat (te0 :: tes)))).
      { apply rows_of_user_In. split; [exact Hte | reflexivity]. }
      apply in_split in H1. destruct H1 as (l1 & l2 & H1). rewrite H1 in Hnd'.
      rewrite <- app_assoc in Hnd'. simpl in Hnd'.
      apply NoDup_remove_2 in Hnd'. apply Hnd'.
      rewrite !in_app_iff. right. right. exact H2.
    + intros permutation' Hsame. unfold split_train_test.
      fold users. fold dff.
      rewrite (split_users_seed permutation permutation' dff test_size seed
                 minr users Hsame), Eu. reflexivity.
  - intros H0 H1 Hne Hc. unfold split_train_test. fold users. fold dff.
    destruct (split_users_total dff test_size seed minr users H0 H1)
      as (trs & tes & Hs & Hnonempty).
    { intros u Hu. rewrite Hrows.
      apply existsb_eqb_In in Hu as Hu'. rewrite Hu'. apply Hc. exact Hu. }
    rewrite Hs. bind_step. simpl fst. simpl snd.
    destruct Hnonempty as [Htr Hte].
    { split; [exact Hne|]. intros u Hu. rewrite Hrows.
      apply existsb_eqb_In in Hu as Hu'. rewrite Hu'.
      apply valid_users_of_In in Hu. tauto. }
    destruct trs as [|tr0 trs]; [congruence|].
    destruct tes as [|te0 tes]; [congruence|].
    simpl. eexists _, _. reflexivity.
Qed.

End SplitTheorem.

(** * Normalization round trip *)

Section RoundTrip.

Variable sqrt : Q -> Q.

Lemma normalize_In (df : DataFrame) (method : string) (ndf : NormalizedFrame)
    (r : RatingRecord) (v : float) :
  normalize_ratings_per_user sqrt df method = Ok ndf ->
  In (r, v) ndf ->
  In r df
  /\ (method = "mean_center"%string ->
      v = Some (rating r - mean (user_group df r))%Q)
  /\ (method = "z_score"%string ->
      v = fdiv (rating r - mean (user_group df r))
               (replace_0_1 (std sqrt (user_group df r)))).
Proof.
  unfold normalize_ratings_per_user.
  destruct (String.eqb method "mean_center") eqn:E1.
  { apply String.eqb_eq in E1. subst. intros [= <-] Hin.
    apply in_map_iff in Hin. destruct Hin as [r' [[= -> <-] Hr]].
    split; [exact Hr|]. split; [reflexivity | discriminate]. }
  destruct (String.eqb method "z_score") eqn:E2.
  { apply String.eqb_eq in E2. subst. intros [= <-] Hin.
    apply in_map_iff in Hin. destruct Hin as [r' [[= -> <-] Hr]].
    split; [exact Hr|]. split; [discriminate | reflexivity]. }
  apply String.eqb_neq in E1, E2.
  destruct (String.eqb method "min_max"); [|discriminate].
  intros [= <-] Hin. apply in_map_iff in Hin.
  destruct Hin as [r' [[= -> <-] Hr]].
  split; [exact Hr|]. split; intros ->; congruence.
Qed.

(** X24.  With exact arithmetic, denormalizing a normalized rating with
    the user's mean and the standard deviation used in the normalization
    gives the rating back.  For [z_score] the user needs two ratings. *)
Lemma normalization_round_trip (df : DataFrame) (method : string)
    (ndf : NormalizedFrame) (r : RatingRecord) (v : float) :
  method = "mean_center"%string
  \/ (method = "z_score"%string /\ (2 <= length (user_group df r))%nat) ->
  normalize_ratings_per_user sqrt df method = Ok ndf ->
  In (r, v) ndf ->
  oQeq (denormalize_rating v (Some (mean (user_group df r)))
                           (replace_0_1 (std sqrt (user_group df r))) method)
       (Some (rating r)).
Proof.
  intros Hmethod Hn Hin.
  destruct (normalize_In df method ndf r v Hn Hin) as (_ & Hmc & Hz).
  destruct Hmethod as [->|[-> Hlen]].
  - rewrite (Hmc eq_refl). unfold denormalize_rating. simpl. ring.
  - rewrite (Hz eq_refl). unfold denormalize_rating, std. simpl.
    destruct (length (user_group df r) <? 2)%nat eqn:El;
      [apply Nat.ltb_lt in El; lia|].
    simpl. destruct (Qeq_bool (sqrt (variance (user_group df r))) 0) eqn:E0; simpl.
    + field.
    + field. intros H0. apply Qeq_bool_true in H0. congruence.
Qed.

End RoundTrip.

(** * Evaluation harness *)

Lemma prediction_loop_spec (train_df test_df : DataFrame)
    (predict_func : Predictor) (st : list Q * list Q) :
  fold_left (predict_row train_df predict_func) test_df st
  = (fst st ++ map fst (successful_predictions train_df test_df predict_func),
     snd st ++ map snd (successful_predictions train_df test_df predict_func)).
Proof.
  revert st. induction test_df as [|row t IH]; intros [a p]; simpl.
  - rewrite !app_nil_r. reflexivity.
  - rewrite IH. unfold predict_row.
    destruct (predict_func train_df (user_id row) (product_id row)); simpl.
    + rewrite <- !app_assoc. reflexivity.
    + reflexivity.
Qed.

(** *** The recommendation harness in closed form *)

Lemma unique_step_In (x : Z) (l acc : list Z) :
  In x (fold_left (fun acc x => if existsb (Z.eqb x) acc then acc
                                else acc ++ [x]) l acc)
  <-> In x acc \/ In x l.
Proof.
  revert acc. induction l as [|y t IH]; intros acc; simpl; [tauto|].
  rewrite IH. destruct (existsb (Z.eqb y) acc) eqn:E.
  - apply existsb_eqb_In in E. split; [tauto|].
    intros [H|[<-|H]]; tauto.
  - rewrite in_app_iff. simpl. tauto.
Qed.

Lemma unique_In (x : Z) (l : list Z) : In x (unique l) <-> In x l.
Proof. unfold unique. rewrite unique_step_In. simpl. tauto. Qed.

Lemma results_get_init (k : Z) (k_values : list Z) :
  results_get k (results_init k_values)
  = if existsb (Z.eqb k) k_values then Some (mkLists [] [] []) else None.
Proof.
  unfold results_init.
  assert (H : forall l,
             results_get k (map (fun k => (k, mkLists [] [] [])) l)
             = if existsb (Z.eqb k) l then Some (mkLists [] [] []) else None).
  { induction l as [|y t IH]; simpl; [reflexivity|].
    rewrite (Z.eqb_sym k y). destruct (y =? k); [reflexivity | exact IH]. }
  rewrite H.
  destruct (existsb (Z.eqb k) k_values) eqn:E.
  - rewrite existsb_eqb_In, <- unique_In, <- existsb_eqb_In in E.
    rewrite E. reflexivity.
  - destruct (existsb (Z.eqb k) (unique k_values)) eqn:E'; [|reflexivity].
    rewrite existsb_eqb_In, unique_In, <- existsb_eqb_In in E'.
    rewrite E' in E. discriminate.
Qed.

Lemma results_get_append (k k' : Z) (p r f : Q) (d : Results) :
  results_get k' (results_append k p r f d)
  = if k =? k' then option_map (extended [p] [r] [f]) (results_get k' d)
    else results_get k' d.
Proof.
  induction d as [|[k0 v] t IH]; simpl.
  - destruct (k =? k'); reflexivity.
  - destruct (k0 =? k) eqn:E0; simpl.
    + apply Z.eqb_eq in E0. subst k0.
      destruct (k =? k'); reflexivity.
    + destruct (k0 =? k') eqn:E1.
      * apply Z.eqb_eq in E1. subst k0.
        rewrite Z.eqb_sym, E0. reflexivity.
      * exact IH.
Qed.

Lemma option_map_extended (ps rs fs ps' rs' fs' : list Q)
    (o : option MetricLists) :
  option_map (extended ps' rs' fs') (option_map (extended ps rs fs) o)
  = option_map (extended (ps ++ ps') (rs ++ rs') (fs ++ fs')) o.
Proof.
  destruct o as [v|]; [|reflexivity]. unfold extended. simpl.
  rewrite !app_assoc. reflexivity.
Qed.

Lemma option_map_extended_nil (o : option MetricLists) :
  option_map (extended [] [] []) o = o.
Proof.
  destruct o as [[ps rs fs]|]; [|reflexivity]. unfold extended. simpl.
  rewrite !app_nil_r. reflexivity.
Qed.

(** One user: the loop over [k_values]. *)
Lemma results_get_record (P R F : Z -> Q) (ks : list Z) (k' : Z) (d : Results) :
  results_get k' (fold_left (fun d k => results_append k (P k) (R k) (F k) d)
                            ks d)
  = option_map (extended (repeat (P k') (count_occ Z.eq_dec ks k'))
                         (repeat (R k') (count_occ Z.eq_dec ks k'))
                         (repeat (F k') (count_occ Z.eq_dec ks k')))
               (results_get k' d).
Proof.
  revert d. induction ks as [|k t IH]; intros d.
  - simpl. symmetry. apply option_map_extended_nil.
  - cbn [fold_left]. rewrite IH, results_get_append. cbn [count_occ].
    destruct (Z.eq_dec k k') as [->|Hne].
    + rewrite Z.eqb_refl, option_map_extended. reflexivity.
    + apply Z.eqb_neq in Hne. rewrite Hne. reflexivity.
Qed.

Lemma results_get_recorded (k_values : list Z) (k' : Z)
    (evaluations : list (gset Z * list Z)) (st : Results * nat) :
  results_get k' (fst (fold_left (record k_values) evaluations st))
  = option_map
      (extended (metric_values precision_at_k k_values k' evaluations)
                (metric_values recall_at_k k_values k' evaluations)
                (metric_values f1_score_at_k k_values k' evaluations))
      (results_get k' (fst st)).
Proof.
  revert st. induction evaluations as [|e t IH]; intros st.
  - simpl. symmetry. apply option_map_extended_nil.
  - cbn [fold_left]. rewrite IH. unfold record. cbn [fst].
    rewrite (results_get_record
               (precision_at_k (snd e) (fst e)) (recall_at_k (snd e) (fst e))
               (f1_score_at_k (snd e) (fst e))).
    rewrite option_map_extended. reflexivity.
Qed.

Lemma for_each_app {St A : Type} (body : St -> A -> result St)
    (xs ys : list A) (st : St) :
  for_each body (xs ++ ys) st
  = (st' ← for_each body xs st; for_each body ys st').
Proof.
  revert st. induction xs as [|x t IH]; intros st; [reflexivity|].
  cbn [app for_each]. destruct (body st x) as [st'|e]; bind_step;
    [apply IH | reflexivity].
Qed.

Lemma evaluation_loop_spec (train_df test_df : DataFrame)
    (recommend_func : Recommender) (k_values : list Z) (threshold : Q)
    (users : list Z) (st : Results * nat) :
  (forall u e,
      In u users ->
      size (relevant_items_of test_df threshold u) <> 0%nat ->
      recommendations_for train_df recommend_func k_values u = Error e ->
      is_Exception e = true) ->
  for_each (evaluate_user train_df test_df recommend_func k_values threshold)
           users st
  = Ok (fold_left (record k_values)
          (flat_map (fun user =>
              let relevant := relevant_items_of test_df threshold user in
              if (size relevant =? 0)%nat then []
              else
                match recommendations_for train_df recommend_func k_values
                                          user with
                | Ok recommended =>
                    if (length recommended =? 0)%nat then []
                    else [(relevant, recommended)]
                | Error _ => []
                end) users) st).
Proof.
  revert st. induction users as [|u t IH]; intros st Hexc; [reflexivity|].
  cbn [for_each flat_map]. rewrite fold_left_app.
  assert (Ht : forall u' e,
             In u' t ->
             size (relevant_items_of test_df threshold u') <> 0%nat ->
             recommendations_for train_df recommend_func k_values u' = Error e ->
             is_Exception e = true).
  { intros u' e Hin. apply Hexc. right; exact Hin. }
  specialize (Hexc u).
  unfold evaluate_user. fold (relevant_items_of test_df threshold u).
  fold (recommendations_for train_df recommend_func k_values u).
  cbv zeta.
  destruct (size (relevant_items_of test_df threshold u) =? 0)%nat eqn:Es.
  - bind_step. apply IH; exact Ht.
  - apply Nat.eqb_neq in Es.
    destruct (recommendations_for train_df recommend_func k_values u)
      as [recs|e] eqn:Er.
    + destruct (length recs =? 0)%nat; bind_step; apply IH; exact Ht.
    + rewrite (Hexc e (or_introl eq_refl) Es eq_refl). bind_step.
      apply IH; exact Ht.
Qed.

Lemma summary_set_unique (g : Z -> Averages) (k : Z) (acc : list Z) :
  summary_set k (g k) (map (fun k => (k, g k)) acc)
  = map (fun k => (k, g k))
        (if existsb (Z.eqb k) acc then acc else acc ++ [k]).
Proof.
  induction acc as [|y t IH]; [reflexivity|].
  cbn [map summary_set existsb]. rewrite (Z.eqb_sym k y).
  destruct (y =? k) eqn:E.
  - apply Z.eqb_eq in E. subst y. reflexivity.
  - cbn [orb]. rewrite IH. destruct (existsb (Z.eqb k) t); reflexivity.
Qed.

Lemma summarize_spec (results : Results) (g : Z -> Averages)
    (k_values : list Z) :
  (forall k, In k k_values ->
     exists v, results_get k results = Some v
               /\ precisions v <> []
               /\ mkAverages (mean (precisions v)) (mean (recalls v))
                             (mean (f1s v)) = g k) ->
  summarize results k_values = map (fun k => (k, g k)) (unique k_values).
Proof.
  unfold summarize, unique.
  assert (G : forall ks acc,
    (forall k, In k ks ->
       exists v, results_get k results = Some v
                 /\ precisions v <> []
                 /\ mkAverages (mean (precisions v)) (mean (recalls v))
                               (mean (f1s v)) = g k) ->
    fold_left
      (fun summary k =>
         match results_get k results with
         | Some v =>
             match precisions v with
             | [] => summary
             | _ => summary_set k (mkAverages (mean (precisions v))
                                              (mean (recalls v))
                                              (mean (f1s v))) summary
             end
         | None => summary
         end) ks (map (fun k => (k, g k)) acc)
    = map (fun k => (k, g k))
          (fold_left (fun acc x => if existsb (Z.eqb x) acc then acc
                                   else acc ++ [x]) ks acc)).
  { induction ks as [|k t IH]; intros acc H; [reflexivity|].
    cbn [fold_left].
    destruct (H k (or_introl eq_refl)) as (v & -> & Hne & Hg).
    destruct (precisions v) as [|p ps] eqn:Ep; [congruence|].
    rewrite Hg, summary_set_unique.
    apply IH. intros k' Hk'. apply H. right; exact Hk'. }
  intros H. apply (G k_values [] H).
Qed.

Lemma metric_values_nonempty (metric : list Z -> gset Z -> Z -> Q)
    (k_values : list Z) (k : Z) (evaluations : list (gset Z * list Z)) :
  In k k_values -> evaluations <> [] ->
  metric_values metric k_values k evaluations <> [].
Proof.
  intros Hk Hne. destruct evaluations as [|e t]; [congruence|].
  unfold metric_values. cbn [flat_map].
  apply (count_occ_In Z.eq_dec) in Hk.
  destruct (count_occ Z.eq_dec k_values k); [lia|]. discriminate.
Qed.

Lemma summarize_recorded (k_values : list Z)
    (evals : list (gset Z * list Z)) :
  summarize (fst (fold_left (record k_values) evals
                            (results_init k_values, 0%nat))) k_values
  = summary_of k_values evals.
Proof.
  assert (Hget : forall k,
    results_get k (fst (fold_left (record k_values) evals
                                  (results_init k_values, 0%nat)))
    = if existsb (Z.eqb k) k_values
      then Some (mkLists (metric_values precision_at_k k_values k evals)
                         (metric_values recall_at_k k_values k evals)
                         (metric_values f1_score_at_k k_values k evals))
      else None).
  { intros k. rewrite results_get_recorded. cbn [fst].
    rewrite results_get_init. destruct (existsb (Z.eqb k) k_values); reflexivity. }
  destruct evals as [|e0 et].
  - cbn [fold_left summary_of fst]. unfold summarize.
    assert (G : forall l acc,
      fold_left
        (fun summary k =>
           match results_get k (results_init k_values) with
           | Some v =>
               match precisions v with
               | [] => summary
               | _ => summary_set k (mkAverages (mean (precisions v))
                                                (mean (recalls v))
                                                (mean (f1s v))) summary
               end
           | None => summary
           end) l acc = acc).
    { induction l as [|k t IH]; intros acc; [reflexivity|].
      cbn [fold_left]. rewrite IH, results_get_init.
      destruct (existsb (Z.eqb k) k_values); reflexivity. }
    apply G.
  - unfold summary_of.
    apply summarize_spec. intros k Hk. rewrite Hget.
    apply existsb_eqb_In in Hk as Hk'. rewrite Hk'.
    eexists. split; [reflexivity|]. split; [|reflexivity].
    cbn [precisions]. apply metric_values_nonempty; [exact Hk | discriminate].
Qed.

(** The summary of a run that no exception leaves. *)
Lemma evaluate_recommendations_spec (train_df test_df : DataFrame)
    (recommend_func : Recommender) (k_values : list Z) (threshold : Q) :
  (forall u e,
      In u (map user_id test_df) ->
      size (relevant_items_of test_df threshold u) <> 0%nat ->
      recommendations_for train_df recommend_func k_values u = Error e ->
      is_Exception e = true) ->
  evaluate_recommendations train_df test_df recommend_func k_values threshold
  = Ok (summary_of k_values
          (successful_evaluations train_df test_df recommend_func k_values
                                  threshold)).
Proof.
  intros Hexc. unfold evaluate_recommendations, evaluation_loop.
  rewrite evaluation_loop_spec.
  2:{ intros u e Hu. apply Hexc. apply unique_In. exact Hu. }
  bind_step. f_equal. apply summarize_recorded.
Qed.

Section HarnessTheorem.

Variable sqrt : Q -> Q.

(** C10.  When every failure that the recommender raises for a test user
    is an [Exception], [evaluate_recommendations] returns, and its
    summary is the one over the users that count: a user for whom the
    recommender raised contributes nothing, and every other user with a
    relevant item and recommendations contributes its metrics at every
    [k].  An exception that is no [Exception], raised for a user with a
    relevant item, is not caught: the run ends with it.  The
    rating-prediction harness, whose [except] is bare, computes RMSE and
    MAE over exactly the records whose prediction succeeded, whatever the
    others raise, and answers with the empty summary when none did. *)
Theorem harness_skips_failures (train_df test_df : DataFrame)
    (recommend_func : Recommender) (k_values : list Z) (threshold : Q)
    (predict_func : Predictor) :
  ((forall u e,
       In u (map user_id test_df) ->
       size (relevant_items_of test_df threshold u) <> 0%nat ->
       recommendations_for train_df recommend_func k_values u = Error e ->
       is_Exception e = true) ->
   evaluate_recommendations train_df test_df recommend_func k_values threshold
   = Ok (summary_of k_values
           (successful_evaluations train_df test_df recommend_func k_values
                                   threshold)))
  /\ (forall before u after e,
        unique (map user_id test_df) = before ++ u :: after ->
        (forall v e',
            In v before ->
            size (relevant_items_of test_df threshold v) <> 0%nat ->
            recommendations_for train_df recommend_func k_values v = Error e' ->
            is_Exception e' = true) ->
        size (relevant_items_of test_df threshold u) <> 0%nat ->
        recommendations_for train_df recommend_func k_values u = Error e ->
        is_Exception e = false ->
        evaluate_recommendations train_df test_df recommend_func k_values
                                 threshold
        = Error e)
  /\ evaluate_rating_prediction sqrt train_df test_df predict_func
     = match successful_predictions train_df test_df predict_func with
       | [] => NoPredictions
       | done =>
           PredictionMetrics
             (calculate_rmse sqrt (map fst done) (map snd done))
             (calculate_mae (map fst done) (map snd done))
             (length done)
       end.
Proof.
  split; [|split].
  - apply evaluate_recommendations_spec.
  - intros before u after e Husers Hbefore Hrel Herr Hexit.
    unfold evaluate_recommendations, evaluation_loop.
    rewrite Husers, for_each_app.
    rewrite (evaluation_loop_spec train_df test_df recommend_func k_values
               threshold before _ Hbefore).
    bind_step. cbn [for_each]. unfold evaluate_user.
    fold (relevant_items_of test_df threshold u).
    fold (recommendations_for train_df recommend_func k_values u).
    cbv zeta. apply Nat.eqb_neq in Hrel. rewrite Hrel, Herr, Hexit.
    reflexivity.
  - unfold evaluate_rating_prediction, prediction_loop.
    rewrite prediction_loop_spec. simpl.
    destruct (successful_predictions train_df test_df predict_func) as [|d t];
      [reflexivity|].
    simpl. rewrite !length_map. reflexivity.
Qed.

End HarnessTheorem.

(** * The claims on the fixtures *)

Lemma Qsqrt_square (q : Q) : (0 <= q)%Q -> (Qsqrt (q * q) == q)%Q.
Proof.
  destruct q as [a b]. unfold Qle, Qsqrt, Qeq. simpl. intros Ha.
  replace (a * a * Z.pos (b * b)) with ((a * Z.pos b) * (a * Z.pos b))
    by (rewrite Pos2Z.inj_mul; ring).
  rewrite Z.sqrt_square by nia. rewrite Pos2Z.inj_mul. ring.
Qed.

(** On the fixtures of the counterexamples the square roots are exact. *)
Lemma fixture_norms_exact :
  norms_exact mean_rated_table true "mean_center" = true
  /\ norms_exact unrelated_table false "mean_center" = true
  /\ norms_exact tied_table false "mean_center" = true.
Proof. repeat split; vm_compute; reflexivity. Qed.

(** C1 at a failing input.  With mean-centered ratings user 1 is
    recommended product 102, which user 1 rated: the rating equals the
    user's mean, its normalized value is 0, and 0 is how the matrix marks
    a product the user did not rate. *)
Theorem normalized_recommends_rated_product :
  exists rows,
    recommend_for_user Qsqrt mean_rated_table 1 10 (1 # 10) true "mean_center" 2
    = Ok rows
    /\ In 102 (map rec_product_id rows)
    /\ In (1, 102) (map (fun r => (user_id r, product_id r)) mean_rated_table).
Proof.
  eexists. split; [vm_compute; reflexivity|].
  split; [left; reflexivity | right; left; reflexivity].
Qed.

(** The same on the cold-start path, whatever the square root: a user
    whose ratings are all equal is recommended the popular products,
    rated or not. *)
Lemma cold_start_recommends_rated_product (sqrt : Q -> Q) :
  exists rows,
    recommend_for_user sqrt constant_table 1 10 (1 # 10) true "mean_center" 2
    = Ok rows
    /\ In 101 (map rec_product_id rows)
    /\ In (1, 101) (map (fun r => (user_id r, product_id r)) constant_table).
Proof.
  eexists. split; [vm_compute; reflexivity|].
  split; left; reflexivity.
Qed.

(** With [min_similarity = 0] product 102, whose similarity to the only
    rated product is 0, accumulates weight 0 and is returned all the
    same. *)
Lemma zero_weight_candidate_is_returned :
  ~ zero_weight_excluded Qsqrt unrelated_table 1 10 0 false "mean_center" 2.
Proof.
  intros H. unfold zero_weight_excluded in H.
  eapply H.
  - reflexivity.
  - reflexivity.
  - reflexivity.
  - vm_compute. reflexivity.
  - left. reflexivity.
  - vm_compute. reflexivity.
  - vm_compute. reflexivity.
Qed.

(** C2, counterexample.  On raw ratings a candidate with accumulated
    weight 0 is returned, not excluded.  And on mean-centered ratings
    the accumulators are not those of the rated items: user 1 rated 101,
    102 and 103; product 104, not rated, has the rated item 103 at
    similarity 4/5 and gets no entry, while the rated product 102 gets
    one. *)
Lemma weighted_average_counterexamples :
  ~ zero_weight_excluded Qsqrt unrelated_table 1 10 0 false "mean_center" 2
  /\ let matrix := matrix_of mean_rated_table true "mean_center" in
     let sim_df := similarity_of mean_rated_table true "mean_center" in
     let acc := accumulate (columns matrix) (at_ matrix 1) (1 # 10) sim_df
                           (rated_items_of matrix (at_ matrix 1)) in
     rated_by mean_rated_table 1 = [101; 102; 103]
     /\ has_rated mean_rated_table 1 104 = false
     /\ contributors (1 # 10) sim_df (rated_by mean_rated_table 1) 104 = [103]
     /\ dict_get 104 (fst acc) = None
     /\ exists s, dict_get 102 (fst acc) = Some s.
Proof.
  split; [exact zero_weight_candidate_is_returned|].
  cbv zeta. split; [reflexivity|]. split; [reflexivity|].
  split; [vm_compute; reflexivity|]. split; [vm_compute; reflexivity|].
  eexists. vm_compute. reflexivity.
Qed.

(** C2, witness: the fixture of the tests, user 1, who rated 101 and
    102. *)
Lemma scores_are_weighted_averages_witness :
  rated_items_of (matrix_of test_table false "mean_center")
                 (at_ (matrix_of test_table false "mean_center") 1)
  = [101; 102]
  /\ exists ranking,
      recommend_for_user Qsqrt test_table 1 2 (1 # 10) false "mean_center" 2
      = Ok (head 2 ranking).
Proof.
  destruct (scores_are_weighted_averages Qsqrt test_table 1 2 (1 # 10)
              "mean_center" 2 (matrix_of test_table false "mean_center")
              (similarity_of test_table false "mean_center")
              (at_ (matrix_of test_table false "mean_center") 1))
    as (Hrated & _ & _ & _ & ranking & Hr & _).
  - simpl. auto.
  - intros r Hr. simpl in Hr.
    repeat (destruct Hr as [<-|Hr]; [unfold Qlt; simpl; lia|]).
    contradiction.
  - reflexivity.
  - reflexivity.
  - reflexivity.
  - split; [rewrite Hrated; reflexivity|]. exists ranking. exact Hr.
Defined.

(** C3, witness: user 1 keeps four train rows and one test row, user 2
    is dropped. *)
Lemma split_train_test_partition_witness :
  shuffles reversed 42
  /\ split_train_test reversed split_table (1 # 5) 42 5
     = Ok ([ mkRating 1 104 2 0; mkRating 1 103 3 0; mkRating 1 102 4 0;
             mkRating 1 101 5 0 ],
           [ mkRating 1 105 1 0 ])
  /\ exists train test,
      split_train_test reversed split_table (1 # 5) 42 5 = Ok (train, test).
Proof.
  assert (Hs : shuffles reversed 42).
  { intros n. unfold reversed. symmetry. apply Permutation_rev. }
  split; [exact Hs|]. split; [vm_compute; reflexivity|].
  apply (proj2 (split_train_test_partition reversed split_table (1 # 5) 42 5 Hs)).
  - reflexivity.
  - reflexivity.
  - vm_compute. discriminate.
  - intros u Hu. vm_compute in Hu. destruct Hu as [<-|[]]. vm_compute. lia.
Defined.

(** C4, witness: user 1 of the test table. *)
Lemma recommend_for_user_unknown_user_iff_witness :
  In 1 (map user_id test_table)
  /\ forall v,
      recommend_for_user Qsqrt test_table 1 2 (1 # 10) false "mean_center" 2
      <> Error (UnknownUser v).
Proof.
  assert (Hin : In 1 (map user_id test_table)) by (simpl; auto).
  split; [exact Hin|].
  exact (proj2 (recommend_for_user_unknown_user_iff Qsqrt test_table 1 2
                  (1 # 10) false "mean_center" 2) Hin).
Defined.

(** C5 at a failing input.  A user with a single rating has no sample
    standard deviation: the z-score of the rating is NaN, and so is
    whatever [denormalize_rating] makes of it. *)
Theorem z_score_single_rating_is_nan (sqrt : Q -> Q) :
  normalize_ratings_per_user sqrt single_rating_table "z_score"
  = Ok [(mkRating 1 101 4 0, None)]
  /\ forall user_mean user_std,
      denormalize_rating None user_mean user_std "z_score" = None.
Proof. split; [reflexivity|]. intros user_mean user_std. reflexivity. Qed.

(** The same defect in [recommend_for_user]: the row of such a user
    drops out of the pivot table and the row lookup fails. *)
Lemma z_score_single_rating_key_error :
  recommend_for_user Qsqrt
    [ mkRating 1 101 3 0; mkRating 2 102 4 0; mkRating 2 101 5 0 ]
    1 10 (1 # 10) true "z_score" 2
  = Error (KeyError 1).
Proof. vm_compute. reflexivity. Qed.

(** C6, counterexample: a recommendation repeated in the list counts
    twice, so recall is 2. *)
Lemma recall_above_one :
  ~ Qle (recall_at_k [1; 1] {[ 1 ]} 2) 1.
Proof. vm_compute. intros H. apply H. reflexivity. Qed.

(** C6, witness. *)
Lemma precision_recall_properties_witness :
  Qle 0 (precision_at_k [101; 103; 104] {[ 101; 102 ]} 2)
  /\ Qle (precision_at_k [101; 103; 104] {[ 101; 102 ]} 2) 1
  /\ Qle (recall_at_k [101; 103; 104] {[ 101; 102 ]} 2) 1.
Proof.
  destruct (precision_recall_properties [101; 103; 104] {[ 101; 102 ]} 2)
    as (Hp & _ & _ & _ & Hr).
  - lia.
  - destruct Hp as [Hp0 Hp1]. split; [exact Hp0|]. split; [exact Hp1|].
    apply Hr. repeat constructor; simpl; intuition lia.
Defined.

(** C7, counterexample.  Products 104 and 103 both score 3; 104 was
    accumulated first (from product 101), and it stays first. *)
Lemma ties_keep_accumulation_order :
  exists rows,
    recommend_for_user Qsqrt tied_table 1 10 (1 # 10) false "mean_center" 2
    = Ok rows
    /\ map rec_product_id rows = [104; 103]
    /\ ~ ties_by_product_id rows.
Proof.
  eexists. split; [vm_compute; reflexivity|]. split; [reflexivity|].
  intros H. inversion H as [|a l _ Hall]; subst.
  inversion Hall as [|b l' Hab _]; subst. simpl in Hab.
  assert (Hlt : 104 < 103) by (apply Hab; reflexivity). lia.
Qed.

(** C7, witness. *)
Lemma recommend_for_user_rows_ordered_witness :
  exists rows,
    recommend_for_user Qsqrt test_table 1 2 (1 # 10) false "mean_center" 2
    = Ok rows
    /\ Z.of_nat (length rows) <= 2
    /\ NoDup (map rec_product_id rows)
    /\ StronglySorted by_score rows.
Proof.
  eexists. split; [vm_compute; reflexivity|].
  apply (recommend_for_user_rows_ordered Qsqrt test_table 1 2 (1 # 10) false
           "mean_center" 2).
  - lia.
  - vm_compute. reflexivity.
Defined.



(** C9, witness: user 1 of the constant table. *)
Lemma cold_start_returns_popular_items_witness :
  recommend_for_user Qsqrt constant_table 1 10 (1 # 10) true "mean_center" 2
  = Ok (get_popular_items constant_table 10 5)
  /\ map rec_product_id (get_popular_items constant_table 10 5) = [101].
Proof.
  split; [|reflexivity].
  eapply (proj1 (cold_start_returns_popular_items Qsqrt constant_table 1 10
                   (1 # 10) true "mean_center" 2 _ _ _ _ _ _)).
  Unshelve.
  - exact (fillna 0 (pivot_table
             (map (fun r => (user_id r, product_id r,
                             Some (rating r - mean (user_group constant_table r))%Q))
                  constant_table))).
  - exact (at_ (fillna 0 (pivot_table
             (map (fun r => (user_id r, product_id r,
                             Some (rating r - mean (user_group constant_table r))%Q))
                  constant_table))) 1).
  - simpl. auto.
  - reflexivity.
  - reflexivity.
  - intros p Hp. vm_compute in Hp. destruct Hp as [<-|[]]. vm_compute. reflexivity.
Defined.

(** C10, counterexample.  The recommender raises [SystemExit] for
    user 2 only; [except Exception] does not catch it, and the run ends
    without a summary. *)
Lemma system_exit_aborts_evaluation :
  evaluate_recommendations split_table held_out_table exiting_recommender
                           [1; 2] 4
  = Error (Exit 1)
  /\ forall u, u <> 2 ->
       recommendations_for split_table exiting_recommender [1; 2] u
       = Ok [101; 103].
Proof.
  split; [vm_compute; reflexivity|].
  intros u Hu. unfold recommendations_for, exiting_recommender. simpl.
  apply Z.eqb_neq in Hu. rewrite Hu. reflexivity.
Qed.

(** C10, witness: the recommender raises an [Exception] for user 1;
    users 2 and 3 count. *)
Lemma harness_skips_failures_witness :
  evaluate_recommendations split_table held_out_table failing_recommender
                           [1; 2] 4
  = Ok (summary_of [1; 2]
          (successful_evaluations split_table held_out_table
                                  failing_recommender [1; 2] 4))
  /\ map snd (successful_evaluations split_table held_out_table
                                     failing_recommender [1; 2] 4)
     = [[101; 103]; [101; 103]]
  /\ exists rmse mae,
      evaluate_rating_prediction Qsqrt split_table held_out_table
                                 failing_predictor
      = PredictionMetrics rmse mae 3.
Proof.
  destruct (harness_skips_failures Qsqrt split_table held_out_table
              failing_recommender [1; 2] 4 failing_predictor)
    as (Hr & _ & Hp).
  split; [|split].
  - apply Hr. intros u e _ _.
    unfold recommendations_for, failing_recommender. simpl.
    destruct (u =? 1); [|discriminate]. intros [= <-]. reflexivity.
  - vm_compute. reflexivity.
  - rewrite Hp. vm_compute. eauto.
Defined.

(** * Further properties *)

(** * More on the ranking metrics *)

Lemma relevant_in_empty (l : list Z) (X : gset Z) :
  size X = 0%nat -> relevant_in l X = 0%nat.
Proof.
  intros Hs. apply size_empty_iff in Hs. unfold relevant_in.
  induction l as [|x t IH]; simpl; [reflexivity|].
  destruct (bool_decide (x ∈ X)) eqn:E; [|exact IH].
  apply bool_decide_eq_true in E. exfalso. set_solver.
Qed.

Lemma Qnat_div_zero (a b : nat) :
  (0 < b)%nat -> (Qnat a / Qnat b == 0)%Q <-> a = 0%nat.
Proof.
  intros Hb. pose proof (Qnat_pos b Hb) as Hpos. split.
  - intros H. destruct a as [|a]; [reflexivity|]. exfalso.
    pose proof (Qnat_pos (S a) ltac:(lia)) as Ha.
    assert (Hd : (0 < Qnat (S a) / Qnat b)%Q).
    { apply Qlt_shift_div_l; [exact Hpos|]. rewrite Qmult_0_l. exact Ha. }
    rewrite H in Hd. apply (Qlt_irrefl 0). exact Hd.
  - intros ->. unfold Qnat. simpl. unfold Qdiv. apply Qmult_0_l.
Qed.

Lemma precision_zero_iff (recommended : list Z) (relevant : gset Z) (k : Z) :
  0 <= k ->
  (precision_at_k recommended relevant k == 0)%Q
  <-> relevant_in (head k recommended) relevant = 0%nat.
Proof.
  intros Hk. unfold precision_at_k. destruct (k =? 0) eqn:E.
  - apply Z.eqb_eq in E. subst k. split; [|reflexivity]. intros _. reflexivity.
  - apply Z.eqb_neq in E.
    replace (inject_Z k) with (Qnat (Z.to_nat k))
      by (unfold Qnat; rewrite Z2Nat.id by lia; reflexivity).
    apply Qnat_div_zero. lia.
Qed.

Lemma recall_zero_iff (recommended : list Z) (relevant : gset Z) (k : Z) :
  (recall_at_k recommended relevant k == 0)%Q
  <-> relevant_in (head k recommended) relevant = 0%nat.
Proof.
  unfold recall_at_k. destruct (size relevant =? 0)%nat eqn:E.
  - apply Nat.eqb_eq in E. split; [|reflexivity]. intros _.
    apply relevant_in_empty. exact E.
  - apply Nat.eqb_neq in E. apply Qnat_div_zero. lia.
Qed.

Lemma recall_at_k_le_one (recommended : list Z) (relevant : gset Z) (k : Z) :
  NoDup recommended -> (recall_at_k recommended relevant k <= 1)%Q.
Proof.
  intros Hnd. unfold recall_at_k.
  destruct (size relevant =? 0)%nat eqn:E; [unfold Qle; simpl; lia|].
  apply Nat.eqb_neq in E. apply Qdiv_unit_interval.
  - apply Qnat_nonneg.
  - apply Qnat_le. rewrite relevant_in_size by (apply head_NoDup; exact Hnd).
    apply subseteq_size. set_solver.
  - apply Qnat_pos. lia.
Qed.

(** X1.  For [0 <= k] and recommendations without repetition, F1@K lies
    in [0, 1], and it is 0 exactly when none of the first [k]
    recommendations is relevant. *)
Theorem f1_score_at_k_range (recommended : list Z) (relevant : gset Z) (k : Z) :
  0 <= k -> NoDup recommended ->
  (0 <= f1_score_at_k recommended relevant k
   /\ f1_score_at_k recommended relevant k <= 1)%Q
  /\ ((f1_score_at_k recommended relevant k == 0)%Q
      <-> relevant_in (head k recommended) relevant = 0%nat).
Proof.
  intros Hk Hnd.
  destruct (precision_at_k_range recommended relevant k Hk) as [Hp0 Hp1].
  pose proof (recall_at_k_nonneg recommended relevant k) as Hr0.
  pose proof (recall_at_k_le_one recommended relevant k Hnd) as Hr1.
  pose proof (precision_zero_iff recommended relevant k Hk) as Hpz.
  pose proof (recall_zero_iff recommended relevant k) as Hrz.
  unfold f1_score_at_k.
  set (p := precision_at_k recommended relevant k) in *.
  set (r := recall_at_k recommended relevant k) in *.
  destruct (Qeq_bool (p + r) 0) eqn:E.
  - apply Qeq_bool_true in E. split; [split; unfold Qle; simpl; lia|].
    split; [|reflexivity]. intros _. apply Hpz. lra.
  - assert (Hpos : (0 < p + r)%Q).
    { destruct (Qlt_le_dec 0 (p + r)) as [H|H]; [exact H|].
      assert (Hz : (p + r == 0)%Q) by lra.
      apply Qeq_bool_true in Hz. congruence. }
    split; [split|].
    + apply Qle_shift_div_l; [exact Hpos|]. nra.
    + apply Qle_shift_div_r; [exact Hpos|]. nra.
    + split.
      * intros Hz.
        assert (Hprod : (2 * (p * r) == 0)%Q).
        { rewrite <- (Qmult_div_r (2 * (p * r)) (p + r)) by lra.
          rewrite Hz. ring. }
        assert (Hpr : (p * r == 0)%Q) by lra.
        apply Qmult_integral in Hpr. destruct Hpr as [H|H];
          [apply Hpz | apply Hrz]; exact H.
      * intros Hc. apply Hpz in Hc. rewrite Hc. unfold Qdiv. ring.
Qed.

Lemma relevant_in_app (l l' : list Z) (X : gset Z) :
  relevant_in (l ++ l') X = (relevant_in l X + relevant_in l' X)%nat.
Proof. unfold relevant_in. rewrite filter_app, length_app. reflexivity. Qed.

Lemma relevant_in_firstn_mono (a b : nat) (l : list Z) (X : gset Z) :
  (a <= b)%nat -> (relevant_in (firstn a l) X <= relevant_in (firstn b l) X)%nat.
Proof.
  intros Hab.
  rewrite <- (firstn_skipn a (firstn b l)), relevant_in_app.
  rewrite firstn_firstn, Nat.min_l by exact Hab. lia.
Qed.

(** X2.  Recall@K never decreases when [k] grows: for [0 <= k1 <= k2] the
    recall at [k1] is at most the recall at [k2]. *)
Theorem recall_at_k_monotone (recommended : list Z) (relevant : gset Z)
    (k1 k2 : Z) :
  0 <= k1 -> k1 <= k2 ->
  (recall_at_k recommended relevant k1 <= recall_at_k recommended relevant k2)%Q.
Proof.
  intros H1 H12. unfold recall_at_k.
  destruct (size relevant =? 0)%nat eqn:E; [apply Qle_refl|].
  apply Nat.eqb_neq in E.
  apply Qle_shift_div_l; [apply Qnat_pos; lia|].
  unfold Qdiv. rewrite <- Qmult_assoc, (Qmult_comm (/ _)), Qmult_inv_r, Qmult_1_r.
  - apply Qnat_le. rewrite !head_nonneg by lia.
    apply relevant_in_firstn_mono. lia.
  - intros H0. pose proof (Qnat_pos (size relevant) ltac:(lia)) as Hp.
    rewrite H0 in Hp. apply (Qlt_irrefl 0). exact Hp.
Qed.

(** * Error aggregates *)

Lemma Qsum_nonneg (l : list Q) :
  Forall (fun x => (0 <= x)%Q) l -> (0 <= Qsum l)%Q.
Proof. induction 1 as [|x t Hx _ IH]; simpl; lra. Qed.

Lemma Qsum_nonneg_zero (l : list Q) :
  Forall (fun x => (0 <= x)%Q) l -> (Qsum l == 0)%Q ->
  Forall (fun x => (x == 0)%Q) l.
Proof.
  induction 1 as [|x t Hx Ht IH]; simpl; intros Hs; constructor.
  - pose proof (Qsum_nonneg t Ht). lra.
  - apply IH. pose proof (Qsum_nonneg t Ht). lra.
Qed.

Lemma Qsum_all_zero (l : list Q) :
  Forall (fun x => (x == 0)%Q) l -> (Qsum l == 0)%Q.
Proof. induction 1 as [|x t Hx _ IH]; simpl; lra. Qed.

Lemma mean_zero_iff (l : list Q) :
  l <> [] -> (mean l == 0)%Q <-> (Qsum l == 0)%Q.
Proof.
  intros Hne. pose proof (Qlen_pos l Hne) as Hpos. unfold mean. split.
  - intros H. rewrite <- (Qmult_div_r (Qsum l) (Qlen l)) by lra.
    rewrite H. ring.
  - intros H. rewrite H. unfold Qdiv. ring.
Qed.

Lemma errors_length (actual predicted : list Q) :
  length actual = length predicted ->
  length (errors actual predicted) = length actual.
Proof.
  intros H. unfold errors. rewrite length_map, length_combine. lia.
Qed.

Lemma errors_zero_iff (actual predicted : list Q) :
  length actual = length predicted ->
  Forall (fun e => (e == 0)%Q) (errors actual predicted)
  <-> Forall2 Qeq actual predicted.
Proof.
  revert predicted. induction actual as [|a t IH]; intros [|p q] Hlen;
    simpl in Hlen; try discriminate.
  - split; constructor.
  - injection Hlen as Hlen. unfold errors. simpl. split.
    + intros H. inversion H as [|? ? H1 H2]; subst. constructor; [lra|].
      apply IH; assumption.
    + intros H. inversion H as [|? ? ? ? H1 H2]; subst. constructor; [lra|].
      apply IH; assumption.
Qed.

Lemma Qabs_zero_iff (x : Q) : (Qabs x == 0)%Q <-> (x == 0)%Q.
Proof.
  split; intros H.
  - pose proof (Qle_Qabs x). pose proof (Qle_Qabs (- x)).
    rewrite Qabs_opp in *. lra.
  - rewrite H. reflexivity.
Qed.

(** On two lists of floats of one length that are not empty, as
    [evaluate_rating_prediction] passes them, the mean absolute error is
    not negative, and it is 0 exactly when the lists agree position by
    position. *)
Lemma mae_zero_iff (actual predicted : list Q) :
  actual <> [] -> length actual = length predicted ->
  (0 <= calculate_mae actual predicted)%Q
  /\ ((calculate_mae actual predicted == 0)%Q <-> Forall2 Qeq actual predicted).
Proof.
  intros Hne Hlen. unfold calculate_mae.
  set (es := errors actual predicted).
  assert (Hes : map Qabs es <> []).
  { intros H. apply map_eq_nil in H.
    pose proof (errors_length actual predicted Hlen) as Hl. fold es in Hl.
    rewrite H in Hl. destruct actual; [congruence | discriminate]. }
  assert (Hnn : Forall (fun x => (0 <= x)%Q) (map Qabs es)).
  { apply Forall_map. apply List.Forall_forall. intros e _. apply Qabs_nonneg. }
  split.
  - unfold mean. apply Qle_shift_div_l; [apply Qlen_pos; exact Hes|].
    rewrite Qmult_0_l. apply Qsum_nonneg. exact Hnn.
  - rewrite (mean_zero_iff _ Hes).
    rewrite <- (errors_zero_iff actual predicted Hlen). fold es. split.
    + intros H. apply Qsum_nonneg_zero in H; [|exact Hnn].
      apply Forall_map in H. eapply List.Forall_impl; [|exact H].
      intros e He. apply Qabs_zero_iff. exact He.
    + intros H. apply Qsum_all_zero. apply Forall_map.
      eapply List.Forall_impl; [|exact H].
      intros e He. apply Qabs_zero_iff. exact He.
Qed.

(** * More on the normalization *)

Lemma Qmin_list_le (l : list Q) (x : Q) : In x l -> (Qmin_list l <= x)%Q.
Proof.
  destruct l as [|a t]; [contradiction|]. simpl.
  assert (H : forall t a,
             (fold_left (fun m y => if Qle_bool y m then y else m) t a <= a)%Q
             /\ forall y, In y t ->
                  (fold_left (fun m y => if Qle_bool y m then y else m) t a <= y)%Q).
  { clear. induction t as [|b t IH]; intros a; simpl.
    - split; [apply Qle_refl | contradiction].
    - destruct (Qle_bool b a) eqn:E.
      + apply Qle_bool_true in E. destruct (IH b) as [H1 H2]. split.
        * eapply Qle_trans; eassumption.
        * intros y [<-|Hy]; [exact H1 | apply H2; exact Hy].
      + apply Qle_bool_false in E. destruct (IH a) as [H1 H2]. split.
        * exact H1.
        * intros y [<-|Hy]; [|apply H2; exact Hy].
          eapply Qle_trans; [exact H1|]. apply Qlt_le_weak. exact E. }
  destruct (H t a) as [H1 H2]. intros [<-|Hx]; [exact H1 | apply H2; exact Hx].
Qed.

Lemma Qmax_list_ge (l : list Q) (x : Q) : In x l -> (x <= Qmax_list l)%Q.
Proof.
  destruct l as [|a t]; [contradiction|]. simpl.
  assert (H : forall t a,
             (a <= fold_left (fun m y => if Qle_bool m y then y else m) t a)%Q
             /\ forall y, In y t ->
                  (y <= fold_left (fun m y => if Qle_bool m y then y else m) t a)%Q).
  { clear. induction t as [|b t IH]; intros a; simpl.
    - split; [apply Qle_refl | contradiction].
    - destruct (Qle_bool a b) eqn:E.
      + apply Qle_bool_true in E. destruct (IH b) as [H1 H2]. split.
        * eapply Qle_trans; eassumption.
        * intros y [<-|Hy]; [exact H1 | apply H2; exact Hy].
      + apply Qle_bool_false in E. destruct (IH a) as [H1 H2]. split.
        * exact H1.
        * intros y [<-|Hy]; [|apply H2; exact Hy].
          eapply Qle_trans; [|exact H1]. apply Qlt_le_weak. exact E. }
  destruct (H t a) as [H1 H2]. intros [<-|Hx]; [exact H1 | apply H2; exact Hx].
Qed.

Lemma user_group_In (df : DataFrame) (r : RatingRecord) :
  In r df -> In (rating r) (user_group df r).
Proof.
  intros Hr. unfold user_group. apply in_map. apply rows_of_user_In.
  split; [exact Hr | reflexivity].
Qed.

Lemma user_group_length (df : DataFrame) (r : RatingRecord) :
  length (user_group df r) = length (rows_of_user (user_id r) df).
Proof. unfold user_group. apply length_map. Qed.

Section NormalizationFacts.

Variable sqrt : Q -> Q.

(** X5.  [normalize_ratings_per_user] raises exactly for a method other
    than the three it knows.  Otherwise it returns the rows of the table
    unchanged and in order, each with its normalized value; that value is
    NaN exactly for the rows of a user with a single rating under
    [z_score]. *)
Theorem normalize_ratings_structure (df : DataFrame) (method : string) :
  match normalize_ratings_per_user sqrt df method with
  | Error e =>
      e = UnknownMethod method
      /\ method <> "mean_center"%string /\ method <> "z_score"%string
      /\ method <> "min_max"%string
  | Ok ndf =>
      (method = "mean_center"%string \/ method = "z_score"%string
       \/ method = "min_max"%string)
      /\ map fst ndf = df
      /\ forall r v, In (r, v) ndf ->
           (v = None <->
            method = "z_score"%string
            /\ length (rows_of_user (user_id r) df) = 1%nat)
  end.
Proof.
  unfold normalize_ratings_per_user.
  destruct (String.eqb method "mean_center") eqn:E1.
  { apply String.eqb_eq in E1. subst. split; [auto|]. split.
    - rewrite map_map. simpl. apply map_id.
    - intros r v Hin. apply in_map_iff in Hin. destruct Hin as [r' [[= <- <-] _]].
      split; [discriminate | intros [H _]; discriminate]. }
  destruct (String.eqb method "z_score") eqn:E2.
  { apply String.eqb_eq in E2. subst. split; [auto|]. split.
    - rewrite map_map. simpl. apply map_id.
    - intros r v Hin. apply in_map_iff in Hin.
      destruct Hin as [r' [[= <- <-] Hr]].
      pose proof (user_group_In df r' Hr) as Hg.
      pose proof (user_group_length df r') as Hl.
      unfold std. destruct (length (user_group df r') <? 2)%nat eqn:El; simpl.
      + apply Nat.ltb_lt in El. split; [|reflexivity]. intros _.
        split; [reflexivity|]. destruct (user_group df r'); [contradiction|].
        simpl in *. lia.
      + apply Nat.ltb_ge in El.
        destruct (Qeq_bool _ 0); (split; [discriminate|]); intros [_ H]; lia. }
  destruct (String.eqb method "min_max") eqn:E3.
  { apply String.eqb_eq in E3. subst. split; [auto|]. split.
    - rewrite map_map. simpl. apply map_id.
    - intros r v Hin. apply in_map_iff in Hin. destruct Hin as [r' [[= <- <-] _]].
      simpl. destruct (Qeq_bool _ 0); (split; [discriminate|]);
        intros [H _]; discriminate. }
  apply String.eqb_neq in E1, E2, E3. repeat split; assumption.
Qed.




(** X7.  Under [min_max] every normalized rating is a number of [0, 1];
    a rating equal to the user's minimum is sent to 0 and, for a user
    whose ratings differ, a rating equal to the maximum is sent to 1. *)
Theorem min_max_unit_interval (df : DataFrame) (ndf : NormalizedFrame)
    (r : RatingRecord) (v : float) :
  normalize_ratings_per_user sqrt df "min_max" = Ok ndf ->
  In (r, v) ndf ->
  exists x,
    v = Some x
    /\ (0 <= x /\ x <= 1)%Q
    /\ ((rating r == Qmin_list (user_group df r))%Q -> (x == 0)%Q)
    /\ (~ (Qmax_list (user_group df r) == Qmin_list (user_group df r))%Q ->
        (rating r == Qmax_list (user_group df r))%Q -> (x == 1)%Q).
Proof.
  unfold normalize_ratings_per_user. simpl. intros [= <-] Hin.
  apply in_map_iff in Hin. destruct Hin as [r' [[= <- <-] Hr]].
  pose proof (user_group_In df r' Hr) as Hg.
  pose proof (Qmin_list_le _ _ Hg) as Hmin.
  pose proof (Qmax_list_ge _ _ Hg) as Hmax.
  set (lo := Qmin_list (user_group df r')) in *.
  set (hi := Qmax_list (user_group df r')) in *.
  destruct (Qeq_bool (hi - lo) 0) eqn:E; simpl; eexists; (split; [reflexivity|]).
  - apply Qeq_bool_true in E.
    assert (Hz : ((rating r' - lo) / 1 == 0)%Q) by (field_simplify; lra).
    rewrite Hz. repeat split; lra.
  - assert (Hpos : (0 < hi - lo)%Q).
    { destruct (Qlt_le_dec 0 (hi - lo)) as [H|H]; [exact H|].
      assert (Hz : (hi - lo == 0)%Q) by lra.
      apply Qeq_bool_true in Hz. congruence. }
    split; [split|split].
    + apply Qle_shift_div_l; [exact Hpos|]. lra.
    + apply Qle_shift_div_r; [exact Hpos|]. lra.
    + intros H. rewrite H. field. lra.
    + intros _ H. rewrite H. field. lra.
Qed.


End NormalizationFacts.

(** * Sparsity *)







(** * The best of the popular items *)

Lemma StronglySorted_app_cross {A : Type} (R : A -> A -> Prop)
    (l l' : list A) (a b : A) :
  StronglySorted R (l ++ l') -> In a l -> In b l' -> R a b.
Proof.
  induction l as [|x t IH]; simpl; [contradiction|].
  intros Hs [<-|Ha] Hb; inversion Hs as [|? ? Hs' Hall]; subst.
  - rewrite List.Forall_forall in Hall. apply Hall, in_or_app. right; exact Hb.
  - apply IH; assumption.
Qed.

(** X10.  [get_popular_items] returns the best: for [0 <= n], a product
    with at least [min_ratings] ratings that is not returned has a mean
    rating no higher than the score of any returned row, and it is left
    out only when [n] rows were returned. *)
Theorem popular_items_are_the_best (df : DataFrame) (n min_ratings p : Z) :
  0 <= n ->
  In p (map product_id df) ->
  min_ratings <= Z.of_nat (length (rows_of_product p df)) ->
  ~ In p (map rec_product_id (get_popular_items df n min_ratings)) ->
  Z.of_nat (length (get_popular_items df n min_ratings)) = n
  /\ forall row, In row (get_popular_items df n min_ratings) ->
       (mean (map rating (rows_of_product p df)) <= score row)%Q.
Proof.
  intros Hn Hp Hc Hnot. rewrite get_popular_items_ranking in *.
  rewrite head_nonneg in * by exact Hn.
  set (ranking := popular_ranking df min_ratings) in *.
  set (prow := mkRec p (mean (map rating (rows_of_product p df)))
                     (Some (mean (map rating (rows_of_product p df))))).
  assert (Hin : In prow ranking).
  { apply popular_ranking_In. simpl. repeat split; assumption. }
  rewrite <- (firstn_skipn (Z.to_nat n) ranking) in Hin.
  apply in_app_or in Hin. destruct Hin as [Hin|Hin].
  { exfalso. apply Hnot. apply in_map_iff. exists prow. split; [reflexivity | exact Hin]. }
  split.
  - rewrite length_firstn.
    assert (Hlen : (Z.to_nat n < length ranking)%nat).
    { destruct (Nat.lt_ge_cases (Z.to_nat n) (length ranking)) as [H|H]; [exact H|].
      rewrite skipn_all2 in Hin by exact H. contradiction. }
    lia.
  - intros row Hrow.
    pose proof (popular_ranking_sorted df min_ratings) as Hs. fold ranking in Hs.
    rewrite <- (firstn_skipn (Z.to_nat n) ranking) in Hs.
    apply (StronglySorted_app_cross by_score _ _ row prow Hs Hrow Hin).
Qed.

(** * Top products of a time window *)

Lemma sort_values_desc_map {A B : Type} (h : A -> B) (key : A -> Q)
    (key' : B -> Q) (l : list A) :
  (forall x, key' (h x) = key x) ->
  map h (sort_values_desc key l) = sort_values_desc key' (map h l).
Proof.
  intros Hk. induction l as [|x t IH]; [reflexivity|].
  simpl. rewrite <- IH. generalize (sort_values_desc key t). clear IH.
  intros s. induction s as [|y s IHs]; [reflexivity|].
  simpl. rewrite !Hk. destruct (Qle_bool (key y) (key x)); simpl;
    [reflexivity | rewrite IHs; reflexivity].
Qed.

(** The rows of [get_top_n_products] are those of [get_popular_items]
    on the window. *)
Lemma top_rows_of_popular (window : DataFrame) (n : Z) :
  map (fun t => (top_product_id t, avg_rating t))
      (head n
         (sort_values_desc avg_rating
            (List.filter (fun x => 5 <=? top_rating_count x)
               (map (fun p =>
                       mkTop p (mean (map rating (rows_of_product p window)))
                         (Z.of_nat (length (map rating
                                              (rows_of_product p window)))))
                    (sorted_unique (map product_id window))))))
  = map (fun r => (rec_product_id r, score r)) (get_popular_items window n 5).
Proof.
  unfold get_popular_items. cbv zeta.
  rewrite !map_head, map_map. f_equal. simpl.
  rewrite (sort_values_desc_map
                (fun x : Z * Q * Z => (fst (fst x), snd (fst x)))
                (fun x => snd (fst x)) snd) by reflexivity.
  rewrite (sort_values_desc_map
                (fun t => (top_product_id t, avg_rating t))
                avg_rating snd) by reflexivity.
  f_equal. rewrite !filter_map_comm, !map_map. simpl. reflexivity.
Qed.

Lemma window_of_idem (cutoff : Z) (df : DataFrame) :
  window_of cutoff (window_of cutoff df) = window_of cutoff df.
Proof. apply filter_idem. Qed.

Lemma window_of_all (cutoff : Z) (df : DataFrame) :
  (forall r, In r df -> cutoff <= timestamp r) -> window_of cutoff df = df.
Proof.
  intros H. unfold window_of. apply forallb_filter_id. apply forallb_forall.
  intros r Hr. apply Z.leb_le. apply H. exact Hr.
Qed.

(** X11.  When [get_top_n_products] returns, the cutoff is [days] days
    before now and only the ratings from the cutoff on count: the rows
    are those of the table cut to the window; every returned product has
    at least five ratings in the window and is listed with their number
    and their mean; no product is listed twice, the means never increase
    along the rows, and for [0 <= n] there are at most [n] rows. *)
Theorem get_top_n_products_window (now : Z) (df : DataFrame) (days n : Z)
    (rows : list TopProduct) :
  get_top_n_products now df days n = Returns rows ->
  let cutoff := now - days * microseconds_per_day in
  let window := window_of cutoff df in
  get_top_n_products now window days n = Returns rows
  /\ (forall t, In t rows ->
        top_rating_count t
        = Z.of_nat (length (rows_of_product (top_product_id t) window))
        /\ 5 <= top_rating_count t
        /\ avg_rating t
           = mean (map rating (rows_of_product (top_product_id t) window)))
  /\ NoDup (map top_product_id rows)
  /\ StronglySorted (fun a b => (avg_rating b <= avg_rating a)%Q) rows
  /\ (0 <= n -> Z.of_nat (length rows) <= n).
Proof.
  unfold get_top_n_products, cutoff_of.
  destruct ((days <? - timedelta_max_days) || (timedelta_max_days <? days));
    [discriminate|].
  set (cutoff := now - days * microseconds_per_day).
  destruct ((cutoff <? 0) || (datetime_max <? cutoff)); [discriminate|].
  intros [= <-]. simpl. split; [|split; [|split; [|split]]].
  - rewrite window_of_idem. reflexivity.
  - intros t Ht. apply head_incl in Ht. apply sort_values_desc_In in Ht.
    apply filter_In in Ht. destruct Ht as [Ht Hc]. apply Z.leb_le in Hc.
    apply in_map_iff in Ht. destruct Ht as [p [<- _]]. simpl in *.
    rewrite length_map in *. repeat split; [exact Hc].
  - apply NoDup_map_ranked. apply NoDup_map_filter.
    rewrite map_map. simpl. rewrite map_id. apply sorted_unique_NoDup.
  - apply head_StronglySorted. apply (sort_values_desc_sorted avg_rating).
  - intros Hn. apply head_length. exact Hn.
Qed.

(** X12.  [get_top_n_products] is [get_popular_items] with its floor of
    five ratings on the time window: the same products with the same
    mean ratings in the same order; on a table whose records all lie in
    the window, it agrees with [get_popular_items] on the table itself. *)
Theorem get_top_n_products_is_popular (now : Z) (df : DataFrame) (days n : Z)
    (rows : list TopProduct) :
  get_top_n_products now df days n = Returns rows ->
  let cutoff := now - days * microseconds_per_day in
  map (fun t => (top_product_id t, avg_rating t)) rows
  = map (fun r => (rec_product_id r, score r))
        (get_popular_items (window_of cutoff df) n 5)
  /\ ((forall r, In r df -> cutoff <= timestamp r) ->
      map (fun t => (top_product_id t, avg_rating t)) rows
      = map (fun r => (rec_product_id r, score r)) (get_popular_items df n 5)).
Proof.
  unfold get_top_n_products, cutoff_of.
  destruct ((days <? - timedelta_max_days) || (timedelta_max_days <? days));
    [discriminate|].
  set (cutoff := now - days * microseconds_per_day).
  destruct ((cutoff <? 0) || (datetime_max <? cutoff)); [discriminate|].
  intros [= <-]. cbv zeta.
  pose proof (top_rows_of_popular (window_of cutoff df) n) as H.
  split; [exact H|]. intros Hall.
  rewrite H, (window_of_all cutoff df Hall). reflexivity.
Qed.

(** * More on recommend_for_user *)

Section RecommendMore.

Variable sqrt : Q -> Q.

Lemma normalize_rows (df : DataFrame) (method : string) (ndf : NormalizedFrame)
    (r : RatingRecord) :
  normalize_ratings_per_user sqrt df method = Ok ndf ->
  In r df -> exists v, In (r, v) ndf.
Proof.
  unfold normalize_ratings_per_user.
  destruct (String.eqb method "mean_center");
    [|destruct (String.eqb method "z_score");
      [|destruct (String.eqb method "min_max"); [|discriminate]]];
    intros [= <-] Hr; eexists; apply in_map_iff; exists r;
    (split; [reflexivity | exact Hr]).
Qed.

(** X13.  [recommend_for_user] never makes a product up: every product
    it returns occurs in the rating table. *)
Theorem recommended_products_are_known (df : DataFrame) (user n : Z) (ms : Q)
    (un : bool) (method : string) (mci : Z) (rows : list Recommendation) :
  recommend_for_user sqrt df user n ms un method mci = Ok rows ->
  forall row, In row rows -> In (rec_product_id row) (map product_id df).
Proof.
  intros Hrec row Hrow. apply recommend_for_user_ok in Hrec.
  destruct Hrec as (_ & matrix & sim_df & ur & Hm & _ & _ & Hcase).
  destruct Hcase as [[_ ->]|[_ (acc & scores & est & -> & -> & _ & ->)]].
  - rewrite get_popular_items_ranking in Hrow. apply head_incl in Hrow.
    apply popular_ranking_In in Hrow. tauto.
  - assert (Hk : In (rec_product_id row)
                    (map rec_product_id
                       (scored_rows est n
                          (normalize_scores
                             (fst (accumulate (columns matrix) ur ms sim_df
                                              (rated_items_of matrix ur)))
                             (snd (accumulate (columns matrix) ur ms sim_df
                                              (rated_items_of matrix ur)))))))
      by (apply in_map; exact Hrow).
    apply scored_rows_keys in Hk. rewrite keys_normalize_scores in Hk.
    pose proof (accumulate_inv (columns matrix) ur ms sim_df
                  (rated_items_of matrix ur)) as (_ & _ & Hall).
    rewrite List.Forall_forall in Hall. destruct (Hall _ Hk) as [Hcol _].
    destruct (user_item_matrix_ok sqrt df un method matrix Hm)
      as (cells & Hcells & ->).
    apply pivot_columns_In in Hcol. destruct Hcol as (u & v & Hc).
    destruct (rating_cells_In sqrt df un method cells u _ v Hcells Hc)
      as (r & Hr & _ & Hp).
    rewrite <- Hp. apply in_map. exact Hr.
Qed.

Lemma index_In (cells : Cells) (u p : Z) (v : Q) :
  In (u, p, Some v) cells -> In u (index (fillna 0 (pivot_table cells))).
Proof.
  intros H. simpl. apply sorted_unique_In.
  change u with (cell_user (u, p, Some v)). apply in_map.
  apply filter_In. split; [exact H | reflexivity].
Qed.

Lemma index_In_inv (cells : Cells) (u : Z) :
  In u (index (fillna 0 (pivot_table cells))) ->
  exists p v, In (u, p, Some v) cells.
Proof.
  simpl. rewrite sorted_unique_In, in_map_iff.
  intros [[[u' p] [v|]] [Hu Hc]]; apply filter_In in Hc; destruct Hc as [Hc Hn];
    unfold not_nan, cell_value in Hn; simpl in Hn; [|discriminate].
  unfold cell_user in Hu; simpl in Hu. subst. exists p, v. exact Hc.
Qed.

(** Once the user's row is in the matrix, nothing fails any more. *)
Lemma recommend_for_user_returns (df : DataFrame) (user n : Z) (ms : Q)
    (un : bool) (method : string) (mci : Z) (cells : Cells) :
  In user (map user_id df) ->
  rating_cells sqrt df un method = Ok cells ->
  In user (index (fillna 0 (pivot_table cells))) ->
  exists rows, recommend_for_user sqrt df user n ms un method mci = Ok rows.
Proof.
  intros Hu Hcells Hidx. unfold recommend_for_user.
  apply has_user_In in Hu as Hhas. rewrite Hhas. simpl negb. cbv iota.
  unfold user_item_matrix. rewrite Hcells. bind_step.
  destruct (cosine_similarity_total sqrt cells user Hidx) as [sim_df ->].
  bind_step. unfold loc.
  assert (He : existsb (Z.eqb user) (index (fillna 0 (pivot_table cells))) = true)
    by (apply existsb_eqb_In; exact Hidx).
  rewrite He. bind_step.
  destruct (length _ =? 0)%nat; [eauto|].
  destruct (normalize_scores _ _); [eauto|].
  destruct (estimate_total sqrt df user un method Hu) as [est ->]. bind_step.
  eauto.
Qed.

(** X14.  On the raw ratings, and on mean-centered or min-max normalized
    ratings, [recommend_for_user] returns for every user of the table. *)
Theorem recommend_for_user_total (df : DataFrame) (user n : Z) (ms : Q)
    (un : bool) (method : string) (mci : Z) :
  In user (map user_id df) ->
  un = false \/ method = "mean_center"%string \/ method = "min_max"%string ->
  exists rows, recommend_for_user sqrt df user n ms un method mci = Ok rows.
Proof.
  intros Hu Hcase.
  assert (Hcells : exists cells,
             rating_cells sqrt df un method = Ok cells
             /\ forall r, In r df ->
                  exists v, In (user_id r, product_id r, Some v) cells).
  { unfold rating_cells. destruct un.
    - destruct Hcase as [H|[->| ->]]; [discriminate| |];
        unfold normalize_ratings_per_user; simpl; bind_step;
        eexists; (split; [reflexivity|]); intros r Hr; rewrite map_map; simpl.
      + eexists. apply in_map_iff. exists r. split; [reflexivity | exact Hr].
      + destruct (Qeq_bool (Qmax_list (user_group df r)
                            - Qmin_list (user_group df r)) 0) eqn:E;
          eexists; apply in_map_iff; exists r; rewrite E;
          (split; [reflexivity | exact Hr]).
    - eexists. split; [reflexivity|]. intros r Hr. eexists.
      apply in_map_iff. exists r. split; [reflexivity | exact Hr]. }
  destruct Hcells as (cells & Hcells & Hall).
  apply in_map_iff in Hu as Hu'. destruct Hu' as [r [Hru Hr]].
  destruct (Hall r Hr) as [v Hv]. rewrite Hru in Hv.
  eapply recommend_for_user_returns; [exact Hu | exact Hcells|].
  eapply index_In. exact Hv.
Qed.

(** Under z-score the cell of a record of a user with two ratings is a
    number. *)
Lemma z_score_cell_of_row (df : DataFrame) (cells : Cells) (r : RatingRecord) :
  rating_cells sqrt df true "z_score" = Ok cells ->
  In r df ->
  (2 <= length (rows_of_user (user_id r) df))%nat ->
  exists v, In (user_id r, product_id r, Some v) cells.
Proof.
  intros Hcells Hr Hlen. revert Hcells. unfold rating_cells.
  destruct (normalize_ratings_per_user sqrt df "z_score") as [ndf|e] eqn:E;
    bind_step; [|discriminate].
  intros [= <-].
  destruct (normalize_rows df "z_score" ndf r E Hr) as [v Hv].
  destruct (normalize_In sqrt df "z_score" ndf r v E Hv) as (_ & _ & Hz).
  specialize (Hz eq_refl). revert Hz. unfold std.
  rewrite user_group_length.
  destruct (length (rows_of_user (user_id r) df) <? 2)%nat eqn:El;
    [apply Nat.ltb_lt in El; lia|].
  intros Hz.
  assert (Hs : exists q, v = Some q).
  { rewrite Hz. unfold replace_0_1.
    destruct (Qeq_bool (sqrt (variance (user_group df r))) 0);
      eexists; reflexivity. }
  destruct Hs as [q ->]. exists q.
  apply in_map_iff. exists (r, Some q). split; [reflexivity | exact Hv].
Qed.

(** X15.  With z-score normalization [recommend_for_user] returns for a
    user with at least two ratings.  For a user with a single rating it
    fails: with the [KeyError] of the row lookup when some user of the
    table has two ratings, and with scikit-learn's error on an empty
    array when no user has. *)
Theorem recommend_for_user_z_score (df : DataFrame) (user n : Z) (ms : Q)
    (mci : Z) :
  In user (map user_id df) ->
  ((2 <= length (rows_of_user user df))%nat ->
   exists rows,
     recommend_for_user sqrt df user n ms true "z_score" mci = Ok rows)
  /\ (length (rows_of_user user df) = 1%nat ->
      ((exists u, (2 <= length (rows_of_user u df))%nat) ->
       recommend_for_user sqrt df user n ms true "z_score" mci
       = Error (KeyError user))
      /\ ((forall u, (length (rows_of_user u df) <= 1)%nat) ->
          recommend_for_user sqrt df user n ms true "z_score" mci
          = Error EmptyArray)).
Proof.
  intros Hu.
  assert (Hcells : exists cells, rating_cells sqrt df true "z_score" = Ok cells).
  { unfold rating_cells, normalize_ratings_per_user. simpl. bind_step. eauto. }
  destruct Hcells as [cells Hcells]. split.
  - intros Hlen. eapply recommend_for_user_returns; [exact Hu | exact Hcells|].
    apply in_map_iff in Hu. destruct Hu as [r [Hru Hr]].
    destruct (z_score_cell_of_row df cells r Hcells Hr) as [v Hv];
      [rewrite Hru; exact Hlen|].
    rewrite Hru in Hv. eapply index_In. exact Hv.
  - intros Hlen.
    assert (Hnot : ~ In user (index (fillna 0 (pivot_table cells)))).
    { intros Hidx. apply index_In_inv in Hidx. destruct Hidx as (p & v & Hc).
      destruct (z_score_cell_std sqrt df cells user p v Hcells Hc) as [s Hs].
      unfold std in Hs. rewrite length_map, Hlen in Hs. discriminate. }
    assert (Hstart : recommend_for_user sqrt df user n ms true "z_score" mci
                     = (sim_df ← cosine_similarity sqrt
                                  (fillna 0 (pivot_table cells));
                        Error (KeyError user))).
    { unfold recommend_for_user.
      apply has_user_In in Hu. rewrite Hu. simpl negb. cbv iota.
      unfold user_item_matrix. rewrite Hcells. bind_step.
      destruct (cosine_similarity sqrt (fillna 0 (pivot_table cells)))
        as [sim_df|e]; bind_step; [|reflexivity].
      unfold loc.
      destruct (existsb (Z.eqb user) (index (fillna 0 (pivot_table cells))))
        eqn:E; [apply existsb_eqb_In in E; contradiction|].
      reflexivity. }
    rewrite Hstart. unfold cosine_similarity. split.
    + intros [u Hu2].
      destruct (rows_of_user u df) as [|r t] eqn:Er; [simpl in Hu2; lia|].
      assert (Hr : In r (rows_of_user u df)) by (rewrite Er; left; reflexivity).
      apply rows_of_user_In in Hr. destruct Hr as [Hr Hru].
      destruct (z_score_cell_of_row df cells r Hcells Hr) as [v Hv];
        [rewrite Hru, Er; exact Hu2|].
      pose proof (index_In cells _ _ _ Hv) as Hi.
      assert (Hc : In (product_id r) (columns (fillna 0 (pivot_table cells)))).
      { apply pivot_columns_In. eauto. }
      destruct (index (fillna 0 (pivot_table cells))); [contradiction|].
      destruct (columns (fillna 0 (pivot_table cells))); [contradiction|].
      reflexivity.
    + intros Hall.
      destruct (index (fillna 0 (pivot_table cells))) as [|u t] eqn:Ei;
        [reflexivity|].
      exfalso.
      assert (Hi : In u (index (fillna 0 (pivot_table cells))))
        by (rewrite Ei; left; reflexivity).
      apply index_In_inv in Hi. destruct Hi as (p & v & Hc).
      destruct (z_score_cell_std sqrt df cells u p v Hcells Hc) as [s Hs].
      unfold std in Hs. rewrite length_map in Hs. specialize (Hall u).
      destruct (length (rows_of_user u df) <? 2)%nat eqn:El; [discriminate|].
      apply Nat.ltb_ge in El. lia.
Qed.

End RecommendMore.

(** * The raw matrix and its similarities *)

Lemma Qsum_map_ext {A : Type} (f g : A -> Q) (l : list A) :
  (forall x, In x l -> (f x == g x)%Q) ->
  (Qsum (map f l) == Qsum (map g l))%Q.
Proof.
  induction l as [|a t IH]; intros H; simpl; [reflexivity|].
  rewrite (H a (or_introl eq_refl)), IH; [reflexivity|].
  intros x Hx. apply H. right; exact Hx.
Qed.

Lemma Qsum_map_zero {A : Type} (f : A -> Q) (l : list A) :
  (forall x, In x l -> (f x == 0)%Q) -> (Qsum (map f l) == 0)%Q.
Proof.
  induction l as [|a t IH]; intros H; simpl; [reflexivity|].
  rewrite (H a (or_introl eq_refl)), IH; [ring|].
  intros x Hx. apply H. right; exact Hx.
Qed.

(** Sums of the scoring loop over contributors with positive similarity
    and values between [lo] and [hi]. *)
Lemma weighted_sum_bounds (lo hi : Q) (f g : Z -> Q) (l : list Z) :
  (forall x, In x l -> (0 < f x)%Q /\ (lo <= g x)%Q /\ (g x <= hi)%Q) ->
  (lo * Qsum (map (fun x => Qabs (f x)) l)
   <= Qsum (map (fun x => (f x * g x)%Q) l))%Q
  /\ (Qsum (map (fun x => (f x * g x)%Q) l)
      <= hi * Qsum (map (fun x => Qabs (f x)) l))%Q
  /\ (0 <= Qsum (map (fun x => Qabs (f x)) l))%Q
  /\ (l <> [] -> (0 < Qsum (map (fun x => Qabs (f x)) l))%Q).
Proof.
  induction l as [|a t IH]; intros H.
  - simpl. repeat split; try lra. congruence.
  - destruct (H a (or_introl eq_refl)) as (Hf & Hlo & Hhi).
    destruct IH as (I1 & I2 & I3 & _).
    { intros x Hx. apply H. right; exact Hx. }
    cbn [map Qsum fold_right]. fold (Qsum (map (fun x => Qabs (f x)) t)).
    fold (Qsum (map (fun x => (f x * g x)%Q) t)).
    rewrite (Qabs_pos (f a)) by lra.
    set (W := Qsum (map (fun x => Qabs (f x)) t)) in *.
    set (S := Qsum (map (fun x => (f x * g x)%Q) t)) in *.
    clearbody W S. repeat split; try nra; try (intros _; lra).
Qed.

(** With a positive similarity threshold, every normalized score lies
    between any bounds that hold for the positive cells of the user's
    row. *)
Lemma scores_within_cells (cols : list Z) (ur : Z -> Q) (ms : Q)
    (sim_df : Z -> Z -> Q) (rated : list Z) (lo hi : Q) (o : Z) (s : Q) :
  NoDup cols -> (0 < ms)%Q ->
  (forall p, In p rated -> (lo <= ur p)%Q /\ (ur p <= hi)%Q) ->
  let acc := accumulate cols ur ms sim_df rated in
  In (o, s) (normalize_scores (fst acc) (snd acc)) ->
  (lo <= s)%Q /\ (s <= hi)%Q.
Proof.
  intros Hnd Hms Hcell acc Hin.
  pose proof (accumulate_inv cols ur ms sim_df rated) as (_ & Hnodup & _).
  apply normalize_scores_In in Hin. destruct Hin as [a [Hin ->]].
  apply (dict_get_In_NoDup o a _ Hnodup) in Hin.
  pose proof (accumulators_spec cols ur ms sim_df rated o Hnd) as Hspec.
  cbv zeta in Hspec. fold acc in Hspec, Hin.
  destruct (is_candidate cols ur ms sim_df rated o) eqn:Ecand.
  2:{ destruct Hspec as [H1 _]. congruence. }
  destruct Hspec as [H1 H2]. rewrite Hin in H1. simpl in H1.
  destruct (dict_get o (snd acc)) as [w|]; [|contradiction]. simpl in H2.
  unfold is_candidate in Ecand. apply andb_true_iff in Ecand.
  destruct Ecand as [_ Hne].
  destruct (weighted_sum_bounds lo hi (sim_df o) ur
              (contributors ms sim_df rated o)) as (B1 & B2 & _ & B4).
  { intros x Hx. apply filter_In in Hx. destruct Hx as [Hx Hc].
    apply andb_true_iff in Hc. destruct Hc as [_ Hc].
    apply Qle_bool_true in Hc. split; [lra|]. apply Hcell. exact Hx. }
  assert (Hw : (0 < w)%Q).
  { rewrite H2. apply B4. destruct (contributors ms sim_df rated o);
      [discriminate | discriminate]. }
  fold (spec_score ur ms sim_df rated o) in B1, B2.
  fold (spec_weight ms sim_df rated o) in B1, B2.
  rewrite <- H1, <- H2 in B1, B2.
  assert (Ew : Qlt_bool 0 w = true) by (apply Qlt_bool_true; exact Hw).
  rewrite Ew. split.
  - apply Qle_shift_div_l; assumption.
  - apply Qle_shift_div_r; assumption.
Qed.

Lemma scored_rows_In (est : Q -> float) (n : Z) (scores : dict)
    (row : Recommendation) :
  In row (scored_rows est n scores) ->
  In (rec_product_id row, score row) scores
  /\ estimated_rating row = clip (1 # 2) 5 (est (score row)).
Proof.
  unfold scored_rows. intros H. apply in_map_iff in H.
  destruct H as [[o s] [<- Hin]]. cbn [fst snd rec_product_id score
                                       estimated_rating].
  apply head_incl in Hin. apply sort_values_desc_In in Hin.
  split; [exact Hin | reflexivity].
Qed.


Section RawMatrix.

Variable sqrt : Q -> Q.

(** X16.  On raw ratings the matrix has the users and the products of
    the table as rows and columns; with positive ratings a cell is zero
    exactly when the user has no rating of the product, and when every
    (user, product) pair occurs once the cell of a row is its rating. *)
Theorem raw_matrix_cells (df : DataFrame) (method : string) :
  (forall r, In r df -> (0 < rating r)%Q) ->
  exists matrix,
    user_item_matrix sqrt df false method = Ok matrix
    /\ index matrix = sorted_unique (map user_id df)
    /\ columns matrix = sorted_unique (map product_id df)
    /\ (forall u p,
          (at_ matrix u p == 0)%Q <->
          ~ exists r, In r df /\ user_id r = u /\ product_id r = p)
    /\ (NoDup (map (fun r => (user_id r, product_id r)) df) ->
        forall r, In r df ->
          (at_ matrix (user_id r) (product_id r) == rating r)%Q).
Proof.
  intros Hpos. eexists. split; [reflexivity|].
  set (cells := map (fun r => (user_id r, product_id r, Some (rating r))) df).
  split; [|split; [|split]].
  - simpl. f_equal. unfold cells.
    rewrite forallb_filter_id.
    2:{ apply forallb_forall. intros c Hc. apply in_map_iff in Hc.
        destruct Hc as [r [<- _]]. reflexivity. }
    rewrite map_map. reflexivity.
  - simpl. f_equal. unfold cells.
    rewrite forallb_filter_id.
    2:{ apply forallb_forall. intros c Hc. apply in_map_iff in Hc.
        destruct Hc as [r [<- _]]. reflexivity. }
    rewrite map_map. reflexivity.
  - intros u p. split.
    + intros Hz (r & Hr & <- & <-).
      destruct (raw_cell_positive sqrt df method r
                  (fillna 0 (pivot_table cells)) Hpos eq_refl Hr) as [_ Hlt].
      rewrite Hz in Hlt. apply (Qlt_irrefl 0). exact Hlt.
    + intros Hno. rewrite at_fillna_pivot.
      destruct (group_values cells u p) as [|v vs] eqn:E; [reflexivity|].
      exfalso. apply Hno.
      assert (Hv : In v (group_values cells u p))
        by (rewrite E; left; reflexivity).
      apply group_values_In in Hv. unfold cells in Hv. apply in_map_iff in Hv.
      destruct Hv as [r [Heq Hr]]. injection Heq as Hu Hp _.
      exists r. repeat split; assumption.
  - intros Hnd r Hr. rewrite at_fillna_pivot. unfold cells.
    rewrite group_values_raw.
    rewrite (filter_single _ df r Hr).
    + cbn [map]. apply mean_single.
    + rewrite !Z.eqb_refl. reflexivity.
    + intros y Hy Hf. apply andb_true_iff in Hf. destruct Hf as [Hu Hp].
      apply Z.eqb_eq in Hu, Hp.
      assert (Hpair : (user_id y, product_id y) = (user_id r, product_id r))
        by (rewrite Hu, Hp; reflexivity).
      clear Hu Hp Hpos. induction df as [|a t IH]; [contradiction|].
      cbn [map] in Hnd. inversion Hnd as [|? ? Ha Ht]; subst.
      destruct Hy as [->|Hy]; destruct Hr as [->|Hr]; try reflexivity.
      * exfalso. apply Ha. rewrite Hpair.
        apply (in_map (fun r => (user_id r, product_id r))). exact Hr.
      * exfalso. apply Ha. rewrite <- Hpair.
        apply (in_map (fun r => (user_id r, product_id r))). exact Hy.
      * apply IH; assumption.
    + apply (NoDup_map_inv (fun r => (user_id r, product_id r))). exact Hnd.
Qed.

(** X17.  [cosine_similarity] fails exactly on a matrix without rows or
    without columns.  The similarity it returns is symmetric, and zero for
    two products that no user has both a non-zero cell for. *)
Theorem cosine_similarity_symmetric (m : Table Q) :
  match cosine_similarity sqrt m with
  | Error e => e = EmptyArray /\ (index m = [] \/ columns m = [])
  | Ok sim =>
      index m <> [] /\ columns m <> []
      /\ (forall p q, (sim p q == sim q p)%Q)
      /\ (forall p q,
            (forall u, In u (index m) ->
                       (at_ m u p == 0)%Q \/ (at_ m u q == 0)%Q) ->
            (sim p q == 0)%Q)
  end.
Proof.
  unfold cosine_similarity.
  destruct (index m) as [|u us] eqn:Ei; [split; [reflexivity | left; reflexivity]|].
  destruct (columns m) as [|c cs] eqn:Ec;
    [split; [reflexivity | right; reflexivity]|].
  split; [discriminate|]. split; [discriminate|]. split.
  - intros p q. apply Qsum_map_ext. intros x _. apply Qmult_comm.
  - intros p q H. apply Qsum_map_zero. intros x Hx.
    destruct (H x Hx) as [H0|H0]; rewrite H0; unfold Qdiv; ring.
Qed.


End RawMatrix.

(** * More on split_train_test *)

Section SplitSizes.

Variable permutation : Z -> nat -> list nat.

Lemma train_test_split_lengths {A : Type} (data : list A) (test_size : Q)
    (seed : Z) (tr te : list A) :
  shuffles permutation seed ->
  train_test_split permutation data test_size seed = Ok (tr, te) ->
  length te = n_test_of test_size (length data)
  /\ length tr = (length data - n_test_of test_size (length data))%nat
  /\ (0 < n_test_of test_size (length data) < length data)%nat.
Proof.
  intros Hperm Hs.
  destruct (train_test_split_ok permutation data test_size seed tr te Hperm Hs)
    as (Hp & Htr & Hte).
  revert Hs. unfold train_test_split.
  destruct (Qle_bool test_size 0 || Qle_bool 1 test_size); [discriminate|].
  set (n := length data).
  set (n_test := n_test_of test_size n).
  destruct (n - n_test =? 0)%nat eqn:Etrain; [discriminate|].
  apply Nat.eqb_neq in Etrain. intros [= Etr Ete].
  pose proof (Permutation_length Hp) as Hl. rewrite length_app in Hl. fold n in Hl.
  pose proof (take_rows_length
                (firstn (n - n_test) (skipn n_test (permutation seed n))) data)
    as H1.
  pose proof (take_rows_length (firstn n_test (permutation seed n)) data) as H2.
  rewrite Etr in H1. rewrite Ete in H2.
  rewrite length_firstn in H1, H2.
  assert (length te <> 0)%nat.
  { destruct te; [congruence | simpl; lia]. }
  lia.
Qed.

Lemma rows_of_user_all (u : Z) (l : DataFrame) :
  (forall r, In r l -> user_id r = u) -> rows_of_user u l = l.
Proof.
  intros H. apply forallb_filter_id, forallb_forall. intros r Hr.
  apply Z.eqb_eq, H, Hr.
Qed.

Lemma split_users_sizes (df : DataFrame) (test_size : Q) (seed minr : Z)
    (users : list Z) (trs tes : list DataFrame) :
  shuffles permutation seed -> NoDup users ->
  split_users permutation df test_size seed minr users = Ok (trs, tes) ->
  forall u, retained df minr users u = true ->
    let c := length (rows_of_user u df) in
    length (rows_of_user u (concat tes)) = n_test_of test_size c
    /\ length (rows_of_user u (concat trs)) = (c - n_test_of test_size c)%nat
    /\ (0 < n_test_of test_size c < c)%nat.
Proof.
  intros Hperm Hnd. revert trs tes.
  induction users as [|u' t IH]; intros trs tes Hs u Hret; simpl in Hs.
  - unfold retained in Hret. simpl in Hret. discriminate.
  - inversion Hnd as [|? ? Hu' Ht]; subst.
    unfold retained in Hret. simpl existsb in Hret.
    destruct (minr <=? Z.of_nat (length (rows_of_user u' df))) eqn:Em.
    + destruct (train_test_split permutation (rows_of_user u' df) test_size seed)
        as [[tr te]|e] eqn:Ett; [|discriminate]. revert Hs. bind_step.
      destruct (split_users permutation df test_size seed minr t)
        as [[trs' tes']|e] eqn:Er; [|discriminate]. bind_step.
      intros [= <- <-]. simpl concat. rewrite !rows_of_user_app, !length_app.
      destruct (train_test_split_ok _ _ _ _ _ _ Hperm Ett) as (Hp & _ & _).
      destruct (train_test_split_lengths _ _ _ _ _ Hperm Ett) as (L1 & L2 & L3).
      pose proof (split_part_rows u u' df tr te Hp) as Hpart.
      destruct (u =? u') eqn:E.
      * apply Z.eqb_eq in E. subst u'.
        destruct (split_users_ok permutation df test_size seed minr t trs' tes'
                    Hperm Ht Er u) as [Hrest _].
        assert (Hnot : retained df minr t u = false).
        { unfold retained.
          destruct (existsb (Z.eqb u) t) eqn:Ex; [|reflexivity].
          apply existsb_eqb_In in Ex. contradiction. }
        rewrite Hnot in Hrest.
        apply Permutation_sym, Permutation_nil, app_eq_nil in Hrest.
        destruct Hrest as [-> ->].
        assert (Hin : forall r, In r (tr ++ te) -> user_id r = u).
        { intros r Hr. apply (Permutation_in _ Hp) in Hr.
          apply rows_of_user_In in Hr. tauto. }
        rewrite (rows_of_user_all u tr), (rows_of_user_all u te)
          by (intros r Hr; apply Hin, in_or_app; auto).
        simpl length. cbv zeta. lia.
      * apply Permutation_sym, Permutation_nil, app_eq_nil in Hpart.
        destruct Hpart as [-> ->]. simpl length. simpl in Hret.
        apply (IH Ht trs' tes' eq_refl u). exact Hret.
    + destruct (u =? u') eqn:E.
      * apply Z.eqb_eq in E. subst u'. rewrite Em in Hret.
        rewrite andb_false_r in Hret. discriminate.
      * simpl in Hret. apply (IH Ht trs tes Hs u). exact Hret.
Qed.

(** X19.  When the shuffle permutes the positions and [split_train_test]
    returns, every user with at least [min_ratings_per_user] of the [c]
    records of the table has [ceil(test_size * c)] test rows, the
    ceiling of the float product as scikit-learn takes it, and the other
    rows in the train set, both numbers positive. *)
Theorem split_train_test_sizes (df : DataFrame) (test_size : Q)
    (seed minr : Z) (train test : DataFrame) :
  shuffles permutation seed ->
  split_train_test permutation df test_size seed minr = Ok (train, test) ->
  forall u, In u (map user_id df) ->
    minr <= Z.of_nat (length (rows_of_user u df)) ->
    let c := length (rows_of_user u df) in
    length (rows_of_user u test) = n_test_of test_size c
    /\ length (rows_of_user u train) = (c - n_test_of test_size c)%nat
    /\ (0 < n_test_of test_size c < c)%nat.
Proof.
  intros Hperm Hs u Hu Hc.
  set (users := valid_users_of df minr).
  set (dff := List.filter (fun r => existsb (Z.eqb (user_id r)) users) df).
  assert (Hv : In u users) by (apply valid_users_of_In; split; assumption).
  assert (Hrows : rows_of_user u dff = rows_of_user u df).
  { unfold dff. rewrite rows_of_user_filtered.
    apply existsb_eqb_In in Hv. rewrite Hv. reflexivity. }
  unfold split_train_test in Hs. fold users in Hs. fold dff in Hs.
  destruct (split_users permutation dff test_size seed minr users)
    as [[trs tes]|e] eqn:Eu; [|discriminate]. revert Hs. bind_step.
  simpl fst. simpl snd. unfold pd_concat.
  destruct trs as [|tr0 trs]; [discriminate|].
  destruct tes as [|te0 tes]; [discriminate|]. bind_step. intros [= <- <-].
  pose proof (split_users_sizes dff test_size seed minr users _ _ Hperm
                (valid_users_of_NoDup df minr) Eu u) as Hsz.
  rewrite Hrows in Hsz. apply Hsz.
  unfold retained. rewrite Hrows.
  apply existsb_eqb_In in Hv. rewrite Hv. simpl. apply Z.leb_le. exact Hc.
Qed.

Lemma split_users_invalid (df : DataFrame) (test_size : Q) (seed minr : Z)
    (users : list Z) :
  users <> [] ->
  (forall u, In u users -> minr <= Z.of_nat (length (rows_of_user u df))) ->
  (test_size <= 0)%Q \/ (1 <= test_size)%Q ->
  split_users permutation df test_size seed minr users = Error InvalidTestSize.
Proof.
  intros Hne Hall Hts. destruct users as [|u t]; [congruence|]. simpl.
  assert (Em : (minr <=? Z.of_nat (length (rows_of_user u df))) = true)
    by (apply Z.leb_le, Hall; left; reflexivity).
  rewrite Em. unfold train_test_split.
  assert (Ets : (Qle_bool test_size 0 || Qle_bool 1 test_size) = true).
  { apply orb_true_iff. destruct Hts as [H|H]; [left | right];
      apply Qle_bool_true; exact H. }
  rewrite Ets. reflexivity.
Qed.

Lemma split_users_empty_train (df : DataFrame) (test_size : Q) (seed minr : Z)
    (users : list Z) :
  (0 < test_size)%Q -> (test_size < 1)%Q ->
  (forall u, In u users -> minr <= Z.of_nat (length (rows_of_user u df))) ->
  (exists u, In u users
             /\ (length (rows_of_user u df)
                 <= n_test_of test_size (length (rows_of_user u df)))%nat) ->
  split_users permutation df test_size seed minr users = Error EmptyTrainSet.
Proof.
  intros H0 H1. induction users as [|u t IH]; intros Hall [v [Hv Hle]];
    [contradiction|]. simpl.
  assert (Em : (minr <=? Z.of_nat (length (rows_of_user u df))) = true)
    by (apply Z.leb_le, Hall; left; reflexivity).
  rewrite Em. unfold train_test_split.
  assert (Ets : (Qle_bool test_size 0 || Qle_bool 1 test_size) = false).
  { apply orb_false_iff. split; apply Qle_bool_false; assumption. }
  rewrite Ets.
  destruct (length (rows_of_user u df)
            - n_test_of test_size (length (rows_of_user u df)) =? 0)%nat eqn:En;
    [reflexivity|].
  apply Nat.eqb_neq in En. bind_step.
  rewrite IH; [reflexivity | |].
  - intros w Hw. apply Hall. right; exact Hw.
  - destruct Hv as [->|Hv]; [lia|]. exists v. split; assumption.
Qed.

(** X20.  The failures of [split_train_test]: without a user that has
    [min_ratings_per_user] records it fails in [pd.concat]; with such a
    user and a [test_size] outside (0, 1), or a [test_size] for which the
    ceiling of the float product [test_size * c] leaves some user
    without a train row, it fails in [train_test_split]. *)
Theorem split_train_test_failures (df : DataFrame) (test_size : Q)
    (seed minr : Z) :
  let users := valid_users_of df minr in
  (users = [] ->
   split_train_test permutation df test_size seed minr
   = Error NoObjectsToConcatenate)
  /\ (users <> [] -> (test_size <= 0)%Q \/ (1 <= test_size)%Q ->
      split_train_test permutation df test_size seed minr
      = Error InvalidTestSize)
  /\ (forall u, In u users -> (0 < test_size)%Q -> (test_size < 1)%Q ->
        (length (rows_of_user u df)
         <= n_test_of test_size (length (rows_of_user u df)))%nat ->
        split_train_test permutation df test_size seed minr
        = Error EmptyTrainSet).
Proof.
  intros users.
  set (dff := List.filter (fun r => existsb (Z.eqb (user_id r)) users) df).
  assert (Hrows : forall u, In u users -> rows_of_user u dff = rows_of_user u df).
  { intros u Hu. unfold dff. rewrite rows_of_user_filtered.
    apply existsb_eqb_In in Hu. rewrite Hu. reflexivity. }
  assert (Hall : forall u, In u users ->
                           minr <= Z.of_nat (length (rows_of_user u dff))).
  { intros u Hu. rewrite (Hrows u Hu). apply valid_users_of_In in Hu. tauto. }
  unfold split_train_test. fold users. fold dff. split; [|split].
  - intros ->. reflexivity.
  - intros Hne Hts.
    rewrite (split_users_invalid dff test_size seed minr users Hne Hall Hts).
    reflexivity.
  - intros u Hu H0 H1 Hle.
    rewrite (split_users_empty_train dff test_size seed minr users H0 H1 Hall).
    + reflexivity.
    + exists u. rewrite (Hrows u Hu). split; assumption.
Qed.

End SplitSizes.

(** * The averages of evaluate_recommendations *)

Lemma f1_score_at_k_unit (recommended : list Z) (relevant : gset Z) (k : Z) :
  0 <= k -> NoDup recommended ->
  in_unit (f1_score_at_k recommended relevant k).
Proof.
  intros Hk Hnd.
  destruct (precision_at_k_range recommended relevant k Hk) as [Hp0 Hp1].
  pose proof (recall_at_k_nonneg recommended relevant k) as Hr0.
  pose proof (recall_at_k_le_one recommended relevant k Hnd) as Hr1.
  unfold f1_score_at_k, in_unit.
  set (p := precision_at_k recommended relevant k) in *.
  set (r := recall_at_k recommended relevant k) in *.
  destruct (Qeq_bool (p + r) 0) eqn:E; [split; unfold Qle; simpl; lia|].
  assert (Hpos : (0 < p + r)%Q).
  { destruct (Qlt_le_dec 0 (p + r)) as [H|H]; [exact H|].
    assert (Hz : (p + r == 0)%Q) by lra.
    apply Qeq_bool_true in Hz. congruence. }
  split.
  - apply Qle_shift_div_l; [exact Hpos|]. nra.
  - apply Qle_shift_div_r; [exact Hpos|]. nra.
Qed.

Lemma mean_in_unit (l : list Q) :
  l <> [] -> Forall in_unit l -> in_unit (mean l).
Proof. intros Hne Hall. apply mean_bounds; assumption. Qed.

Lemma results_init_inv (k_values : list Z) : results_inv (results_init k_values).
Proof.
  unfold results_inv, results_init. apply List.Forall_forall. intros kv Hkv.
  apply in_map_iff in Hkv. destruct Hkv as [k [<- _]]. simpl.
  repeat split; constructor.
Qed.

Lemma results_append_inv (k : Z) (p r f : Q) (d : Results) :
  in_unit p -> in_unit r -> in_unit f ->
  results_inv d -> results_inv (results_append k p r f d).
Proof.
  intros Hp Hr Hf. unfold results_inv.
  induction d as [|[k' v] t IH]; intros Hd; simpl; [constructor|].
  inversion Hd as [|? ? Hv Ht]; subst. simpl in Hv.
  destruct Hv as (L1 & L2 & F1 & F2 & F3).
  destruct (k' =? k).
  - constructor; [|exact Ht]. simpl. rewrite !length_app, L1, L2.
    repeat split; try reflexivity; apply Forall_app; split; auto.
  - constructor; [|apply IH; exact Ht]. simpl. repeat split; assumption.
Qed.

Lemma results_get_In (k : Z) (d : Results) (v : MetricLists) :
  results_get k d = Some v -> In (k, v) d.
Proof.
  induction d as [|[k' v'] t IH]; simpl; [discriminate|].
  destruct (k' =? k) eqn:E.
  - apply Z.eqb_eq in E. intros [= <-]. left. congruence.
  - intros H. right. apply IH; exact H.
Qed.

Lemma summary_set_In (k : Z) (v : Averages) (d : list (Z * Averages))
    (k' : Z) (v' : Averages) :
  In (k', v') (summary_set k v d) -> (k', v') = (k, v) \/ In (k', v') d.
Proof.
  induction d as [|[k0 v0] t IH]; simpl.
  - intros [H|[]]. left. symmetry. exact H.
  - destruct (k0 =? k) eqn:E.
    + apply Z.eqb_eq in E. subst. intros [H|H]; [left; symmetry; exact H|].
      right. right. exact H.
    + intros [H|H]; [right; left; exact H|].
      destruct (IH H) as [H'|H']; [left; exact H' | right; right; exact H'].
Qed.

Lemma summary_set_keys (k : Z) (v : Averages) (d : list (Z * Averages)) :
  NoDup (map fst d) -> NoDup (map fst (summary_set k v d)).
Proof.
  induction d as [|[k0 v0] t IH]; simpl; intros Hnd.
  - constructor; [intros [] | constructor].
  - inversion Hnd as [|? ? Hk Ht]; subst. destruct (k0 =? k) eqn:E; simpl.
    + constructor; assumption.
    + constructor; [|apply IH; exact Ht].
      intros Hin. apply in_map_iff in Hin. destruct Hin as [[k1 v1] [Hf Hin]].
      simpl in Hf. subst k1. apply summary_set_In in Hin.
      destruct Hin as [[= -> _]|Hin].
      * rewrite Z.eqb_refl in E. discriminate.
      * apply Hk. change k0 with (fst (k0, v1)). apply in_map. exact Hin.
Qed.

Lemma evaluate_user_inv (train_df test_df : DataFrame)
    (recommend_func : Recommender) (k_values : list Z) (threshold : Q)
    (st : Results * nat) (user : Z) :
  (forall k, In k k_values -> 0 <= k) ->
  (forall u m l, recommend_func train_df u m = Ok l -> NoDup l) ->
  results_inv (fst st) ->
  forall st',
    evaluate_user train_df test_df recommend_func k_values threshold st user
    = Ok st' ->
    results_inv (fst st').
Proof.
  intros Hk Hrec Hst st'. unfold evaluate_user.
  destruct (size _ =? 0)%nat; [intros [= <-]; exact Hst|].
  destruct (max_of k_values) as [max_k|e]; bind_step;
    [|destruct (is_Exception e); [intros [= <-]; exact Hst | discriminate]].
  destruct (recommend_func train_df user max_k) as [l|e] eqn:El;
    [|destruct (is_Exception e); [intros [= <-]; exact Hst | discriminate]].
  destruct (length l =? 0)%nat; [intros [= <-]; exact Hst|].
  intros [= <-]. cbn [fst].
  apply Hrec in El. revert Hk Hst. generalize (fst st).
  generalize k_values as ks.
  induction ks as [|k t IH]; intros d Hk Hd; simpl; [exact Hd|].
  apply IH; [intros k' Hk'; apply Hk; right; exact Hk'|].
  assert (0 <= k) by (apply Hk; left; reflexivity).
  apply results_append_inv; [| | |exact Hd].
  - apply precision_at_k_range; assumption.
  - split; [apply recall_at_k_nonneg | apply recall_at_k_le_one; exact El].
  - apply f1_score_at_k_unit; assumption.
Qed.

(** X21.  With cut-offs [k >= 0] and a recommender whose lists have no
    repetition, the summary that [evaluate_recommendations] returns has
    one entry per key, every key is one of [k_values], and the three
    averages of every entry lie in [0, 1]. *)
Theorem evaluate_recommendations_averages (train_df test_df : DataFrame)
    (recommend_func : Recommender) (k_values : list Z) (threshold : Q)
    (summary : list (Z * Averages)) :
  (forall k, In k k_values -> 0 <= k) ->
  (forall u m l, recommend_func train_df u m = Ok l -> NoDup l) ->
  evaluate_recommendations train_df test_df recommend_func k_values threshold
  = Ok summary ->
  NoDup (map fst summary)
  /\ forall k a, In (k, a) summary ->
       In k k_values
       /\ in_unit (avg_precision a) /\ in_unit (avg_recall a)
       /\ in_unit (avg_f1 a).
Proof.
  intros Hk Hrec. unfold evaluate_recommendations.
  destruct (evaluation_loop train_df test_df recommend_func k_values threshold)
    as [[results evaluated]|e] eqn:Eloop; bind_step; [|discriminate].
  intros [= <-]. cbn [fst].
  assert (Hinv : results_inv results).
  { revert Eloop. unfold evaluation_loop.
    generalize (unique (map user_id test_df)) as users.
    assert (H0 : results_inv (fst (results_init k_values, 0%nat)))
      by apply results_init_inv.
    revert H0. generalize (results_init k_values, 0%nat) as st.
    intros st H0 users. revert st H0.
    induction users as [|u t IH]; intros st H0; cbn [for_each].
    - intros [= ->]. exact H0.
    - destruct (evaluate_user train_df test_df recommend_func k_values
                              threshold st u) as [st'|e] eqn:Eu;
        bind_step; [|discriminate].
      apply IH. eapply evaluate_user_inv; eassumption. }
  unfold summarize.
  assert (Hgen : forall ks summary0,
    (forall k, In k ks -> In k k_values) ->
    NoDup (map fst summary0) ->
    (forall k a, In (k, a) summary0 ->
       In k k_values
       /\ in_unit (avg_precision a) /\ in_unit (avg_recall a)
       /\ in_unit (avg_f1 a)) ->
    let summary :=
      fold_left
        (fun summary k =>
           match results_get k results with
           | Some v =>
               match precisions v with
               | [] => summary
               | _ => summary_set k (mkAverages (mean (precisions v))
                                                (mean (recalls v))
                                                (mean (f1s v))) summary
               end
           | None => summary
           end) ks summary0 in
    NoDup (map fst summary)
    /\ forall k a, In (k, a) summary ->
         In k k_values
         /\ in_unit (avg_precision a) /\ in_unit (avg_recall a)
         /\ in_unit (avg_f1 a)).
  { induction ks as [|k t IH]; intros summary0 Hks Hnd Hall; simpl.
    - split; assumption.
    - apply IH; [intros k' Hk'; apply Hks; right; exact Hk'| |].
      + destruct (results_get k results) as [v|]; [|exact Hnd].
        destruct (precisions v); [exact Hnd|]. apply summary_set_keys; exact Hnd.
      + intros k' a Hin.
        destruct (results_get k results) as [v|] eqn:Eg; [|apply Hall; exact Hin].
        destruct (precisions v) as [|p ps] eqn:Ep; [apply Hall; exact Hin|].
        apply summary_set_In in Hin. destruct Hin as [[= -> ->]|Hin];
          [|apply Hall; exact Hin].
        split; [apply Hks; left; reflexivity|]. simpl.
        apply results_get_In in Eg. unfold results_inv in Hinv.
        rewrite List.Forall_forall in Hinv. specialize (Hinv _ Eg).
        simpl in Hinv. destruct Hinv as (L1 & L2 & F1 & F2 & F3).
        rewrite Ep in L1, L2, F1. simpl in L1, L2.
        split; [|split]; apply mean_in_unit; try assumption.
        * discriminate.
        * destruct (recalls v); discriminate.
        * destruct (f1s v); discriminate. }
  apply Hgen; [tauto | constructor | intros k a []].
Qed.


(** * Min-max normalization in recommend_for_user *)

Lemma min_max_value (df : DataFrame) (r : RatingRecord) :
  In r df ->
  exists x,
    fdiv (rating r - Qmin_list (user_group df r))
         (replace_0_1 (Some (Qmax_list (user_group df r)
                             - Qmin_list (user_group df r))%Q))
    = Some x
    /\ (0 <= x)%Q /\ (x <= 1)%Q
    /\ ((Qmin_list (user_group df r) < rating r)%Q -> (0 < x)%Q).
Proof.
  intros Hr.
  pose proof (user_group_In df r Hr) as Hg.
  pose proof (Qmin_list_le _ _ Hg) as Hmin.
  pose proof (Qmax_list_ge _ _ Hg) as Hmax.
  set (lo := Qmin_list (user_group df r)) in *.
  set (hi := Qmax_list (user_group df r)) in *.
  unfold replace_0_1.
  destruct (Qeq_bool (hi - lo) 0) eqn:E; simpl; eexists; (split; [reflexivity|]).
  - apply Qeq_bool_true in E.
    assert (Hz : ((rating r - lo) / 1 == 0)%Q) by (field_simplify; lra).
    rewrite Hz. repeat split; lra.
  - assert (Hpos : (0 < hi - lo)%Q).
    { destruct (Qlt_le_dec 0 (hi - lo)) as [H|H]; [exact H|].
      assert (Hz : (hi - lo == 0)%Q) by lra.
      apply Qeq_bool_true in Hz. congruence. }
    split; [|split].
    + apply Qle_shift_div_l; [exact Hpos|]. lra.
    + apply Qle_shift_div_r; [exact Hpos|]. lra.
    + intros H. apply Qlt_shift_div_l; [exact Hpos|]. lra.
Qed.

Lemma Qsum_ge_member (l : list Q) (x : Q) :
  Forall (fun y => (0 <= y)%Q) l -> In x l -> (x <= Qsum l)%Q.
Proof.
  induction l as [|a t IH]; intros Hall Hin; [contradiction|].
  inversion Hall as [|? ? Ha Ht]; subst. simpl.
  assert (H0 : (0 <= Qsum t)%Q).
  { clear -Ht. induction t as [|b t IH]; simpl; [lra|].
    inversion Ht; subst. specialize (IH ltac:(assumption)). lra. }
  destruct Hin as [->|Hin]; [lra|]. specialize (IH Ht Hin). lra.
Qed.

Lemma mean_pos_member (l : list Q) (x : Q) :
  Forall (fun y => (0 <= y)%Q) l -> In x l -> (0 < x)%Q -> (0 < mean l)%Q.
Proof.
  intros Hall Hin Hx. unfold mean.
  apply Qlt_shift_div_l.
  - apply Qlen_pos. intros ->. contradiction.
  - pose proof (Qsum_ge_member l x Hall Hin). lra.
Qed.

Section MinMaxRecommend.

Variable sqrt : Q -> Q.

Lemma min_max_cells (df : DataFrame) (cells : Cells) :
  rating_cells sqrt df true "min_max" = Ok cells ->
  (forall u p v, In (u, p, Some v) cells -> (0 <= v)%Q /\ (v <= 1)%Q)
  /\ (forall r, In r df ->
        exists x, In (user_id r, product_id r, Some x) cells
                  /\ ((Qmin_list (user_group df r) < rating r)%Q -> (0 < x)%Q)).
Proof.
  unfold rating_cells, normalize_ratings_per_user. simpl. bind_step.
  intros [= <-]. rewrite map_map. cbn [fst snd]. split.
  - intros u p v Hin. apply in_map_iff in Hin. destruct Hin as [r [Heq Hr]].
    injection Heq as _ _ Hv.
    destruct (min_max_value df r Hr) as (x & Hx & H0 & H1 & _).
    unfold replace_0_1 in Hx. rewrite Hx in Hv. injection Hv as <-.
    split; assumption.
  - intros r Hr. destruct (min_max_value df r Hr) as (x & Hx & _ & _ & Hp).
    exists x. split; [|exact Hp]. apply in_map_iff. exists r.
    unfold replace_0_1 in Hx. rewrite Hx. split; [reflexivity | exact Hr].
Qed.

(** X22.  Under [min_max] the estimated rating is the clipped score
    itself, never denormalized: for a user with two different ratings and
    a positive similarity threshold, the estimated rating of every
    returned row is its score clipped to [0.5, 5]; the score lies in
    [0, 1], and so the estimated rating lies in [0.5, 1]. *)
Theorem min_max_estimates_at_most_one (df : DataFrame) (user n : Z) (ms : Q)
    (mci : Z) (rows : list Recommendation) (r1 r2 : RatingRecord) :
  (0 < ms)%Q ->
  In r1 df -> In r2 df -> user_id r1 = user -> user_id r2 = user ->
  (rating r1 < rating r2)%Q ->
  recommend_for_user sqrt df user n ms true "min_max" mci = Ok rows ->
  forall row, In row rows ->
    estimated_rating row = Some (clipQ (1 # 2) 5 (score row))
    /\ (0 <= score row)%Q /\ (score row <= 1)%Q
    /\ (1 # 2 <= clipQ (1 # 2) 5 (score row))%Q
    /\ (clipQ (1 # 2) 5 (score row) <= 1)%Q.
Proof.
  intros Hms Hr1 Hr2 Hu1 Hu2 Hlt Hrec row Hrow.
  apply recommend_for_user_ok in Hrec.
  destruct Hrec as (Hhas & matrix & sim_df & ur & Hm & _ & Hloc & Hcase).
  apply loc_ok in Hloc. destruct Hloc as [-> _].
  destruct (user_item_matrix_ok sqrt df true "min_max" matrix Hm)
    as (cells & Hcells & ->).
  destruct (min_max_cells df cells Hcells) as [Hunit Hrowcell].
  assert (Hcell : forall u p,
            (0 <= at_ (fillna 0 (pivot_table cells)) u p)%Q
            /\ (at_ (fillna 0 (pivot_table cells)) u p <= 1)%Q).
  { intros u p. rewrite at_fillna_pivot.
    destruct (group_values cells u p) as [|v vs] eqn:E; [split; lra|].
    rewrite <- E. apply mean_bounds; [rewrite E; discriminate|].
    apply List.Forall_forall. intros x Hx. apply group_values_In in Hx.
    apply (Hunit u p x Hx). }
  destruct Hcase as [[Hnone _]|[_ (acc & scores & est & Hacc & Hscores & Hest & ->)]].
  - exfalso.
    destruct (Hrowcell r2 Hr2) as (x & Hx & Hpos). rewrite Hu2 in Hx.
    assert (Hxpos : (0 < x)%Q).
    { apply Hpos. eapply Qle_lt_trans; [|exact Hlt].
      apply Qmin_list_le. unfold user_group. rewrite Hu2, <- Hu1.
      apply (user_group_In df r1 Hr1). }
    assert (Hin : In (product_id r2)
                     (rated_items_of (fillna 0 (pivot_table cells))
                        (at_ (fillna 0 (pivot_table cells)) user))).
    { apply filter_In. split.
      - apply pivot_columns_In. exists user, x. exact Hx.
      - apply Qlt_bool_true. rewrite at_fillna_pivot.
        assert (Hg : In x (group_values cells user (product_id r2)))
          by (apply group_values_In; exact Hx).
        destruct (group_values cells user (product_id r2)) as [|v vs] eqn:E;
          [contradiction|].
        rewrite <- E. rewrite <- E in Hg.
        apply (mean_pos_member _ x); [|exact Hg | exact Hxpos].
        apply List.Forall_forall. intros y Hy. apply group_values_In in Hy.
        apply (Hunit _ _ _ Hy). }
    rewrite Hnone in Hin. contradiction.
  - apply scored_rows_In in Hrow. destruct Hrow as [Hin Hest'].
    assert (Hsc : scores <> []) by (intros Hnil; rewrite Hnil in Hin; exact Hin).
    rewrite Hscores, Hacc in Hin.
    destruct (scores_within_cells
                (columns (fillna 0 (pivot_table cells)))
                (at_ (fillna 0 (pivot_table cells)) user) ms sim_df
                (rated_items_of (fillna 0 (pivot_table cells))
                   (at_ (fillna 0 (pivot_table cells)) user)) 0 1
                (rec_product_id row) (score row)
                (pivot_columns_NoDup cells) Hms) as [Hs1 Hs2].
    { intros p _. apply Hcell. }
    { exact Hin. }
    split.
    { specialize (Hest Hsc). unfold estimate in Hest.
      destruct (iloc0 _) as [stats|e]; [|discriminate].
      revert Hest. bind_step. simpl. intros [= <-].
      rewrite Hest'. reflexivity. }
    split; [exact Hs1|]. split; [exact Hs2|].
    unfold clipQ.
    destruct (Qle_bool (score row) (1 # 2)) eqn:E1; [lra|].
    apply Qle_bool_false in E1.
    destruct (Qle_bool 5 (score row)) eqn:E2;
      [apply Qle_bool_true in E2; lra | lra].
Qed.

End MinMaxRecommend.

(** * The counts of evaluate_rating_prediction *)

Lemma successful_predictions_length (train_df test_df : DataFrame)
    (predict_func : Predictor) :
  (length (successful_predictions train_df test_df predict_func)
   <= length test_df)%nat
  /\ (length (successful_predictions train_df test_df predict_func)
      = length test_df
      <-> forall row, In row test_df ->
            exists q, predict_func train_df (user_id row) (product_id row)
                      = Ok q).
Proof.
  unfold successful_predictions.
  induction test_df as [|row t [IH1 IH2]]; simpl.
  - split; [lia|]. split; [intros _ row [] | reflexivity].
  - rewrite length_app.
    destruct (predict_func train_df (user_id row) (product_id row))
      as [q|e] eqn:E; simpl.
    + split; [lia|]. split.
      * intros H row' [<-|Hin]; [exists q; exact E|].
        apply IH2; [lia | exact Hin].
      * intros H. f_equal. apply IH2. intros row' Hin. apply H. right; exact Hin.
    + split; [lia|]. split; [lia|].
      intros H. destruct (H row (or_introl eq_refl)) as [q Hq]. congruence.
Qed.

Lemma successful_predictions_nil (train_df test_df : DataFrame)
    (predict_func : Predictor) :
  successful_predictions train_df test_df predict_func = []
  <-> forall row, In row test_df ->
        exists e, predict_func train_df (user_id row) (product_id row)
                  = Error e.
Proof.
  unfold successful_predictions. induction test_df as [|row t IH]; simpl.
  - split; [intros _ row [] | reflexivity].
  - destruct (predict_func train_df (user_id row) (product_id row))
      as [q|e] eqn:E; simpl.
    + split; [discriminate|]. intros H.
      destruct (H row (or_introl eq_refl)) as [e He]. congruence.
    + rewrite IH. split.
      * intros H row' [<-|Hin]; [exists e; exact E | apply H; exact Hin].
      * intros H row' Hin. apply H. right; exact Hin.
Qed.

Lemma successful_predictions_In (train_df test_df : DataFrame)
    (predict_func : Predictor) (a p : Q) :
  In (a, p) (successful_predictions train_df test_df predict_func)
  <-> exists row,
        In row test_df
        /\ predict_func train_df (user_id row) (product_id row) = Ok p
        /\ a = rating row.
Proof.
  unfold successful_predictions. rewrite in_flat_map. split.
  - intros [row [Hrow Hin]]. exists row. split; [exact Hrow|].
    destruct (predict_func train_df (user_id row) (product_id row)) as [q|e];
      [|contradiction].
    destruct Hin as [[= <- <-]|[]]. split; reflexivity.
  - intros (row & Hrow & Hq & ->). exists row. split; [exact Hrow|].
    rewrite Hq. left. reflexivity.
Qed.

Lemma Forall2_map_pairs {A B : Type} (R : A -> B -> Prop) (l : list (A * B)) :
  Forall2 R (map fst l) (map snd l)
  <-> Forall (fun ab => R (fst ab) (snd ab)) l.
Proof.
  induction l as [|[a b] t IH]; simpl.
  - split; constructor.
  - split; intros H; inversion H; subst; constructor; try assumption;
      apply IH; assumption.
Qed.

Section PredictionCounts.

Variable sqrt : Q -> Q.

(** X25.  [evaluate_rating_prediction] answers with the empty dictionary
    exactly when the predictor raises on every test row.  Otherwise
    [n_predictions] counts the rows whose prediction succeeded: it is at
    least 1, at most the number of test rows, and equal to it exactly
    when the predictor never raises; and the MAE is not negative. *)
Theorem evaluate_rating_prediction_counts (train_df test_df : DataFrame)
    (predict_func : Predictor) :
  match evaluate_rating_prediction sqrt train_df test_df predict_func with
  | NoPredictions =>
      forall row, In row test_df ->
        exists e, predict_func train_df (user_id row) (product_id row)
                  = Error e
  | PredictionMetrics rmse mae n =>
      (1 <= n <= length test_df)%nat
      /\ n = length (successful_predictions train_df test_df predict_func)
      /\ (n = length test_df
          <-> forall row, In row test_df ->
                exists q, predict_func train_df (user_id row) (product_id row)
                          = Ok q)
      /\ (0 <= mae)%Q
  end.
Proof.
  unfold evaluate_rating_prediction, prediction_loop.
  rewrite prediction_loop_spec. cbn [fst snd app].
  pose proof (successful_predictions_length train_df test_df predict_func)
    as [Hle Hall].
  pose proof (successful_predictions_nil train_df test_df predict_func) as Hnil.
  rewrite length_map.
  destruct (successful_predictions train_df test_df predict_func)
    as [|d done] eqn:E.
  - simpl. apply Hnil. reflexivity.
  - cbn [length Nat.eqb]. split; [simpl in Hle; lia|].
    split; [reflexivity|]. split; [exact Hall|].
    unfold calculate_mae, mean.
    apply Qle_shift_div_l.
    + apply Qlen_pos. unfold errors. simpl. discriminate.
    + rewrite Qmult_0_l. apply Qsum_nonneg.
      apply Forall_map. apply List.Forall_forall. intros e _. apply Qabs_nonneg.
Qed.

(** X3.  When [evaluate_rating_prediction] reports metrics, the MAE is 0
    exactly when every prediction that succeeded equals the rating of
    its test row. *)
Theorem prediction_mae_zero_iff (train_df test_df : DataFrame)
    (predict_func : Predictor) (rmse mae : Q) (n : nat) :
  evaluate_rating_prediction sqrt train_df test_df predict_func
  = PredictionMetrics rmse mae n ->
  (mae == 0)%Q
  <-> forall row q,
        In row test_df ->
        predict_func train_df (user_id row) (product_id row) = Ok q ->
        (q == rating row)%Q.
Proof.
  unfold evaluate_rating_prediction, prediction_loop.
  rewrite prediction_loop_spec. cbn [fst snd app]. rewrite length_map.
  pose proof (successful_predictions_In train_df test_df predict_func) as Hin.
  destruct (successful_predictions train_df test_df predict_func)
    as [|d done] eqn:E; [discriminate|].
  cbn [length Nat.eqb]. intros [= _ <- _].
  destruct (mae_zero_iff (map fst (d :: done)) (map snd (d :: done)))
    as [_ Hz]; [discriminate | rewrite !length_map; reflexivity|].
  rewrite Hz, Forall2_map_pairs, List.Forall_forall. split.
  - intros H row q Hrow Hq. symmetry.
    apply (H (rating row, q)). apply Hin. exists row. tauto.
  - intros H [a p] Hap. apply Hin in Hap. destruct Hap as (row & Hrow & Hq & ->).
    cbn [fst snd]. symmetry. apply (H row p Hrow Hq).
Qed.

End PredictionCounts.

(** * The further properties on the fixtures *)

(** X1, witness. *)
Lemma f1_score_at_k_range_witness :
  Qle 0 (f1_score_at_k [101; 103; 104] {[ 101; 102 ]} 2)
  /\ Qle (f1_score_at_k [101; 103; 104] {[ 101; 102 ]} 2) 1.
Proof.
  apply (f1_score_at_k_range [101; 103; 104] {[ 101; 102 ]} 2).
  - lia.
  - repeat constructor; simpl; intuition lia.
Defined.

(** X2, witness. *)
Lemma recall_at_k_monotone_witness :
  Qle (recall_at_k [101; 103; 102] {[ 101; 102 ]} 1)
      (recall_at_k [101; 103; 102] {[ 101; 102 ]} 3).
Proof.
  apply (recall_at_k_monotone [101; 103; 102] {[ 101; 102 ]} 1 3); lia.
Defined.

(** X3, witness: a predictor that answers 4 misses three ratings. *)
Lemma prediction_mae_zero_iff_witness :
  exists rmse mae,
    evaluate_rating_prediction Qsqrt split_table held_out_table
                               failing_predictor
    = PredictionMetrics rmse mae 3
    /\ ((mae == 0)%Q
        <-> forall row q,
              In row held_out_table ->
              failing_predictor split_table (user_id row) (product_id row)
              = Ok q ->
              (q == rating row)%Q).
Proof.
  do 2 eexists. split; [vm_compute; reflexivity|].
  eapply (prediction_mae_zero_iff Qsqrt split_table held_out_table
            failing_predictor).
  vm_compute. reflexivity.
Defined.


(** X7, witness: the highest rating of user 1 is sent to 1. *)
Lemma min_max_unit_interval_witness :
  exists ndf x,
    normalize_ratings_per_user Qsqrt test_table "min_max" = Ok ndf
    /\ In (mkRating 1 101 5 0, Some x) ndf
    /\ (0 <= x /\ x <= 1)%Q.
Proof.
  eexists.
  edestruct (min_max_unit_interval Qsqrt test_table _ (mkRating 1 101 5 0)
               (Some 1%Q) eq_refl) as (x & Hx & Hr & _).
  - vm_compute. left. reflexivity.
  - exists x. injection Hx as <-. split; [reflexivity|]. split; [|exact Hr].
    vm_compute. left. reflexivity.
Defined.

(** X10, witness: with one row to return, product 102 is left out for
    product 101. *)
Lemma popular_items_are_the_best_witness :
  Z.of_nat (length (get_popular_items test_table 1 1)) = 1
  /\ forall row, In row (get_popular_items test_table 1 1) ->
       (mean (map rating (rows_of_product 102 test_table)) <= score row)%Q.
Proof.
  apply (popular_items_are_the_best test_table 1 1 102).
  - lia.
  - simpl. auto.
  - vm_compute. discriminate.
  - vm_compute. intros [H|[]]. discriminate.
Defined.

(** X11, witness: the old rating of product 101 does not count, and
    product 103 has only four ratings in the window. *)
Lemma get_top_n_products_window_witness :
  get_top_n_products fixture_now recent_table 30 10
  = Returns [ mkTop 101 (23 # 5) 5; mkTop 102 (15 # 5) 5 ]
  /\ NoDup (map top_product_id [ mkTop 101 (23 # 5) 5; mkTop 102 (15 # 5) 5 ]).
Proof.
  assert (H : get_top_n_products fixture_now recent_table 30 10
              = Returns [ mkTop 101 (23 # 5) 5; mkTop 102 (15 # 5) 5 ])
    by (vm_compute; reflexivity).
  split; [exact H|].
  apply (get_top_n_products_window fixture_now recent_table 30 10 _ H).
Defined.

(** X12, witness. *)
Lemma get_top_n_products_is_popular_witness :
  map (fun t => (top_product_id t, avg_rating t))
      [ mkTop 101 (23 # 5) 5; mkTop 102 (15 # 5) 5 ]
  = map (fun r => (rec_product_id r, score r))
        (get_popular_items
           (window_of (fixture_now - 30 * microseconds_per_day) recent_table)
           10 5).
Proof.
  apply (get_top_n_products_is_popular fixture_now recent_table 30 10).
  vm_compute. reflexivity.
Defined.

(** X13, witness: user 1 of the test table. *)
Lemma recommended_products_are_known_witness :
  exists rows,
    recommend_for_user Qsqrt test_table 1 2 (1 # 10) false "mean_center" 2
    = Ok rows
    /\ forall row, In row rows ->
         In (rec_product_id row) (map product_id test_table).
Proof.
  eexists. split; [vm_compute; reflexivity|].
  apply (recommended_products_are_known Qsqrt test_table 1 2 (1 # 10) false
           "mean_center" 2).
  vm_compute. reflexivity.
Defined.

(** X14, witness: the single-rating user, on mean-centered ratings. *)
Lemma recommend_for_user_total_witness :
  exists rows,
    recommend_for_user Qsqrt single_rating_table 1 10 (1 # 10) true
                       "mean_center" 2 = Ok rows.
Proof.
  apply (recommend_for_user_total Qsqrt single_rating_table 1 10 (1 # 10) true
           "mean_center" 2).
  - simpl. auto.
  - right. left. reflexivity.
Defined.

(** X15, witness: the single-rating user, alone in the table and with
    a second user who has two ratings. *)
Lemma recommend_for_user_z_score_witness :
  recommend_for_user Qsqrt single_rating_table 1 10 (1 # 10) true "z_score" 2
  = Error EmptyArray
  /\ recommend_for_user Qsqrt
       [mkRating 1 101 4 0; mkRating 2 101 3 0; mkRating 2 102 5 0]
       1 10 (1 # 10) true "z_score" 2
     = Error (KeyError 1).
Proof.
  split.
  - apply (recommend_for_user_z_score Qsqrt single_rating_table 1 10 (1 # 10) 2).
    + simpl. auto.
    + reflexivity.
    + intros u. apply (filter_length_le _ single_rating_table).
  - apply (recommend_for_user_z_score Qsqrt
             [mkRating 1 101 4 0; mkRating 2 101 3 0; mkRating 2 102 5 0]
             1 10 (1 # 10) 2).
    + simpl. auto.
    + reflexivity.
    + exists 2. simpl. lia.
Defined.

(** X16, witness: the matrix of the test table. *)
Lemma raw_matrix_cells_witness :
  exists matrix,
    user_item_matrix Qsqrt test_table false "mean_center" = Ok matrix
    /\ index matrix = [1; 2; 3; 4]
    /\ columns matrix = [101; 102; 103; 104].
Proof.
  destruct (raw_matrix_cells Qsqrt test_table "mean_center")
    as (matrix & Hm & Hi & Hc & _).
  - intros r Hr. simpl in Hr.
    repeat (destruct Hr as [<-|Hr]; [unfold Qlt; simpl; lia|]).
    contradiction.
  - exists matrix. split; [exact Hm|]. split; [exact Hi | exact Hc].
Defined.


(** X19, witness: user 1 has five records, one of them held out. *)
Lemma split_train_test_sizes_witness :
  exists train test,
    split_train_test reversed split_table (1 # 5) 42 5 = Ok (train, test)
    /\ length (rows_of_user 1 test) = 1%nat
    /\ length (rows_of_user 1 train) = 4%nat.
Proof.
  assert (Hs : shuffles reversed 42).
  { intros n. unfold reversed. symmetry. apply Permutation_rev. }
  assert (Hsplit : split_train_test reversed split_table (1 # 5) 42 5
                   = Ok ([ mkRating 1 104 2 0; mkRating 1 103 3 0;
                           mkRating 1 102 4 0; mkRating 1 101 5 0 ],
                         [ mkRating 1 105 1 0 ]))
    by (vm_compute; reflexivity).
  eexists _, _. split; [exact Hsplit|].
  destruct (split_train_test_sizes reversed split_table (1 # 5) 42 5 _ _
              Hs Hsplit 1) as (H1 & H2 & _).
  - simpl. auto.
  - vm_compute. discriminate.
  - split; [exact H1 | exact H2].
Defined.

(** X21, witness: the harness fixture. *)
Lemma evaluate_recommendations_averages_witness :
  exists summary,
    evaluate_recommendations split_table held_out_table failing_recommender
                             [1; 2] 4 = Ok summary
    /\ NoDup (map fst summary).
Proof.
  eexists. split; [vm_compute; reflexivity|].
  eapply (evaluate_recommendations_averages split_table held_out_table
            failing_recommender [1; 2] 4).
  3:{ vm_compute. reflexivity. }
  - intros k Hk. simpl in Hk. lia.
  - intros u m l. unfold failing_recommender.
    destruct (u =? 1); [discriminate|]. intros [= <-].
    repeat constructor; simpl; intuition lia.
Defined.

(** X22, witness: user 1 of the mean-rated table rates 102 below 101;
    product 104 comes back with an estimated rating below 1. *)
Lemma min_max_estimates_at_most_one_witness :
  exists rows,
    recommend_for_user Qsqrt mean_rated_table 1 10 (1 # 10) true "min_max" 2
    = Ok rows
    /\ map rec_product_id rows = [104]
    /\ forall row, In row rows ->
         estimated_rating row = Some (clipQ (1 # 2) 5 (score row))
         /\ (0 <= score row)%Q /\ (score row <= 1)%Q
         /\ (1 # 2 <= clipQ (1 # 2) 5 (score row))%Q
         /\ (clipQ (1 # 2) 5 (score row) <= 1)%Q.
Proof.
  eexists. split; [vm_compute; reflexivity|]. split; [reflexivity|].
  apply (min_max_estimates_at_most_one Qsqrt mean_rated_table 1 10 (1 # 10) 2 _
           (mkRating 1 102 3 0) (mkRating 1 101 (9 # 2) 0)).
  - reflexivity.
  - simpl. auto.
  - simpl. auto.
  - reflexivity.
  - reflexivity.
  - reflexivity.
  - vm_compute. reflexivity.
Defined.

(** X23, witness: user 1 of the test table rated product 101. *)
Lemma recommend_raw_excludes_rated_witness :
  exists rows,
    recommend_for_user Qsqrt test_table 1 2 (1 # 10) false "mean_center" 2
    = Ok rows
    /\ ~ In 101 (map rec_product_id rows).
Proof.
  eexists. split; [vm_compute; reflexivity|].
  apply (recommend_raw_excludes_rated Qsqrt test_table 1 2 (1 # 10)
           "mean_center" 2 _) with (r := mkRating 1 101 5 0).
  - intros r Hr. simpl in Hr.
    repeat (destruct Hr as [<-|Hr]; [unfold Qlt; simpl; lia|]).
    contradiction.
  - vm_compute. reflexivity.
  - simpl. auto.
  - reflexivity.
Defined.

(** X24, witness: the first rating of user 1, with two ratings, under
    z-score. *)
Lemma normalization_round_trip_witness :
  exists ndf v,
    normalize_ratings_per_user Qsqrt test_table "z_score" = Ok ndf
    /\ In (mkRating 1 101 5 0, v) ndf
    /\ oQeq (denormalize_rating v
               (Some (mean (user_group test_table (mkRating 1 101 5 0))))
               (replace_0_1
                  (std Qsqrt (user_group test_table (mkRating 1 101 5 0))))
               "z_score")
            (Some 5%Q).
Proof.
  eexists _, _. split; [reflexivity|].
  assert (Hin : In (mkRating 1 101 5 0,
                    fdiv (5 - mean (user_group test_table (mkRating 1 101 5 0)))
                         (replace_0_1
                            (std Qsqrt
                               (user_group test_table (mkRating 1 101 5 0)))))
                   (map (fun r =>
                           (r, fdiv (rating r - mean (user_group test_table r))
                                    (replace_0_1
                                       (std Qsqrt (user_group test_table r)))))
                        test_table)) by (left; reflexivity).
  split; [exact Hin|].
  eapply (normalization_round_trip Qsqrt test_table "z_score").
  - right. split; [reflexivity | simpl; lia].
  - reflexivity.
  - exact Hin.
Defined.
